(** * Real-browser monitor: browser pools, challenge waiter, navigation and
    check orchestration, as a shallow embedding of the module that defines
    [RealBrowserMonitorType].

    The module talks to Playwright, the settings store, the operating system
    and the remote-browser table.  Every such call is an entry of an [Env]
    record: an oracle that answers from the history of calls made so far (the
    call being answered is the head of that history).  The code itself is a
    state-and-exception computation over a [World] holding the module's
    mutable variables, the heartbeat object being filled in and the history.
    One run is embedded as written, with no other task interleaved at its
    [await] points; the "disconnected" observer is a transition of its own.
    Calls to [log] are not modelled.

    The Minecraft monitor and the [mounted] hook of the entry page follow, as
    functions over a datatype of JSON values. *)

From Stdlib Require Import ZArith QArith Qminmax String Ascii List Bool.
From Stdlib Require Import Floats.SpecFloat.
From stdpp Require Import base option gmap strings pretty.

Local Open Scope string_scope.
Local Open Scope Z_scope.

(** ** JavaScript numbers: IEEE-754 binary64

    Numbers are doubles and arithmetic rounds to nearest, ties to even, as in
    the language: a product such as [timeout * 0.7] is the double nearest to
    the product of the two doubles. *)

Module Num.

Definition number : Type := spec_float.

Definition prec : Z := 53.
Definition emax : Z := 1024.

(** An integer literal. *)
Definition of_Z (z : Z) : number := binary_normalize prec emax z 0 false.

(** The decimal literals of the source, as the doubles nearest to them. *)
Definition lit_0_6 : number := S754_finite false 5404319552844595 (-53).
Definition lit_0_7 : number := S754_finite false 6305039478318694 (-53).
Definition lit_0_8 : number := S754_finite false 7205759403792794 (-53).

Definition mul (x y : number) : number := SFmul prec emax x y.

(** [x < y] and [x >= y] of JavaScript: false as soon as a NaN is involved. *)
Definition lt (x y : number) : bool := SFltb x y.
Definition ge (x y : number) : bool := SFleb y x.

(** [Math.max(x, y)]: NaN if either is NaN, and +0 is larger than -0. *)
Definition max (x y : number) : number :=
  match SFcompare x y with
  | None => S754_nan
  | Some Lt => y
  | Some Gt => x
  | Some Eq => match x with S754_zero true => y | _ => x end
  end.

(** [Math.min(x, y)]: NaN if either is NaN, and -0 is smaller than +0. *)
Definition min (x y : number) : number :=
  match SFcompare x y with
  | None => S754_nan
  | Some Lt => x
  | Some Gt => y
  | Some Eq => match x with S754_zero false => y | _ => x end
  end.

(** [Math.floor(x)]: NaN, the infinities and the zeros are kept. *)
Definition floor (x : number) : number :=
  match x with
  | S754_finite s m e =>
      if 0 <=? e then x
      else
        let d := 2 ^ (- e) in
        let q := Z.pos m / d in
        if s then of_Z (- (if Z.pos m mod d =? 0 then q else q + 1))
        else if q =? 0 then S754_zero false else of_Z q
  | _ => x
  end.

Definition is_nan (x : number) : bool :=
  match x with S754_nan => true | _ => false end.



End Num.

Abbreviation number := Num.number.

(** ** JavaScript strings

    Strings are byte strings.  Lower-casing is a function of the runtime
    ([toLowerCase] and [toLocaleLowerCase] of the environment below): it
    follows Unicode and, for the second, the locale of the process. *)

Module Str.

(** [s.includes(needle)] *)
Fixpoint includes (s needle : string) : bool :=
  String.prefix needle s ||
  match s with
  | EmptyString => false
  | String _ s' => includes s' needle
  end.

Definition lower_ascii (c : ascii) : ascii :=
  let n := N_of_ascii c in
  if ((65 <=? n) && (n <=? 90))%N then ascii_of_N (n + 32) else c.

(** The letters A to Z made small and every other byte kept: what the
    runtime's [toLowerCase] gives on a string of ASCII characters.  The
    concrete environments use it. *)
Fixpoint ascii_lower (s : string) : string :=
  match s with
  | EmptyString => EmptyString
  | String c s' => String (lower_ascii c) (ascii_lower s')
  end.

(** [o || ""] for a string that may be [undefined] or [null]. *)
Definition or_empty (o : option string) : string := default "" o.

(** String concatenation of a value that may be [undefined]. *)
Definition of_undefined (o : option string) : string := default "undefined" o.

End Str.

(** ** Thrown values *)

Record JsError : Type := mkError { err_name : string; err_message : string }.

(** [new Error(message)] *)
Definition Error (message : string) : JsError := mkError "Error" message.

Global Instance JsError_eq_dec : EqDecision JsError.
Proof. solve_decision. Defined.

Inductive Res (A : Type) : Type :=
| Ok (a : A)
| Err (e : JsError).
Arguments Ok {A} a.
Arguments Err {A} e.

(** ** Objects handed out by Playwright

    Each browser, context and page is a JavaScript object; what the code uses
    of it is its identity ([===]) and the calls made on it. *)

Definition handle : Type := nat.   (* a [Browser] *)
Definition context : Type := nat.  (* a [BrowserContext] *)
Definition page : Type := nat.     (* a [Page] *)

(** What the code reads of a [Response]: [res.status()] and
    [res.request().timing().responseEnd]. *)
Record Response : Type := mkResponse { status : Z; responseEnd : number }.

(** A row of the remote-browser table, as returned by [RemoteBrowser.get]. *)
Record RemoteBrowserRec : Type :=
  mkRemoteBrowser { rb_id : Z; rb_name : string; rb_url : string }.

(** A value of [remoteBrowserConnections]: [{ url, browser }]. *)
Record Connection : Type := mkConnection { conn_url : string; conn_browser : handle }.

Inductive WaitUntil : Type := networkidle | domcontentloaded.

(** The argument of [chromium.launch]. *)
Record LaunchOptions : Type := mkLaunch {
  executablePath : option string;   (* [undefined]: the bundled browser *)
  headless : option bool;           (* absent in the default options *)
  args : list string
}.

(** The argument of [browser.newContext]. *)
Record ContextOptions : Type := mkContextOptions {
  ignoreHTTPSErrors : bool;
  userAgent : option string;
  locale : option string;
  viewport : option (Z * Z)
}.

(** The monitor row, the server and the heartbeat being filled in. *)
Record Monitor : Type := mkMonitor {
  id : Z;
  name : string;
  url : string;
  subtype : option string;
  remote_browser : option Z;   (* [null] when the monitor is local *)
  user_id : Z;
  interval : number;
  screenshot_delay : number;
  getIgnoreTls : bool
}.

Record Server : Type := mkServer { jwtSecret : string }.

(** Modelled from the spec: the constant [UP] imported from [src/util], which
    is not among the sources; the spec gives a check result the status
    "up" or "down". *)
Inductive Status : Type := UP | DOWN.

Record Heartbeat : Type := mkHeartbeat {
  hb_status : option Status;   (* [heartbeat.status] *)
  hb_msg : option Z;           (* [heartbeat.msg] *)
  hb_ping : option number      (* [heartbeat.ping] *)
}.

(** ** Calls that leave the module *)

(** An object literal [{ timeout: n }]. *)
Record TimeoutObject : Type := mkTimeoutObject { timeout : number }.

(** [EvWaitForFunction p arg options] is
    [page.waitForFunction(pageFunction, arg, options)]: the second positional
    argument is handed to the page function and the third holds the options
    of the wait. *)
Inductive event : Type :=
| EvSettingsGet (key : string)
| EvCommandExists (command : string)
| EvAptInstall
| EvExecVersion (executable : string)
| EvLaunch (options : LaunchOptions)
| EvConnect (endpoint : string)
| EvBrowserClose (b : handle)
| EvRemoteBrowserGet (remoteBrowserID userId : Z)
| EvNewContext (b : handle) (options : ContextOptions)
| EvAddInitScript (c : context)
| EvNewPage (c : context)
| EvSetExtraHTTPHeaders (p : page) (header value : string)
| EvGoto (p : page) (target : string) (waitUntil : WaitUntil) (timeout : number)
| EvEvaluate (p : page)
| EvWaitForFunction (p : page) (arg : option TimeoutObject) (options : option TimeoutObject)
| EvWaitForTimeout (p : page) (delay : number)
| EvScreenshot (p : page) (path : string)
| EvContextClose (c : context).

(** The history, most recent call first. *)
Definition history : Type := list event.

(** The world outside the module.  The first group are functions of the
    runtime and of the process.  [isConnected] and [browser_version] are
    synchronous reads, answered from the history so far.  The others answer
    an awaited call from the history whose head is that call. *)
Record Env : Type := mkEnv {
  platform : string;                               (* [process.platform] *)
  getenv : string -> option string;                (* [process.env] *)
  allow_all_chrome_exec : bool;                    (* [config.args["allow-all-chrome-exec"]] *)
  toLowerCase : string -> string;                  (* [String.prototype.toLowerCase] *)
  toLocaleLowerCase : string -> string;            (* [String.prototype.toLocaleLowerCase] *)
  screenshotDir : string;                          (* [Database.screenshotDir] *)
  URL_protocol : string -> Res string;             (* [new URL(s).protocol] *)
  jwt_sign : Z -> string -> Res string;            (* [jwt.sign(payload, secret)] *)
  path_join : string -> string -> string;          (* [path.join(a, b)] *)

  isConnected : history -> handle -> bool;         (* [browser.isConnected()] *)
  browser_version : history -> handle -> string;   (* [browser.version()] *)

  Settings_get : history -> Res (option string);
  commandExists : history -> Res bool;
  apt_exit_code : history -> option Z;             (* [null] when killed by a signal *)
  exec_version : history -> string;                (* the version query, when it returns *)
  chromium_launch : history -> Res unit;
  chromium_connect : history -> Res unit;
  browser_close : history -> Res unit;
  RemoteBrowser_get : history -> Res (option RemoteBrowserRec);
  browser_newContext : history -> Res unit;
  context_addInitScript : history -> Res unit;
  context_newPage : history -> Res unit;
  page_setExtraHTTPHeaders : history -> Res unit;
  page_goto : history -> Res (option Response);
  page_evaluate : history -> Res (option string * option string); (* title, body text *)
  page_waitForFunction : history -> Res unit;
  page_waitForTimeout : history -> Res unit;
  page_screenshot : history -> Res unit;
  context_close : history -> Res unit
}.

(** ** The module's state *)

Record World : Type := mkWorld {
  trace : history;
  next_object : nat;                                 (* identity of the next new object *)
  localBrowser : option handle;
  localCloudflareBrowser : option handle;
  remoteBrowserConnections : gmap Z Connection;
  observers : list (handle * Z);                     (* "disconnected" listeners: browser, cacheKey *)
  lastAutoDetectChromeExecutable : option string;
  heartbeat : Heartbeat
}.

Definition set_trace (t : history) (w : World) : World :=
  mkWorld t (next_object w) (localBrowser w) (localCloudflareBrowser w)
    (remoteBrowserConnections w) (observers w) (lastAutoDetectChromeExecutable w) (heartbeat w).
Definition set_next_object (n : nat) (w : World) : World :=
  mkWorld (trace w) n (localBrowser w) (localCloudflareBrowser w)
    (remoteBrowserConnections w) (observers w) (lastAutoDetectChromeExecutable w) (heartbeat w).
Definition set_localBrowser (b : option handle) (w : World) : World :=
  mkWorld (trace w) (next_object w) b (localCloudflareBrowser w)
    (remoteBrowserConnections w) (observers w) (lastAutoDetectChromeExecutable w) (heartbeat w).
Definition set_localCloudflareBrowser (b : option handle) (w : World) : World :=
  mkWorld (trace w) (next_object w) (localBrowser w) b
    (remoteBrowserConnections w) (observers w) (lastAutoDetectChromeExecutable w) (heartbeat w).
Definition set_remoteBrowserConnections (m : gmap Z Connection) (w : World) : World :=
  mkWorld (trace w) (next_object w) (localBrowser w) (localCloudflareBrowser w)
    m (observers w) (lastAutoDetectChromeExecutable w) (heartbeat w).
Definition set_observers (l : list (handle * Z)) (w : World) : World :=
  mkWorld (trace w) (next_object w) (localBrowser w) (localCloudflareBrowser w)
    (remoteBrowserConnections w) l (lastAutoDetectChromeExecutable w) (heartbeat w).
Definition set_lastAutoDetectChromeExecutable (e : option string) (w : World) : World :=
  mkWorld (trace w) (next_object w) (localBrowser w) (localCloudflareBrowser w)
    (remoteBrowserConnections w) (observers w) e (heartbeat w).
Definition set_heartbeat (h : Heartbeat) (w : World) : World :=
  mkWorld (trace w) (next_object w) (localBrowser w) (localCloudflareBrowser w)
    (remoteBrowserConnections w) (observers w) (lastAutoDetectChromeExecutable w) h.

(** ** Computations: state and exceptions *)

Definition M (A : Type) : Type := World -> Res A * World.

Definition ret {A} (a : A) : M A := fun w => (Ok a, w).
Definition throw {A} (e : JsError) : M A := fun w => (Err e, w).
Definition bind {A B} (m : M A) (k : A -> M B) : M B :=
  fun w => match m w with
           | (Ok a, w') => k a w'
           | (Err e, w') => (Err e, w')
           end.

Global Instance M_ret : MRet M := @ret.
Global Instance M_bind : MBind M := fun A B k m => bind m k.

(** [try { body } catch (error) { handler }] *)
Definition try_catch {A} (body : M A) (handler : JsError -> M A) : M A :=
  fun w => match body w with
           | (Ok a, w') => (Ok a, w')
           | (Err e, w') => handler e w'
           end.

(** [try { body } finally { cleanup }]: the outcome of [body] stands unless
    [cleanup] itself throws. *)
Definition try_finally {A} (body : M A) (cleanup : M unit) : M A :=
  fun w => match body w with
           | (r, w') => match cleanup w' with
                        | (Ok _, w'') => (r, w'')
                        | (Err e, w'') => (Err e, w'')
                        end
           end.

(** [try { await m } catch (_) {}] *)
Definition ignore_errors (m : M unit) : M unit := try_catch m (fun _ => ret tt).

Definition get {A} (f : World -> A) : M A := fun w => (Ok (f w), w).
Definition modify (f : World -> World) : M unit := fun w => (Ok tt, f w).

(** Make a call: it enters the history and the oracle answers. *)
Definition call {A} (ev : event) (oracle : history -> Res A) : M A :=
  fun w => let t := ev :: trace w in (oracle t, set_trace t w).

(** A new object gets an identity no earlier object has. *)
Definition new_object : M nat :=
  fun w => (Ok (next_object w), set_next_object (S (next_object w)) w).

(** ** The module *)

Definition CLOUDFLARE_USER_AGENT : string :=
  "Mozilla/5.0 (Windows NT 10.0; Win64; x64) AppleWebKit/537.36 (KHTML, like Gecko) Chrome/136.0.0.0 Safari/537.36".
Definition CLOUDFLARE_ACCEPT_LANGUAGE : string := "en-US,en;q=0.9".

Definition newline : string := String (ascii_of_nat 10) EmptyString.

(** The marker phrases of a challenge page. *)
Definition markers : list string :=
  [ "checking your browser before accessing";
    "performing security verification";
    "just a moment";
    "verify you are human";
    "attention required!" ].

(** The drive letters [String.fromCharCode(65)] to [String.fromCharCode(90)]. *)
Definition drives : list string :=
  map (fun i => String (ascii_of_nat i) EmptyString) (seq 65 26).

Section RealBrowser.

Context (env : Env).

Definition windows_allowedList : list string :=
  [ Str.of_undefined (getenv env "LOCALAPPDATA") ++ "\Google\Chrome\Application\chrome.exe";
    Str.of_undefined (getenv env "PROGRAMFILES") ++ "\Google\Chrome\Application\chrome.exe";
    Str.of_undefined (getenv env "ProgramFiles(x86)") ++ "\Google\Chrome\Application\chrome.exe";
    Str.of_undefined (getenv env "LOCALAPPDATA") ++ "\Chromium\Application\chrome.exe";
    Str.of_undefined (getenv env "PROGRAMFILES") ++ "\Chromium\Application\chrome.exe";
    Str.of_undefined (getenv env "ProgramFiles(x86)") ++ "\Chromium\Application\chrome.exe";
    Str.of_undefined (getenv env "ProgramFiles(x86)") ++ "\Microsoft\Edge\Application\msedge.exe" ]
  ++ flat_map (fun drive =>
       [ drive ++ ":\Program Files\Google\Chrome\Application\chrome.exe";
         drive ++ ":\Program Files (x86)\Google\Chrome\Application\chrome.exe" ]) drives.

Definition allowedList : list string :=
  if String.eqb (platform env) "win32" then windows_allowedList
  else if String.eqb (platform env) "linux" then
    [ "chromium"; "chromium-browser"; "google-chrome";
      "/usr/bin/chromium"; "/usr/bin/chromium-browser"; "/usr/bin/google-chrome";
      "/snap/bin/chromium" ]
  else if String.eqb (platform env) "darwin" then
    [ "/Applications/Google Chrome.app/Contents/MacOS/Google Chrome";
      "/Applications/Chromium.app/Contents/MacOS/Chromium" ]
  else [].

Definition env_is (var value : string) : bool :=
  match getenv env var with Some v => String.eqb v value | None => false end.

Definition env_truthy (var : string) : bool :=
  match getenv env var with Some v => negb (String.eqb v "") | None => false end.

Definition isAllowedChromeExecutable (executablePath : string) : bool :=
  if allow_all_chrome_exec env || env_is "UPTIME_KUMA_ALLOW_ALL_CHROME_EXEC" "1" then true
  else existsb (String.eqb executablePath) allowedList.

(** [installChromiumViaApt], for the runs in which the version query made
    by the exit listener returns.  A query that throws does so inside the
    listener: the promise is then never settled and the caller never
    resumes.  Such a run has no outcome and is not embedded. *)
Definition installChromiumViaApt (executablePath : string) : M unit :=
  found ← call (EvCommandExists executablePath) (commandExists env);
  if found : bool then mret tt
  else
    code ← call EvAptInstall (fun t => Ok (apt_exit_code env t));
    match code with
    | Some 0 =>
        call (EvExecVersion executablePath) (fun t => Ok (exec_version env t));;
        mret tt
    | Some 100 => throw (Error "Installing Chromium, please wait...")
    | Some c => throw (Error ("apt install chromium failed with code " ++ pretty c))
    | None => throw (Error "apt install chromium failed with code null")
    end.

(** The [for] loop of [findChrome]. *)
Fixpoint findChrome_search (executables : list string) : M string :=
  match executables with
  | [] => throw (Error "Chromium not found, please specify Chromium executable path in the settings page.")
  | executable :: rest =>
      found ← call (EvCommandExists executable) (commandExists env);
      if found : bool then
        modify (set_lastAutoDetectChromeExecutable (Some executable));;
        mret executable
      else findChrome_search rest
  end.

Definition findChrome (executables : list string) : M string :=
  last ← get lastAutoDetectChromeExecutable;
  match last with
  | Some l =>
      if String.eqb l "" then findChrome_search executables
      else
        found ← call (EvCommandExists l) (commandExists env);
        if found : bool then mret l else findChrome_search executables
  | None => findChrome_search executables
  end.

(** [prepareChromeExecutable]; [None] is [undefined] (or [null] on input). *)
Definition prepareChromeExecutable (executablePath : option string) : M (option string) :=
  let not_given :=
    if env_truthy "UPTIME_KUMA_IS_CONTAINER" then
      installChromiumViaApt "/usr/bin/chromium";;
      mret (Some "/usr/bin/chromium")
    else
      found ← findChrome allowedList;
      mret (Some found) in
  match executablePath with
  | Some p =>
      if String.eqb (toLocaleLowerCase env p) "#playwright_chromium" then mret None
      else if String.eqb p "" then not_given
      else if negb (isAllowedChromeExecutable p) then
        throw (Error "This Chromium executable path is not allowed by default. If you are sure this is safe, please add an environment variable UPTIME_KUMA_ALLOW_ALL_CHROME_EXEC=1 to allow it.")
      else mret (Some p)
  | None => not_given
  end.

(** [await chromium.launch(options)] *)
Definition launch (options : LaunchOptions) : M handle :=
  call (EvLaunch options) (chromium_launch env);;
  new_object.

(** [b && b.isConnected()] *)
Definition connected (b : option handle) : M bool :=
  t ← get trace;
  mret (match b with Some h => isConnected env t h | None => false end).

Definition getBrowser : M handle :=
  cached ← get localBrowser;
  live ← connected cached;
  match cached, live with
  | Some b, true => mret b
  | _, _ =>
      executablePath ← call (EvSettingsGet "chromeExecutable") (Settings_get env);
      executablePath ← prepareChromeExecutable executablePath;
      b ← launch (mkLaunch executablePath None []);
      modify (set_localBrowser (Some b));;
      mret b
  end.

Definition looksLikeDisplayIssue (message : string) : bool :=
  Str.includes message "Missing X server" ||
  Str.includes message "ozone_platform_x11" ||
  Str.includes message "headed mode" ||
  Str.includes message "DISPLAY".

Definition getCloudflareBrowser : M handle :=
  cached ← get localCloudflareBrowser;
  live ← connected cached;
  match cached, live with
  | Some b, true => mret b
  | _, _ =>
      executablePath ← call (EvSettingsGet "chromeExecutable") (Settings_get env);
      executablePath ← prepareChromeExecutable executablePath;
      let launchOptions :=
        mkLaunch executablePath (Some false)
          [ "--disable-blink-features=AutomationControlled"; "--disable-dev-shm-usage" ] in
      b ← try_catch (launch launchOptions)
            (fun error =>
               if negb (looksLikeDisplayIssue (err_message error)) then throw error
               else launch (mkLaunch executablePath None (args launchOptions)));
      modify (set_localCloudflareBrowser (Some b));;
      mret b
  end.

(** [isCloudflareChallengePage]: the function evaluated in the page reads
    [document.title] and [document.body.innerText]. *)
Definition isCloudflareChallengePage (p : page) : M bool :=
  doc ← call (EvEvaluate p) (page_evaluate env);
  let title := toLowerCase env (Str.or_empty (fst doc)) in
  let body := toLowerCase env (Str.or_empty (snd doc)) in
  let content := title ++ newline ++ body in
  mret (existsb (fun marker => Str.includes content marker) markers).

Definition waitTimeout (timeout : number) : number :=
  Num.max (Num.of_Z 3000) (Num.min (Num.of_Z 20000) (Num.floor (Num.mul timeout Num.lit_0_7))).

Definition challenge_timeout : JsError :=
  Error "Cloudflare challenge was not solved within the timeout.".

(** [waitForCloudflareChallengeIfNeeded]: the object [{ timeout: waitTimeout }]
    is the second positional argument of [page.waitForFunction], and no third
    argument is given. *)
Definition waitForCloudflareChallengeIfNeeded (p : page) (timeout : number) (monitorName : string) : M unit :=
  hasChallenge ← isCloudflareChallengePage p;
  if negb hasChallenge then mret tt
  else
    try_catch
      (call (EvWaitForFunction p (Some (mkTimeoutObject (waitTimeout timeout))) None)
            (page_waitForFunction env))
      (fun _ => throw challenge_timeout).

(** The listener registered on a new remote connection. *)
Definition on_disconnected (cacheKey : Z) (remoteConnection : handle) (w : World) : World :=
  match remoteBrowserConnections w !! cacheKey with
  | Some current =>
      if Nat.eqb (conn_browser current) remoteConnection
      then set_remoteBrowserConnections (delete cacheKey (remoteBrowserConnections w)) w
      else w
  | None => w
  end.

(** The "disconnected" event of browser [b]: its listeners run in the order
    they were registered. *)
Definition disconnected (b : handle) (w : World) : World :=
  fold_left
    (fun w' o => if Nat.eqb (fst o) b then on_disconnected (snd o) (fst o) w' else w')
    (observers w) w.

Definition cache_delete (cacheKey : Z) : M unit :=
  modify (fun w => set_remoteBrowserConnections (delete cacheKey (remoteBrowserConnections w)) w).

Definition cache_set (cacheKey : Z) (c : Connection) : M unit :=
  modify (fun w => set_remoteBrowserConnections (<[cacheKey := c]> (remoteBrowserConnections w)) w).

(** [await b.close()] *)
Definition close_browser (b : handle) : M unit :=
  call (EvBrowserClose b) (browser_close env).

Definition getRemoteBrowser (remoteBrowserID userId : Z) : M handle :=
  remoteBrowser ← call (EvRemoteBrowserGet remoteBrowserID userId) (RemoteBrowser_get env);
  match remoteBrowser with
  | None => throw (Error ("Remote browser #" ++ pretty remoteBrowserID ++ " not found"))
  | Some remoteBrowser =>
      let cacheKey := rb_id remoteBrowser in
      let connect : M handle :=
        call (EvConnect (rb_url remoteBrowser)) (chromium_connect env);;
        remoteConnection ← new_object;
        modify (fun w => set_observers (observers w ++ [(remoteConnection, cacheKey)]) w);;
        cache_set cacheKey (mkConnection (rb_url remoteBrowser) remoteConnection);;
        mret remoteConnection in
      cachedConnection ← get (fun w => remoteBrowserConnections w !! cacheKey);
      live ← connected (conn_browser <$> cachedConnection);
      match cachedConnection with
      | Some c =>
          if live && String.eqb (conn_url c) (rb_url remoteBrowser) then mret (conn_browser c)
          else
            ignore_errors (close_browser (conn_browser c));;
            cache_delete cacheKey;;
            connect
      | None => connect
      end
  end.

Definition clearRemoteBrowserConnection (remoteBrowserID : Z) : M unit :=
  cachedConnection ← get (fun w => remoteBrowserConnections w !! remoteBrowserID);
  match cachedConnection with
  | None => mret tt
  | Some c =>
      ignore_errors (close_browser (conn_browser c));;
      cache_delete remoteBrowserID
  end.

Definition isBrowserClosedError (error : JsError) : bool :=
  let message := err_message error in
  Str.includes message "Target page, context or browser has been closed" ||
  Str.includes message "Target closed" ||
  Str.includes message "Browser has been closed" ||
  Str.includes message "Connection closed".

Definition isNavigationTimeoutError (error : JsError) : bool :=
  let message := err_message error in
  String.eqb (err_name error) "TimeoutError" ||
  Str.includes message "Timeout" ||
  Str.includes message "timed out".

Definition resetChrome : M unit :=
  plain ← get localBrowser;
  match plain with
  | Some b => close_browser b;; modify (set_localBrowser None)
  | None => mret tt
  end;;
  cloudflare ← get localCloudflareBrowser;
  match cloudflare with
  | Some b => close_browser b;; modify (set_localCloudflareBrowser None)
  | None => mret tt
  end.

Definition testChrome (executablePath : option string) : M string :=
  try_catch
    (executablePath ← prepareChromeExecutable executablePath;
     browser ← launch (mkLaunch executablePath None []);
     t ← get trace;
     let version := browser_version env t browser in
     close_browser browser;;
     mret version)
    (fun e => throw (Error (err_message e))).

Definition testRemoteBrowser (remoteBrowserURL : string) : M bool :=
  try_catch
    (call (EvConnect remoteBrowserURL) (chromium_connect env);;
     browser ← new_object;
     close_browser browser;;
     mret true)
    (fun e => throw (Error (err_message e))).

(** *** [RealBrowserMonitorType.check] *)

Definition isCloudflareMode (monitor : Monitor) : bool :=
  match subtype monitor with Some s => String.eqb s "cf" | None => false end.

Definition contextOptions (monitor : Monitor) : ContextOptions :=
  if isCloudflareMode monitor
  then mkContextOptions (getIgnoreTls monitor) (Some CLOUDFLARE_USER_AGENT) (Some "en-US") (Some (1366, 768))
  else mkContextOptions (getIgnoreTls monitor) None None None.

(** [Math.max(1000, Math.floor(monitor.interval * 1000 * 0.8))] *)
Definition check_timeout (monitor : Monitor) : number :=
  Num.max (Num.of_Z 1000)
    (Num.floor (Num.mul (Num.mul (interval monitor) (Num.of_Z 1000)) Num.lit_0_8)).

Definition verifyTimeout (timeout : number) : number :=
  Num.max (Num.of_Z 3000) (Num.floor (Num.mul timeout Num.lit_0_6)).

Definition fallbackTimeout (timeout : number) : number :=
  Num.max (Num.of_Z 1000) (Num.floor (Num.mul timeout Num.lit_0_6)).

(** [await page.goto(monitor.url, { waitUntil, timeout })] *)
Definition goto (p : page) (target : string) (waitUntil : WaitUntil) (timeout : number)
  : M (option Response) :=
  call (EvGoto p target waitUntil timeout) (page_goto env).

(** The two branches of [if (isCloudflareMode) ... else ...] that assign [res]. *)
Definition navigate_cloudflare (monitor : Monitor) (p : page) (timeout : number)
  : M (option Response) :=
  res ← goto p (url monitor) domcontentloaded timeout;
  waitForCloudflareChallengeIfNeeded p timeout (name monitor);;
  verifyResponse ← goto p (url monitor) domcontentloaded (verifyTimeout timeout);
  match verifyResponse with
  | Some r => mret (Some r)
  | None => mret res
  end.

Definition navigate_plain (monitor : Monitor) (p : page) (timeout : number)
  : M (option Response) :=
  try_catch
    (goto p (url monitor) networkidle timeout)
    (fun error =>
       if negb (isNavigationTimeoutError error) then throw error
       else goto p (url monitor) domcontentloaded (fallbackTimeout timeout)).

Definition lift {A} (r : Res A) : M A := fun w => (r, w).

(** The steps of the [try] block of [runCheck], in source order. *)

(** Init script, page and headers. *)
Definition open_page (monitor : Monitor) (c : context) : M page :=
  (if isCloudflareMode monitor
   then call (EvAddInitScript c) (context_addInitScript env)
   else mret tt);;
  call (EvNewPage c) (context_newPage env);;
  p ← new_object;
  (if isCloudflareMode monitor
   then call (EvSetExtraHTTPHeaders p "Accept-Language" CLOUDFLARE_ACCEPT_LANGUAGE)
             (page_setExtraHTTPHeaders env)
   else mret tt);;
  mret p.

Definition invalid_protocol : JsError :=
  Error "Invalid url protocol, only http and https are allowed.".

(** [let url = new URL(monitor.url); if (url.protocol !== ...) throw ...] *)
Definition check_protocol (target : string) : M unit :=
  protocol ← lift (URL_protocol env target);
  if negb (String.eqb protocol "http:") && negb (String.eqb protocol "https:")
  then throw invalid_protocol
  else mret tt.

Definition navigate (monitor : Monitor) (p : page) (timeout : number) : M (option Response) :=
  if isCloudflareMode monitor
  then navigate_cloudflare monitor p timeout
  else navigate_plain monitor p timeout.

Definition no_response : JsError :=
  Error "Failed to navigate to page: no response returned by browser.".

(** The optional delay, the signed file name and the screenshot. *)
Definition take_screenshot (monitor : Monitor) (server : Server) (p : page) : M unit :=
  (if Num.lt (Num.of_Z 0) (screenshot_delay monitor)
   then call (EvWaitForTimeout p (screenshot_delay monitor)) (page_waitForTimeout env)
   else mret tt);;
  signed ← lift (jwt_sign env (id monitor) (jwtSecret server));
  let filename := signed ++ ".png" in
  call (EvScreenshot p (path_join env (screenshotDir env) filename)) (page_screenshot env).

(** [if (res.status() >= 200 && res.status() < 400) ... else throw ...] *)
Definition classify (res : Response) : M unit :=
  if (200 <=? status res) && (status res <? 400) then
    modify (set_heartbeat (mkHeartbeat (Some UP) (Some (status res)) (Some (responseEnd res))))
  else throw (Error (pretty (status res))).

Definition runCheck_body (monitor : Monitor) (server : Server) (c : context) : M unit :=
  p ← open_page monitor c;
  check_protocol (url monitor);;
  let timeout := check_timeout monitor in
  res ← navigate monitor p timeout;
  match res with
  | None => throw no_response
  | Some res =>
      take_screenshot monitor server p;;
      classify res
  end.

Definition runCheck (monitor : Monitor) (server : Server) (browser : handle) : M unit :=
  call (EvNewContext browser (contextOptions monitor)) (browser_newContext env);;
  c ← new_object;
  try_finally
    (runCheck_body monitor server c)
    (ignore_errors (call (EvContextClose c) (context_close env))).

(** [monitor.remote_browser] when it is truthy. *)
Definition remote_of (monitor : Monitor) : option Z :=
  match remote_browser monitor with
  | Some rb => if rb =? 0 then None else Some rb
  | None => None
  end.

(** [const browser = await getRemoteBrowser(...); await runCheck(browser);] *)
Definition remote_attempt (monitor : Monitor) (server : Server) (rb : Z) : M unit :=
  browser ← getRemoteBrowser rb (user_id monitor);
  runCheck monitor server browser.

Definition check (monitor : Monitor) (server : Server) : M unit :=
  match remote_of monitor with
  | None =>
      browser ← (if isCloudflareMode monitor then getCloudflareBrowser else getBrowser);
      runCheck monitor server browser
  | Some rb =>
      try_catch
        (remote_attempt monitor server rb)
        (fun error =>
           if negb (isBrowserClosedError error) then throw error
           else
             clearRemoteBrowserConnection rb;;
             remote_attempt monitor server rb)
  end.

End RealBrowser.

(** ** Reading a history *)

Definition is_goto (ev : event) : bool :=
  match ev with EvGoto _ _ _ _ => true | _ => false end.
Definition is_browser_close (ev : event) : bool :=
  match ev with EvBrowserClose _ => true | _ => false end.
Definition is_connect (ev : event) : bool :=
  match ev with EvConnect _ => true | _ => false end.
Definition is_newContext (ev : event) : bool :=
  match ev with EvNewContext _ _ => true | _ => false end.
Definition is_context_close (ev : event) : bool :=
  match ev with EvContextClose _ => true | _ => false end.
Definition is_screenshot (ev : event) : bool :=
  match ev with EvScreenshot _ _ => true | _ => false end.
Definition is_waitForFunction (ev : event) : bool :=
  match ev with EvWaitForFunction _ _ _ => true | _ => false end.

(** How many calls of a kind a history holds. *)
Fixpoint count (f : event -> bool) (t : history) : nat :=
  match t with
  | [] => 0%nat
  | ev :: t' => ((if f ev then 1 else 0) + count f t')%nat
  end.

(** The calls made on a context and its page inside the [try] block. *)
Definition page_event (ev : event) : bool :=
  match ev with
  | EvAddInitScript _ | EvNewPage _ | EvSetExtraHTTPHeaders _ _ _ | EvGoto _ _ _ _
  | EvEvaluate _ | EvWaitForFunction _ _ _ | EvWaitForTimeout _ _ | EvScreenshot _ _ => true
  | _ => false
  end.

(** The calls made while acquiring a local browser, and while acquiring or
    releasing a remote one. *)
Definition local_pool_event (ev : event) : bool :=
  match ev with
  | EvSettingsGet _ | EvCommandExists _ | EvAptInstall | EvExecVersion _ | EvLaunch _ => true
  | _ => false
  end.

Definition remote_pool_event (ev : event) : bool :=
  match ev with
  | EvRemoteBrowserGet _ _ | EvConnect _ | EvBrowserClose _ => true
  | _ => false
  end.

(** The close call made for a slot or a cache entry, if it holds a browser. *)
Definition closes (slot : option handle) : history :=
  match slot with Some b => [EvBrowserClose b] | None => [] end.

(** Whether the cache holds a usable connection for a record: the entry
    exists, its browser reports connected and its URL is the record's. *)
Definition cache_valid (env : Env) (t : history) (w : World) (record : RemoteBrowserRec) : bool :=
  match remoteBrowserConnections w !! rb_id record with
  | Some c => isConnected env t (conn_browser c) && String.eqb (conn_url c) (rb_url record)
  | None => false
  end.

(** [m] makes at most [n] calls of kind [f], whatever world it starts in. *)
Definition calls_at_most {A} (f : event -> bool) (n : nat) (m : M A) : Prop :=
  forall w, exists evs, trace (snd (m w)) = (evs ++ trace w)%list /\ (count f evs <= n)%nat.

(** [m] always throws. *)
Definition fails {A} (m : M A) : Prop :=
  forall w, exists e, fst (m w) = Err e.

(** Every browser in the connection cache is an object that already exists. *)
Definition cache_allocated (w : World) : Prop :=
  forall k c, remoteBrowserConnections w !! k = Some c -> (conn_browser c < next_object w)%nat.

(** ** Concrete environments, for running the model *)

Module Demo.

(** A stand-in for [new URL(s).protocol]: the text up to the first colon,
    lower-cased, colon included; no colon is a [TypeError]. *)
Fixpoint scheme_upto_colon (s : string) : option string :=
  match s with
  | EmptyString => None
  | String c s' =>
      if Ascii.eqb c ":"%char then Some ":"
      else String (Str.lower_ascii c) <$> scheme_upto_colon s'
  end.

Definition protocol_of (s : string) : Res string :=
  match scheme_upto_colon s with
  | Some p => Ok p
  | None => Err (mkError "TypeError" "Invalid URL")
  end.

Definition ok200 : Response := mkResponse 200 (Num.of_Z 120).

(** Everything succeeds: pages are plain, responses are 200, browsers stay
    connected, remote browser [7] lives at [ws://remote:3000]. *)
Definition calm : Env := {|
  platform := "linux";
  getenv := fun _ => None;
  allow_all_chrome_exec := false;
  toLowerCase := Str.ascii_lower;
  toLocaleLowerCase := Str.ascii_lower;
  screenshotDir := "./data/screenshots";
  URL_protocol := protocol_of;
  jwt_sign := fun payload secret => Ok ("sig" ++ pretty payload);
  path_join := fun a b => a ++ "/" ++ b;
  isConnected := fun _ _ => true;
  Settings_get := fun _ => Ok None;
  commandExists := fun _ => Ok true;
  apt_exit_code := fun _ => Some 0;
  exec_version := fun _ => "Chromium 136";
  chromium_launch := fun _ => Ok tt;
  chromium_connect := fun _ => Ok tt;
  browser_version := fun _ _ => "136.0";
  browser_close := fun _ => Ok tt;
  RemoteBrowser_get := fun t =>
    match t with
    | EvRemoteBrowserGet 7 _ :: _ => Ok (Some (mkRemoteBrowser 7 "remote" "ws://remote:3000"))
    | _ => Ok None
    end;
  browser_newContext := fun _ => Ok tt;
  context_addInitScript := fun _ => Ok tt;
  context_newPage := fun _ => Ok tt;
  page_setExtraHTTPHeaders := fun _ => Ok tt;
  page_goto := fun _ => Ok (Some ok200);
  page_evaluate := fun _ => Ok (Some "Example Domain", Some "Hello");
  page_waitForFunction := fun _ => Ok tt;
  page_waitForTimeout := fun _ => Ok tt;
  page_screenshot := fun _ => Ok tt;
  context_close := fun _ => Ok tt
|}.

(** [calm] with another answer to [page.goto]. *)
Definition with_goto (f : history -> Res (option Response)) (e : Env) : Env :=
  mkEnv (platform e) (getenv e) (allow_all_chrome_exec e) (toLowerCase e)
    (toLocaleLowerCase e) (screenshotDir e)
    (URL_protocol e) (jwt_sign e) (path_join e) (isConnected e) (browser_version e)
    (Settings_get e) (commandExists e) (apt_exit_code e) (exec_version e)
    (chromium_launch e) (chromium_connect e) (browser_close e) (RemoteBrowser_get e)
    (browser_newContext e) (context_addInitScript e) (context_newPage e)
    (page_setExtraHTTPHeaders e) f (page_evaluate e) (page_waitForFunction e)
    (page_waitForTimeout e) (page_screenshot e) (context_close e).

Definition with_browser_close (f : history -> Res unit) (e : Env) : Env :=
  mkEnv (platform e) (getenv e) (allow_all_chrome_exec e) (toLowerCase e)
    (toLocaleLowerCase e) (screenshotDir e)
    (URL_protocol e) (jwt_sign e) (path_join e) (isConnected e) (browser_version e)
    (Settings_get e) (commandExists e) (apt_exit_code e) (exec_version e)
    (chromium_launch e) (chromium_connect e) f (RemoteBrowser_get e)
    (browser_newContext e) (context_addInitScript e) (context_newPage e)
    (page_setExtraHTTPHeaders e) (page_goto e) (page_evaluate e) (page_waitForFunction e)
    (page_waitForTimeout e) (page_screenshot e) (context_close e).

Definition with_context_close (f : history -> Res unit) (e : Env) : Env :=
  mkEnv (platform e) (getenv e) (allow_all_chrome_exec e) (toLowerCase e)
    (toLocaleLowerCase e) (screenshotDir e)
    (URL_protocol e) (jwt_sign e) (path_join e) (isConnected e) (browser_version e)
    (Settings_get e) (commandExists e) (apt_exit_code e) (exec_version e)
    (chromium_launch e) (chromium_connect e) (browser_close e) (RemoteBrowser_get e)
    (browser_newContext e) (context_addInitScript e) (context_newPage e)
    (page_setExtraHTTPHeaders e) (page_goto e) (page_evaluate e) (page_waitForFunction e)
    (page_waitForTimeout e) (page_screenshot e) f.

Definition with_evaluate (f : history -> Res (option string * option string)) (e : Env) : Env :=
  mkEnv (platform e) (getenv e) (allow_all_chrome_exec e) (toLowerCase e)
    (toLocaleLowerCase e) (screenshotDir e)
    (URL_protocol e) (jwt_sign e) (path_join e) (isConnected e) (browser_version e)
    (Settings_get e) (commandExists e) (apt_exit_code e) (exec_version e)
    (chromium_launch e) (chromium_connect e) (browser_close e) (RemoteBrowser_get e)
    (browser_newContext e) (context_addInitScript e) (context_newPage e)
    (page_setExtraHTTPHeaders e) (page_goto e) f (page_waitForFunction e)
    (page_waitForTimeout e) (page_screenshot e) (context_close e).

Definition with_waitForFunction (f : history -> Res unit) (e : Env) : Env :=
  mkEnv (platform e) (getenv e) (allow_all_chrome_exec e) (toLowerCase e)
    (toLocaleLowerCase e) (screenshotDir e)
    (URL_protocol e) (jwt_sign e) (path_join e) (isConnected e) (browser_version e)
    (Settings_get e) (commandExists e) (apt_exit_code e) (exec_version e)
    (chromium_launch e) (chromium_connect e) (browser_close e) (RemoteBrowser_get e)
    (browser_newContext e) (context_addInitScript e) (context_newPage e)
    (page_setExtraHTTPHeaders e) (page_goto e) (page_evaluate e) f (page_waitForTimeout e)
    (page_screenshot e) (context_close e).

Definition with_isConnected (f : history -> handle -> bool) (e : Env) : Env :=
  mkEnv (platform e) (getenv e) (allow_all_chrome_exec e) (toLowerCase e)
    (toLocaleLowerCase e) (screenshotDir e)
    (URL_protocol e) (jwt_sign e) (path_join e) f (browser_version e) (Settings_get e)
    (commandExists e) (apt_exit_code e) (exec_version e) (chromium_launch e)
    (chromium_connect e) (browser_close e) (RemoteBrowser_get e) (browser_newContext e)
    (context_addInitScript e) (context_newPage e) (page_setExtraHTTPHeaders e)
    (page_goto e) (page_evaluate e) (page_waitForFunction e) (page_waitForTimeout e)
    (page_screenshot e) (context_close e).

Definition with_screenshot (f : history -> Res unit) (e : Env) : Env :=
  mkEnv (platform e) (getenv e) (allow_all_chrome_exec e) (toLowerCase e)
    (toLocaleLowerCase e) (screenshotDir e)
    (URL_protocol e) (jwt_sign e) (path_join e) (isConnected e) (browser_version e)
    (Settings_get e) (commandExists e) (apt_exit_code e) (exec_version e)
    (chromium_launch e) (chromium_connect e) (browser_close e) (RemoteBrowser_get e)
    (browser_newContext e) (context_addInitScript e) (context_newPage e)
    (page_setExtraHTTPHeaders e) (page_goto e) (page_evaluate e) (page_waitForFunction e)
    (page_waitForTimeout e) f (context_close e).

Definition empty_heartbeat : Heartbeat := mkHeartbeat None None None.

(** A fresh process: nothing cached, nothing called yet. *)
Definition cold : World := mkWorld [] 0 None None ∅ [] None empty_heartbeat.

Definition server : Server := mkServer "secret".

(** Monitors: a plain local one, a challenge-aware one, a remote one and one
    with a [file:] target, all probing every 60 seconds. *)
Definition plain : Monitor :=
  mkMonitor 1 "plain" "https://example.com" None None 1 (Num.of_Z 60) (Num.of_Z 0) false.
Definition cf : Monitor :=
  mkMonitor 2 "cf" "https://example.com" (Some "cf") None 1 (Num.of_Z 60) (Num.of_Z 0) false.
Definition remote : Monitor :=
  mkMonitor 3 "remote" "https://example.com" None (Some 7) 1 (Num.of_Z 60) (Num.of_Z 0) false.
Definition lfi : Monitor :=
  mkMonitor 4 "lfi" "file:///etc/passwd" None None 1 (Num.of_Z 60) (Num.of_Z 0) false.

Definition timeout_error : JsError :=
  mkError "TimeoutError" "page.goto: Timeout 48000ms exceeded.".
Definition target_closed : JsError := mkError "Error" "Target closed".
Definition refused : JsError := mkError "Error" "net::ERR_CONNECTION_REFUSED".


Definition no_content : Response := mkResponse 204 (Num.of_Z 80).

(** Challenge-aware scenarios: only the first load returns a response;
    only the second load returns a response. *)
Definition second_load_null : Env :=
  with_goto (fun t => if Nat.eqb (count is_goto t) 1 then Ok (Some no_content) else Ok None) calm.
Definition first_load_null : Env :=
  with_goto (fun t => if Nat.eqb (count is_goto t) 1 then Ok None else Ok (Some ok200)) calm.

(** No load ever returns a response. *)
Definition never_responds : Env := with_goto (fun _ => Ok None) calm.


(** The target answers 500. *)
Definition server_error : Env :=
  with_goto (fun _ => Ok (Some (mkResponse 500 (Num.of_Z 35)))) calm.

(** Closing a browser always throws. *)
Definition close_failed : JsError := mkError "Error" "browser.close: failed".
Definition close_throws : Env := with_browser_close (fun _ => Err close_failed) calm.

(** Both local slots hold a browser. *)
Definition both_cached : World := mkWorld [] 2 (Some 0%nat) (Some 1%nat) ∅ [] None empty_heartbeat.


(** The remote connection drops during the first load only. *)
Definition drops_once : Env :=
  with_goto (fun t => if Nat.eqb (count is_goto t) 1 then Err target_closed else Ok (Some ok200)) calm.

(** The remote connection drops during every load. *)
Definition always_drops : Env := with_goto (fun _ => Err target_closed) calm.

(** Every load is refused. *)
Definition refuses : Env := with_goto (fun _ => Err refused) calm.


(** A challenge page that never clears: the title keeps its marker and the
    wait times out. *)
Definition stuck_challenge : Env :=
  with_waitForFunction (fun _ => Err timeout_error)
    (with_evaluate (fun _ => Ok (Some "Just a moment...", Some "Verify you are human")) calm).

(** Closing a context always throws. *)
Definition context_close_throws : Env :=
  with_context_close (fun _ => Err (mkError "Error" "context.close: failed")) calm.

(** The screenshot cannot be written. *)
Definition disk_full : JsError := mkError "Error" "ENOSPC: no space left on device".
Definition screenshot_throws : Env := with_screenshot (fun _ => Err disk_full) calm.

(** The first load times out, the fallback load answers. *)
Definition never_idle : Env :=
  with_goto (fun t => if Nat.eqb (count is_goto t) 1 then Err timeout_error else Ok (Some ok200)) calm.

(** Browsers report disconnected. *)
Definition unplugged : Env := with_isConnected (fun _ _ => false) calm.

(** Remote browser 7 is cached as browser 0, under a URL that is no longer
    the record's. *)
Definition moved : World :=
  mkWorld [] 1 None None {[ 7 := mkConnection "ws://old:3000" 0%nat ]} [(0%nat, 7)] None empty_heartbeat.

(** Remote browser 7 is cached as browser 0 under the record's URL. *)
Definition warm : World :=
  mkWorld [] 1 None None {[ 7 := mkConnection "ws://remote:3000" 0%nat ]} [(0%nat, 7)] None empty_heartbeat.

End Demo.

(** ** Reading the executable resolver *)

Definition chromium_not_found : JsError :=
  Error "Chromium not found, please specify Chromium executable path in the settings page.".

Definition chromium_not_allowed : JsError :=
  Error "This Chromium executable path is not allowed by default. If you are sure this is safe, please add an environment variable UPTIME_KUMA_ALLOW_ALL_CHROME_EXEC=1 to allow it.".

Definition installing_chromium : JsError := Error "Installing Chromium, please wait...".

(** The history after [commandExists] has been asked about each of
    [candidates] in turn. *)
Definition probed (candidates : list string) (t : history) : history :=
  (rev (map EvCommandExists candidates) ++ t)%list.

(** Every candidate of the list was answered "no" when it was asked, the
    probes starting from history [t]. *)
Definition all_missing (env : Env) (candidates : list string) (t : history) : Prop :=
  forall before q after,
    candidates = (before ++ q :: after)%list ->
    commandExists env (EvCommandExists q :: probed before t) = Ok false.

(** The override that lets any executable path through. *)
Definition allow_all (env : Env) : bool :=
  allow_all_chrome_exec env || env_is env "UPTIME_KUMA_ALLOW_ALL_CHROME_EXEC" "1".

(** The cached auto-detected executable, if any, is a candidate of the
    allow-list. *)
Definition detected_is_allowed (env : Env) (w : World) : Prop :=
  forall l, lastAutoDetectChromeExecutable w = Some l -> In l (allowedList env).

Definition is_probe (ev : event) : bool :=
  match ev with EvCommandExists _ => true | _ => false end.
Definition is_apt (ev : event) : bool :=
  match ev with EvAptInstall => true | _ => false end.
Definition is_launch (ev : event) : bool :=
  match ev with EvLaunch _ => true | _ => false end.

(** [m] leaves the part [f] of the world as it found it. *)
Definition keeps {A B} (f : World -> B) (m : M A) : Prop :=
  forall w, f (snd (m w)) = f w.

(** ** Reading strings *)

(** The character [c] occurs in [s]. *)
Fixpoint occurs (c : ascii) (s : string) : bool :=
  match s with
  | EmptyString => false
  | String x s' => Ascii.eqb c x || occurs c s'
  end.

(** ** Reading the navigation budgets *)


(** A budget of at least one second, or NaN. *)
Definition budget_ok (t : number) : bool := Num.is_nan t || Num.ge t (Num.of_Z 1000).

(** A [page.goto] call whose budget is a number below one second. *)
Definition is_short_goto (ev : event) : bool :=
  match ev with
  | EvGoto _ _ _ timeout => negb (budget_ok timeout)
  | _ => false
  end.

(** ** Reading the mode of a check *)

(** The calls that only the challenge-aware mode makes: the init script, the
    extra headers, the page inspection and the wait, a context with a user
    agent, a locale or a viewport, and a launch that asks for a headed
    browser or passes flags. *)
Definition is_challenge_event (ev : event) : bool :=
  match ev with
  | EvAddInitScript _ | EvSetExtraHTTPHeaders _ _ _ | EvEvaluate _ | EvWaitForFunction _ _ _ => true
  | EvNewContext _ o =>
      match userAgent o, locale o, viewport o with
      | None, None, None => false
      | _, _, _ => true
      end
  | EvLaunch o =>
      match headless o, args o with
      | None, [] => false
      | _, _ => true
      end
  | _ => false
  end.

(** A [page.goto] call that waits for the network to be idle. *)
Definition is_idle_goto (ev : event) : bool :=
  match ev with
  | EvGoto _ _ networkidle _ => true
  | _ => false
  end.

(** ** Reading the heartbeat *)

(** The heartbeat reports "up" for some response whose status is in
    [200, 400). *)
Definition reports_up (w : World) : Prop :=
  exists res,
    heartbeat w = mkHeartbeat (Some UP) (Some (status res)) (Some (responseEnd res))
    /\ 200 <= status res < 400.

(** [m] writes the heartbeat only when it returns, and then it reports "up". *)
Definition heartbeat_on_success {A} (m : M A) : Prop :=
  forall w,
    match m w with
    | (Ok _, w') => reports_up w'
    | (Err _, w') => heartbeat w' = heartbeat w
    end.

(** ** More concrete environments *)

Module Lab.

Definition with_commandExists (f : history -> Res bool) (e : Env) : Env :=
  mkEnv (platform e) (getenv e) (allow_all_chrome_exec e) (toLowerCase e)
    (toLocaleLowerCase e) (screenshotDir e)
    (URL_protocol e) (jwt_sign e) (path_join e) (isConnected e) (browser_version e)
    (Settings_get e) f (apt_exit_code e) (exec_version e)
    (chromium_launch e) (chromium_connect e) (browser_close e) (RemoteBrowser_get e)
    (browser_newContext e) (context_addInitScript e) (context_newPage e)
    (page_setExtraHTTPHeaders e) (page_goto e) (page_evaluate e) (page_waitForFunction e)
    (page_waitForTimeout e) (page_screenshot e) (context_close e).

Definition with_getenv (f : string -> option string) (e : Env) : Env :=
  mkEnv (platform e) f (allow_all_chrome_exec e) (toLowerCase e)
    (toLocaleLowerCase e) (screenshotDir e)
    (URL_protocol e) (jwt_sign e) (path_join e) (isConnected e) (browser_version e)
    (Settings_get e) (commandExists e) (apt_exit_code e) (exec_version e)
    (chromium_launch e) (chromium_connect e) (browser_close e) (RemoteBrowser_get e)
    (browser_newContext e) (context_addInitScript e) (context_newPage e)
    (page_setExtraHTTPHeaders e) (page_goto e) (page_evaluate e) (page_waitForFunction e)
    (page_waitForTimeout e) (page_screenshot e) (context_close e).

Definition with_apt (f : history -> option Z) (e : Env) : Env :=
  mkEnv (platform e) (getenv e) (allow_all_chrome_exec e) (toLowerCase e)
    (toLocaleLowerCase e) (screenshotDir e)
    (URL_protocol e) (jwt_sign e) (path_join e) (isConnected e) (browser_version e)
    (Settings_get e) (commandExists e) f (exec_version e)
    (chromium_launch e) (chromium_connect e) (browser_close e) (RemoteBrowser_get e)
    (browser_newContext e) (context_addInitScript e) (context_newPage e)
    (page_setExtraHTTPHeaders e) (page_goto e) (page_evaluate e) (page_waitForFunction e)
    (page_waitForTimeout e) (page_screenshot e) (context_close e).

Definition with_launch (f : history -> Res unit) (e : Env) : Env :=
  mkEnv (platform e) (getenv e) (allow_all_chrome_exec e) (toLowerCase e)
    (toLocaleLowerCase e) (screenshotDir e)
    (URL_protocol e) (jwt_sign e) (path_join e) (isConnected e) (browser_version e)
    (Settings_get e) (commandExists e) (apt_exit_code e) (exec_version e)
    f (chromium_connect e) (browser_close e) (RemoteBrowser_get e)
    (browser_newContext e) (context_addInitScript e) (context_newPage e)
    (page_setExtraHTTPHeaders e) (page_goto e) (page_evaluate e) (page_waitForFunction e)
    (page_waitForTimeout e) (page_screenshot e) (context_close e).

Definition with_connect (f : history -> Res unit) (e : Env) : Env :=
  mkEnv (platform e) (getenv e) (allow_all_chrome_exec e) (toLowerCase e)
    (toLocaleLowerCase e) (screenshotDir e)
    (URL_protocol e) (jwt_sign e) (path_join e) (isConnected e) (browser_version e)
    (Settings_get e) (commandExists e) (apt_exit_code e) (exec_version e)
    (chromium_launch e) f (browser_close e) (RemoteBrowser_get e)
    (browser_newContext e) (context_addInitScript e) (context_newPage e)
    (page_setExtraHTTPHeaders e) (page_goto e) (page_evaluate e) (page_waitForFunction e)
    (page_waitForTimeout e) (page_screenshot e) (context_close e).

Definition with_settings (f : history -> Res (option string)) (e : Env) : Env :=
  mkEnv (platform e) (getenv e) (allow_all_chrome_exec e) (toLowerCase e)
    (toLocaleLowerCase e) (screenshotDir e)
    (URL_protocol e) (jwt_sign e) (path_join e) (isConnected e) (browser_version e)
    f (commandExists e) (apt_exit_code e) (exec_version e)
    (chromium_launch e) (chromium_connect e) (browser_close e) (RemoteBrowser_get e)
    (browser_newContext e) (context_addInitScript e) (context_newPage e)
    (page_setExtraHTTPHeaders e) (page_goto e) (page_evaluate e) (page_waitForFunction e)
    (page_waitForTimeout e) (page_screenshot e) (context_close e).

Definition with_platform (name : string) (e : Env) : Env :=
  mkEnv name (getenv e) (allow_all_chrome_exec e) (toLowerCase e)
    (toLocaleLowerCase e) (screenshotDir e)
    (URL_protocol e) (jwt_sign e) (path_join e) (isConnected e) (browser_version e)
    (Settings_get e) (commandExists e) (apt_exit_code e) (exec_version e)
    (chromium_launch e) (chromium_connect e) (browser_close e) (RemoteBrowser_get e)
    (browser_newContext e) (context_addInitScript e) (context_newPage e)
    (page_setExtraHTTPHeaders e) (page_goto e) (page_evaluate e) (page_waitForFunction e)
    (page_waitForTimeout e) (page_screenshot e) (context_close e).

Definition with_toLocaleLowerCase (f : string -> string) (e : Env) : Env :=
  mkEnv (platform e) (getenv e) (allow_all_chrome_exec e) (toLowerCase e)
    f (screenshotDir e)
    (URL_protocol e) (jwt_sign e) (path_join e) (isConnected e) (browser_version e)
    (Settings_get e) (commandExists e) (apt_exit_code e) (exec_version e)
    (chromium_launch e) (chromium_connect e) (browser_close e) (RemoteBrowser_get e)
    (browser_newContext e) (context_addInitScript e) (context_newPage e)
    (page_setExtraHTTPHeaders e) (page_goto e) (page_evaluate e) (page_waitForFunction e)
    (page_waitForTimeout e) (page_screenshot e) (context_close e).

(** Locale lower-casing of ASCII text in a Turkish process: the capital I
    becomes the dotless small i (U+0131, two bytes in UTF-8). *)
Fixpoint turkish_lower (s : string) : string :=
  match s with
  | EmptyString => EmptyString
  | String c s' =>
      if Ascii.eqb c "I"
      then String (ascii_of_nat 196) (String (ascii_of_nat 177) (turkish_lower s'))
      else String (Str.lower_ascii c) (turkish_lower s')
  end.

(** A process whose locale is Turkish. *)
Definition turkish : Env := with_toLocaleLowerCase turkish_lower Demo.calm.

(** The command asked about by the call at the head of a history. *)
Definition asked (t : history) : string :=
  match t with EvCommandExists c :: _ => c | _ => "" end.

(** A Linux host where only [google-chrome] is installed. *)
Definition only_google_chrome : Env :=
  with_commandExists (fun t => Ok (String.eqb (asked t) "google-chrome")) Demo.calm.

(** A host with no browser at all. *)
Definition no_browser : Env := with_commandExists (fun _ => Ok false) Demo.calm.

(** A container without the browser, where [apt] is still busy. *)
Definition installing : Env :=
  with_apt (fun _ => Some 100)
    (with_getenv (fun v => if String.eqb v "UPTIME_KUMA_IS_CONTAINER" then Some "1" else None)
       no_browser).

(** A host without a display: a launch that asks for a headed browser
    throws. *)
Definition no_display_error : JsError :=
  mkError "Error" "browserType.launch: Missing X server or $DISPLAY".
Definition no_display : Env :=
  with_launch (fun t => match t with
                        | EvLaunch o :: _ =>
                            match headless o with Some false => Err no_display_error | _ => Ok tt end
                        | _ => Ok tt
                        end) Demo.calm.

(** Closing browser 1 throws, closing any other browser works. *)
Definition second_close_throws : Env :=
  Demo.with_browser_close
    (fun t => match t with
              | EvBrowserClose 1%nat :: _ => Err Demo.close_failed
              | _ => Ok tt
              end) Demo.calm.


(** A Windows host with none of the three directory variables set. *)
Definition bare_windows : Env := with_platform "win32" Demo.calm.

(** A monitor that names remote browser 9, which has no record. *)
Definition orphan : Monitor :=
  mkMonitor 6 "orphan" "https://example.com" None (Some 9) 1 (Num.of_Z 60) (Num.of_Z 0) false.

(** The remote endpoint refuses connections. *)
Definition unreachable : Env := with_connect (fun _ => Err Demo.refused) Demo.calm.

End Lab.

(** * Values of the language

    The Minecraft monitor and the entry page read values parsed from JSON.
    They are a datatype of their own here. *)

Module Js.

#[warnings="-register-all"]
Inductive JsVal : Type :=
| JUndefined
| JNull
| JBool (b : bool)
| JNum (n : number)
| JStr (s : string)
| JArr (items : list JsVal)
| JObj (fields : list (string * JsVal)).

(** Truthiness. *)
Definition truthy (v : JsVal) : bool :=
  match v with
  | JUndefined | JNull => false
  | JBool b => b
  | JNum (S754_zero _) | JNum S754_nan => false
  | JNum _ => true
  | JStr s => negb (String.eqb s "")
  | JArr _ | JObj _ => true
  end.

(** [a || b] *)
Definition or (a b : JsVal) : JsVal := if truthy a then a else b.

Fixpoint lookup (key : string) (fields : list (string * JsVal)) : JsVal :=
  match fields with
  | [] => JUndefined
  | (k, v) :: rest => if String.eqb k key then v else lookup key rest
  end.

(** [v?.key], for the keys the two modules read: none of them is a property
    of a string, a number, a boolean or an array. *)
Definition get (v : JsVal) (key : string) : JsVal :=
  match v with
  | JObj fields => lookup key fields
  | _ => JUndefined
  end.

(** [v === s] for a string literal [s]. *)
Definition is_string (v : JsVal) (s : string) : bool :=
  match v with
  | JStr s' => String.eqb s' s
  | _ => false
  end.

(** [Number.isFinite(v)] *)
Definition isFinite (v : JsVal) : bool :=
  match v with
  | JNum (S754_zero _) | JNum (S754_finite _ _ _) => true
  | _ => false
  end.

(** [parts.join(sep)] on strings. *)
Fixpoint join (sep : string) (parts : list string) : string :=
  match parts with
  | [] => ""
  | [part] => part
  | part :: rest => part ++ sep ++ join sep rest
  end.

End Js.

(** * The Minecraft monitor

    [MinecraftMonitorType] makes one call to the status library and fills in
    the heartbeat from the answer.  [trim] and the decimal form of a number
    are functions of the runtime. *)

Module Minecraft.

Import Js.

(** The call made to the status library. *)
Inductive Call : Type :=
| StatusBedrock (hostname : JsVal) (port : JsVal)
| StatusJava (hostname : JsVal) (port : JsVal) (query : bool).

Record Env : Type := mkEnv {
  trim : string -> string;                 (* [String.prototype.trim] *)
  number_to_string : number -> string;     (* the decimal form of a number *)
  mcs : Call -> Res JsVal                  (* [mcs.statusBedrock], [mcs.statusJava] *)
}.

Record Monitor : Type := mkMonitor {
  subtype : JsVal;
  hostname : JsVal;
  port : JsVal
}.

Record Heartbeat : Type := mkHeartbeat {
  status : option Status;
  msg : option string;
  ping : option number
}.

(** The call [check] makes: edition and port are chosen first. *)
Definition probe (monitor : Monitor) : Call :=
  let bedrock := is_string (subtype monitor) "bedrock" in
  let port := or (port monitor) (JNum (Num.of_Z (if bedrock then 19132 else 25565))) in
  if bedrock then StatusBedrock (hostname monitor) port
  else StatusJava (hostname monitor) port true.

Section Check.

Context (env : Env).

(** The string a value becomes in a template literal. *)
Fixpoint to_string (v : JsVal) : string :=
  match v with
  | JUndefined => "undefined"
  | JNull => "null"
  | JBool true => "true"
  | JBool false => "false"
  | JNum n => number_to_string env n
  | JStr s => s
  | JArr items =>
      join "," (map (fun item => match item with
                                 | JUndefined | JNull => ""
                                 | _ => to_string item
                                 end) items)
  | JObj _ => "[object Object]"
  end.

(** [items.join(sep)] on an array of values. *)
Definition array_join (sep : string) (items : list JsVal) : string :=
  join sep (map (fun item => match item with
                             | JUndefined | JNull => ""
                             | _ => to_string item
                             end) items).

Definition getMOTD (result : JsVal) : string :=
  let motd := get result "motd" in
  if negb (truthy motd) then ""
  else
    match motd with
    | JStr s => trim env s
    | _ =>
        match get motd "clean" with
        | JStr clean => trim env clean
        | JArr clean => trim env (array_join " " clean)
        | _ =>
            match get motd "raw" with
            | JStr raw => trim env raw
            | _ => ""
            end
        end
    end.

(** The entries pushed to [messageParts], in order. *)
Definition messageParts (result : JsVal) : list string :=
  let version :=
    or (or (get (get result "version") "name_clean") (get (get result "version") "name"))
       (get result "version") in
  let playersOnline := get (get result "players") "online" in
  let playersMax := get (get result "players") "max" in
  let motd := getMOTD result in
  (if truthy version then ["Version: " ++ to_string version] else [])
  ++ (if isFinite playersOnline && isFinite playersMax
      then ["Players: " ++ to_string playersOnline ++ "/" ++ to_string playersMax]
      else [])
  ++ (if negb (String.eqb motd "") then ["MOTD: " ++ motd] else []).

(** [check]: the heartbeat is the object passed in; the result pairs the
    outcome with the heartbeat as the function leaves it. *)
Definition check (monitor : Monitor) (heartbeat : Heartbeat) : Res unit * Heartbeat :=
  match mcs env (probe monitor) with
  | Err error => (Err (Error ("Minecraft check failed: " ++ err_message error)), heartbeat)
  | Ok result =>
      if negb (truthy (get result "online"))
      then (Err (Error "Minecraft server is offline"), heartbeat)
      else
        let latency := get result "latency" in
        let ping' :=
          match latency with
          | JNum n => if isFinite latency then Some n else ping heartbeat
          | _ => ping heartbeat
          end in
        let joined := join " | " (messageParts result) in
        let msg' := if String.eqb joined "" then "Online" else joined in
        (Ok tt, mkHeartbeat (Some UP) (Some msg') ping')
  end.

End Check.

(** ** Concrete servers *)

(** The decimal form of a number, for the integers below 2^53. *)
Definition decimal (n : number) : string :=
  match n with
  | S754_zero _ => "0"
  | S754_finite s m e =>
      let digits := if 0 <=? e then pretty (Z.pos m * 2 ^ e) else pretty (Z.pos m / 2 ^ (- e)) in
      if s then "-" ++ digits else digits
  | S754_infinity s => if s then "-Infinity" else "Infinity"
  | S754_nan => "NaN"
  end.

(** A Java status: version 1.20.4, 3 of 20 players, a message of the day
    and a latency of 42 ms. *)
Definition java_status : JsVal :=
  JObj [ ("online", JBool true);
         ("version", JObj [ ("name_clean", JStr "1.20.4") ]);
         ("players", JObj [ ("online", JNum (Num.of_Z 3)); ("max", JNum (Num.of_Z 20)) ]);
         ("motd", JObj [ ("clean", JStr "A server") ]);
         ("latency", JNum (Num.of_Z 42)) ].

Definition answering (answer : Res JsVal) : Env := mkEnv (fun s => s) decimal (fun _ => answer).

Definition java_monitor : Monitor := mkMonitor (JStr "java") (JStr "mc.example.com") JNull.

(** A heartbeat that already holds a ping. *)
Definition stale : Heartbeat := mkHeartbeat None None (Some (Num.of_Z 7)).

End Minecraft.

(** * The entry page

    [mounted] of [Entry.vue] asks the backend what the entry page is and
    routes accordingly.  What it does to the component and to the router is
    returned as a list of actions, in order. *)

Module Entry.

Import Js.

Inductive Action : Type :=
| SetStatusPageSlug (slug : JsVal)        (* [this.statusPageSlug = ...] *)
| ForceStatusPageTheme                    (* [this.$root.forceStatusPageTheme = true] *)
| RouterPush (path : string)              (* [this.$router.push(path)] *)
| RouterReplace (path : string)           (* [this.$router.replace(path)] *)
| Alert (message : string).               (* [alert(message)] *)

(** What follows [needle] at the start of [s], if [s] starts with it. *)
Fixpoint strip_prefix (needle s : string) : option string :=
  match needle, s with
  | EmptyString, _ => Some s
  | String a needle', String b s' => if Ascii.eqb a b then strip_prefix needle' s' else None
  | String _ _, EmptyString => None
  end.

(** [s.replace(needle, ...)] with an empty replacement: the first occurrence
    of [needle] is removed. *)
Fixpoint remove_first (needle s : string) : string :=
  match strip_prefix needle s with
  | Some rest => rest
  | None =>
      match s with
      | EmptyString => EmptyString
      | String c s' => String c (remove_first needle s')
      end
  end.

Definition backend_down : string :=
  "Cannot connect to the backend server. Did you start the backend server? (npm run start-server-dev)".

(** The body of the [try] block; [None] stands for a [TypeError]. *)
Definition route (pathname : string) (res : JsVal) : option (list Action) :=
  match res with
  | JUndefined | JNull => None
  | _ =>
      let type := get res "type" in
      if is_string type "statusPageMatchedDomain" then
        Some [SetStatusPageSlug (get res "statusPageSlug"); ForceStatusPageTheme]
      else if is_string type "entryPage" then
        if negb (String.eqb pathname "/") then Some [RouterReplace "/page-not-found"]
        else
          match get res "entryPage" with
          | JUndefined | JNull => Some [RouterPush "/dashboard"]
          | JStr entryPage =>
              if String.prefix "statusPage-" entryPage
              then Some [RouterPush ("/status/" ++ remove_first "statusPage-" entryPage)]
              else Some [RouterPush "/dashboard"]
          | _ => None
          end
      else if is_string type "setup-database" then Some [RouterPush "/setup-database"]
      else if String.eqb pathname "/" then Some [RouterPush "/dashboard"]
      else Some [RouterReplace "/page-not-found"]
  end.

(** [mounted]: [location] is [window.location.pathname] and [axios_get]
    answers the request made with the path name as parameter. *)
Definition mounted (location : string) (axios_get : string -> Res JsVal) : list Action :=
  let pathname := if String.eqb location "" then "/" else location in
  match axios_get pathname with
  | Err _ => [Alert backend_down]
  | Ok res =>
      match route pathname res with
      | Some actions => actions
      | None => [Alert backend_down]
      end
  end.

End Entry.

(** * Properties *)

Local Open Scope list_scope.

(** ** Running computations *)

Lemma bind_ok {A B} (m : M A) (k : A -> M B) w a w' :
  m w = (Ok a, w') -> (m ≫= k) w = k a w'.
Proof. intros H. unfold mbind, M_bind, bind. now rewrite H. Qed.

Lemma bind_err {A B} (m : M A) (k : A -> M B) w e w' :
  m w = (Err e, w') -> (m ≫= k) w = (Err e, w').
Proof. intros H. unfold mbind, M_bind, bind. now rewrite H. Qed.


Lemma try_catch_err {A} (m : M A) h w e w' :
  m w = (Err e, w') -> try_catch m h w = h e w'.
Proof. intros H. unfold try_catch. now rewrite H. Qed.

Lemma ignore_errors_ok (m : M unit) w :
  ignore_errors m w = (Ok tt, snd (m w)).
Proof. unfold ignore_errors, try_catch, ret. destruct (m w) as [[[]|e] w']; reflexivity. Qed.

(** Unfold the monad down to functions on worlds. *)
Ltac run :=
  unfold ignore_errors in *;
  unfold mbind, M_bind, mret, M_ret, bind, ret, throw, try_catch, try_finally,
    get, modify, call, new_object, lift in *;
  cbn [fst snd trace next_object localBrowser localCloudflareBrowser
       remoteBrowserConnections observers lastAutoDetectChromeExecutable heartbeat
       set_trace set_next_object set_localBrowser set_localCloudflareBrowser
       set_remoteBrowserConnections set_observers set_lastAutoDetectChromeExecutable
       set_heartbeat] in *.

(** Project fields out of updated worlds. *)
Ltac tidy :=
  cbn [fst snd trace next_object localBrowser localCloudflareBrowser
       remoteBrowserConnections observers lastAutoDetectChromeExecutable heartbeat
       set_trace set_next_object set_localBrowser set_localCloudflareBrowser
       set_remoteBrowserConnections set_observers set_lastAutoDetectChromeExecutable
       set_heartbeat] in *.

(** ** Counting calls *)

Lemma count_app f (l1 l2 : history) : count f (l1 ++ l2) = (count f l1 + count f l2)%nat.
Proof. induction l1 as [|ev l1 IH]; simpl; [reflexivity | rewrite IH; lia]. Qed.

Section CallsAtMost.

Context {A : Type} (f : event -> bool).

Lemma calls_weaken n n' (m : M A) :
  (n <= n')%nat -> calls_at_most f n m -> calls_at_most f n' m.
Proof. intros Hn H w. destruct (H w) as (evs & Ht & Hc). exists evs. split; [assumption | lia]. Qed.

Lemma calls_ret (a : A) : calls_at_most f 0 (mret a).
Proof. intros w. exists []. split; [reflexivity | simpl; lia]. Qed.

Lemma calls_throw e : calls_at_most f 0 (@throw A e).
Proof. intros w. exists []. split; [reflexivity | simpl; lia]. Qed.

Lemma calls_lift (r : Res A) : calls_at_most f 0 (lift r).
Proof. intros w. exists []. split; [reflexivity | simpl; lia]. Qed.

Lemma calls_get (g : World -> A) : calls_at_most f 0 (get g).
Proof. intros w. exists []. split; [reflexivity | simpl; lia]. Qed.

Lemma calls_call_other ev (o : history -> Res A) :
  f ev = false -> calls_at_most f 0 (call ev o).
Proof. intros Hf w. exists [ev]. split; [reflexivity | simpl; rewrite Hf; lia]. Qed.

Lemma calls_call ev (o : history -> Res A) : calls_at_most f 1 (call ev o).
Proof. intros w. exists [ev]. split; [reflexivity | simpl; destruct (f ev); lia]. Qed.

Lemma calls_try_catch n n' (m : M A) h :
  calls_at_most f n m -> (forall e, calls_at_most f n' (h e)) ->
  calls_at_most f (n + n') (try_catch m h).
Proof.
  intros Hm Hh w. unfold try_catch.
  destruct (Hm w) as (evs & Ht & Hc). destruct (m w) as [[a|e] w1]; simpl in *.
  - exists evs. split; [assumption | lia].
  - destruct (Hh e w1) as (evs' & Ht' & Hc'). exists (evs' ++ evs)%list.
    rewrite Ht', Ht, count_app, <- app_assoc. split; [reflexivity | lia].
Qed.

Lemma calls_try_finally n n' (m : M A) (cleanup : M unit) :
  calls_at_most f n m -> calls_at_most f n' cleanup ->
  calls_at_most f (n + n') (try_finally m cleanup).
Proof.
  intros Hm Hc w. unfold try_finally.
  destruct (Hm w) as (evs & Ht & Hn). destruct (m w) as [r w1]; simpl in *.
  destruct (Hc w1) as (evs' & Ht' & Hn'). exists (evs' ++ evs)%list.
  destruct (cleanup w1) as [[u|e] w2]; simpl in *;
    rewrite Ht', Ht, count_app, <- app_assoc; (split; [reflexivity | lia]).
Qed.

End CallsAtMost.

Lemma calls_modify f (g : World -> World) :
  (forall w, trace (g w) = trace w) -> calls_at_most f 0 (modify g).
Proof. intros Hg w. exists []. split; [apply Hg | simpl; lia]. Qed.

Lemma calls_new_object f : calls_at_most f 0 new_object.
Proof. intros w. exists []. split; [reflexivity | simpl; lia]. Qed.

Lemma calls_bind {A B} f n n' (m : M A) (k : A -> M B) :
  calls_at_most f n m -> (forall a, calls_at_most f n' (k a)) ->
  calls_at_most f (n + n') (m ≫= k).
Proof.
  intros Hm Hk w. unfold mbind, M_bind, bind.
  destruct (Hm w) as (evs & Ht & Hc). destruct (m w) as [[a|e] w1]; simpl in *.
  - destruct (Hk a w1) as (evs' & Ht' & Hc'). exists (evs' ++ evs)%list.
    rewrite Ht', Ht, count_app, <- app_assoc. split; [reflexivity | lia].
  - exists evs. split; [assumption | lia].
Qed.

Lemma calls_ignore_errors f n (m : M unit) :
  calls_at_most f n m -> calls_at_most f n (ignore_errors m).
Proof.
  intros Hm. unfold ignore_errors.
  replace n with (n + 0)%nat by lia. apply calls_try_catch; [assumption | intros; apply calls_ret].
Qed.

(** A computation that makes no call of kind [f]. *)
Lemma silent_bind {A B} f (m : M A) (k : A -> M B) :
  calls_at_most f 0 m -> (forall a, calls_at_most f 0 (k a)) -> calls_at_most f 0 (m ≫= k).
Proof. intros. change 0%nat with (0 + 0)%nat. now apply calls_bind. Qed.

Lemma silent_try_catch {A} f (m : M A) h :
  calls_at_most f 0 m -> (forall e, calls_at_most f 0 (h e)) -> calls_at_most f 0 (try_catch m h).
Proof. intros. change 0%nat with (0 + 0)%nat. now apply calls_try_catch. Qed.

(** Once the head of a sequence always throws, the rest makes no call. *)
Lemma calls_bind_fails {A B} f n (m : M A) (k : A -> M B) :
  fails m -> calls_at_most f n m -> calls_at_most f n (m ≫= k).
Proof.
  intros Hf Hm w. unfold mbind, M_bind, bind.
  destruct (Hf w) as (e & He). destruct (Hm w) as (evs & Ht & Hc).
  destruct (m w) as [[a|e'] w1]; simpl in *; [discriminate |].
  exists evs. split; assumption.
Qed.

Ltac silent :=
  repeat first
    [ progress intros
    | apply silent_bind
    | apply silent_try_catch
    | apply calls_ignore_errors
    | apply calls_ret
    | apply calls_throw
    | apply calls_lift
    | apply calls_get
    | apply calls_new_object
    | apply calls_modify; intros []; reflexivity
    | apply calls_call_other; reflexivity
    | match goal with
      | |- calls_at_most _ _ (if ?c then _ else _) => destruct c
      | |- calls_at_most _ _ (match ?o with Some _ => _ | None => _ end) => destruct o
      | |- calls_at_most _ _ (match ?o with Ok _ => _ | Err _ => _ end) => destruct o
      | |- calls_at_most _ _ (match ?o with [] => _ | _ :: _ => _ end) => destruct o
      end ].

(** ** Failing computations *)

Lemma fails_throw {A} e : fails (@throw A e).
Proof. intros w. exists e. reflexivity. Qed.

Lemma fails_bind_l {A B} (m : M A) (k : A -> M B) : fails m -> fails (m ≫= k).
Proof.
  intros Hm w. destruct (Hm w) as (e & He). unfold mbind, M_bind, bind.
  destruct (m w) as [[a|e'] w1]; simpl in *; [discriminate | eauto].
Qed.

Lemma fails_bind_r {A B} (m : M A) (k : A -> M B) : (forall a, fails (k a)) -> fails (m ≫= k).
Proof.
  intros Hk w. unfold mbind, M_bind, bind.
  destruct (m w) as [[a|e'] w1]; simpl; [apply Hk | eauto].
Qed.

Lemma fails_try_finally {A} (m : M A) cleanup : fails m -> fails (try_finally m cleanup).
Proof.
  intros Hm w. destruct (Hm w) as (e & He). unfold try_finally.
  destruct (m w) as [r w1]; simpl in *. subst r.
  destruct (cleanup w1) as [[u|e'] w2]; simpl; eauto.
Qed.

Lemma fails_try_catch {A} (m : M A) h : fails m -> (forall e, fails (h e)) -> fails (try_catch m h).
Proof.
  intros Hm Hh w. destruct (Hm w) as (e & He). unfold try_catch.
  destruct (m w) as [[a|e'] w1]; simpl in *; [discriminate | apply Hh].
Qed.

(** ** Plain-mode navigation *)

Lemma isNavigationTimeoutError_spec error :
  isNavigationTimeoutError error = true <->
  err_name error = "TimeoutError"
  \/ Str.includes (err_message error) "Timeout" = true
  \/ Str.includes (err_message error) "timed out" = true.
Proof.
  unfold isNavigationTimeoutError. rewrite !orb_true_iff, String.eqb_eq. tauto.
Qed.

(** What plain navigation does, by the answer of its first load. *)
Lemma navigate_plain_run env monitor p timeout w :
  let first := EvGoto p (url monitor) networkidle timeout :: trace w in
  let second := EvGoto p (url monitor) domcontentloaded (fallbackTimeout timeout) :: first in
  match page_goto env first with
  | Ok res => navigate_plain env monitor p timeout w = (Ok res, set_trace first w)
  | Err error =>
      if isNavigationTimeoutError error
      then navigate_plain env monitor p timeout w = (page_goto env second, set_trace second w)
      else navigate_plain env monitor p timeout w = (Err error, set_trace first w)
  end.
Proof.
  intros first second. unfold navigate_plain, goto. run. fold first.
  destruct (page_goto env first) as [res|error]; [reflexivity |].
  destruct (isNavigationTimeoutError error); reflexivity.
Qed.

(** C4. Plain-mode navigation loads once with "networkidle" at the full
    budget.  A response (or a null response) is returned as it is.  An error
    classified as a timeout (name [TimeoutError], or a message containing
    "Timeout" or "timed out") leads to exactly one more load, with
    "domcontentloaded" and [Math.max(1000, Math.floor(timeout * 0.6))]
    milliseconds, whose outcome is the outcome of the navigation.  Any other
    error is rethrown at once, with no second load. *)
Theorem plain_navigation_fallback env monitor p timeout w :
  let first := EvGoto p (url monitor) networkidle timeout :: trace w in
  let budget := Num.max (Num.of_Z 1000) (Num.floor (Num.mul timeout Num.lit_0_6)) in
  let second := EvGoto p (url monitor) domcontentloaded budget :: first in
  (isCloudflareMode monitor = false ->
   navigate env monitor p timeout = navigate_plain env monitor p timeout)
  /\ match page_goto env first with
     | Ok res => navigate_plain env monitor p timeout w = (Ok res, set_trace first w)
     | Err error =>
         (isNavigationTimeoutError error = true <->
            err_name error = "TimeoutError"
            \/ Str.includes (err_message error) "Timeout" = true
            \/ Str.includes (err_message error) "timed out" = true)
         /\ if isNavigationTimeoutError error
            then navigate_plain env monitor p timeout w = (page_goto env second, set_trace second w)
            else navigate_plain env monitor p timeout w = (Err error, set_trace first w)
     end.
Proof.
  intros first budget second. split.
  - intros Hmode. unfold navigate. now rewrite Hmode.
  - pose proof (navigate_plain_run env monitor p timeout w) as Hrun. cbv zeta in Hrun.
    fold first in Hrun. unfold fallbackTimeout in Hrun. fold budget in Hrun. fold second in Hrun.
    destruct (page_goto env first) as [res|error]; [exact Hrun |].
    split; [apply isNavigationTimeoutError_spec | exact Hrun].
Qed.



(** With a first load that times out, the navigation of the plain monitor is
    the plain navigation and returns what the fallback load returns, after
    two loads, the second with "domcontentloaded" and 28800 ms. *)
Lemma plain_navigation_fallback_witness :
  let timeout := Num.of_Z 48000 in
  isCloudflareMode Demo.plain = false
  /\ navigate Demo.never_idle Demo.plain 2%nat timeout Demo.cold
     = (Ok (Some Demo.ok200),
        set_trace [ EvGoto 2%nat "https://example.com" domcontentloaded (Num.of_Z 28800);
                    EvGoto 2%nat "https://example.com" networkidle timeout ] Demo.cold).
Proof.
  intros timeout. split; [reflexivity |].
  destruct (plain_navigation_fallback Demo.never_idle Demo.plain 2%nat timeout Demo.cold)
    as [Hplain Hnav].
  rewrite (Hplain eq_refl). cbv zeta in Hnav.
  remember (page_goto Demo.never_idle
              (EvGoto 2%nat (url Demo.plain) networkidle timeout :: trace Demo.cold))
    as first eqn:Hfirst in Hnav.
  vm_compute in Hfirst. subst first. cbv iota beta in Hnav.
  destruct Hnav as [_ Hnav].
  change (isNavigationTimeoutError _) with true in Hnav.
  cbv iota in Hnav. rewrite Hnav. vm_compute. reflexivity.
Defined.

(** The decimal literals are the doubles nearest to 6/10, 7/10 and 8/10. *)
Example literals :
  SFdiv Num.prec Num.emax (Num.of_Z 6) (Num.of_Z 10) = Num.lit_0_6
  /\ SFdiv Num.prec Num.emax (Num.of_Z 7) (Num.of_Z 10) = Num.lit_0_7
  /\ SFdiv Num.prec Num.emax (Num.of_Z 8) (Num.of_Z 10) = Num.lit_0_8.
Proof. vm_compute. repeat split. Qed.

(** The budgets of a monitor probing every 60, 20 and 1 seconds. *)
Example budgets :
  (check_timeout Demo.plain = Num.of_Z 48000
   /\ fallbackTimeout (Num.of_Z 48000) = Num.of_Z 28800
   /\ verifyTimeout (Num.of_Z 48000) = Num.of_Z 28800
   /\ waitTimeout (Num.of_Z 48000) = Num.of_Z 20000)
  /\ (Num.max (Num.of_Z 1000) (Num.floor (Num.mul (Num.mul (Num.of_Z 20) (Num.of_Z 1000)) Num.lit_0_8))
      = Num.of_Z 16000
      /\ fallbackTimeout (Num.of_Z 16000) = Num.of_Z 9600
      /\ verifyTimeout (Num.of_Z 16000) = Num.of_Z 9600
      /\ waitTimeout (Num.of_Z 16000) = Num.of_Z 11200)
  /\ (Num.max (Num.of_Z 1000) (Num.floor (Num.mul (Num.mul (Num.of_Z 1) (Num.of_Z 1000)) Num.lit_0_8))
      = Num.of_Z 1000
      /\ fallbackTimeout (Num.of_Z 1000) = Num.of_Z 1000
      /\ verifyTimeout (Num.of_Z 1000) = Num.of_Z 3000
      /\ waitTimeout (Num.of_Z 1000) = Num.of_Z 3000).
Proof. vm_compute. repeat split. Qed.

(** The products are products of doubles: 5200 * 0.7 is
    3639.9999999999995, so the wait window of a 5200 ms budget is 3639. *)
Example window_of_5200 : waitTimeout (Num.of_Z 5200) = Num.of_Z 3639.
Proof. vm_compute. reflexivity. Qed.

(** A first load that times out is followed by one fallback load; a refused
    load is not. *)
Example plain_navigation_runs :
  let slow := check Demo.never_idle Demo.plain Demo.server Demo.cold in
  let refused := check Demo.refuses Demo.plain Demo.server Demo.cold in
  (fst slow = Ok tt /\ count is_goto (trace (snd slow)) = 2%nat)
  /\ (fst refused = Err Demo.refused /\ count is_goto (trace (snd refused)) = 1%nat).
Proof. vm_compute. repeat split. Qed.

(** ** Finalisation of a run *)

Lemma runCheck_body_silent env monitor server c f :
  (forall ev, page_event ev = true -> f ev = false) ->
  calls_at_most f 0 (runCheck_body env monitor server c).
Proof.
  intros Hf.
  unfold runCheck_body, open_page, check_protocol, navigate, navigate_cloudflare,
    navigate_plain, waitForCloudflareChallengeIfNeeded, isCloudflareChallengePage,
    goto, take_screenshot, classify.
  repeat first [ progress silent | apply calls_call_other; apply Hf; reflexivity ].
Qed.

Lemma runCheck_body_never_closes env monitor server c :
  calls_at_most is_context_close 0 (runCheck_body env monitor server c).
Proof. apply runCheck_body_silent. intros []; simpl; congruence. Qed.

(** C3. A run whose [browser.newContext] call succeeds ends with exactly one
    [context.close()] on that context, made after the [try] block whatever
    its outcome; the run returns the outcome of the [try] block and the world
    it left, whether the close succeeded or threw.  The [try] block itself
    never closes a context.  When [newContext] throws there is no context and
    the error is the outcome. *)
Theorem context_always_closed env monitor server browser w :
  let opened := EvNewContext browser (contextOptions monitor) :: trace w in
  match browser_newContext env opened with
  | Err e => runCheck env monitor server browser w = (Err e, set_trace opened w)
  | Ok _ =>
      let c := next_object w in
      let body := runCheck_body env monitor server c (set_next_object (S c) (set_trace opened w)) in
      runCheck env monitor server browser w
        = (fst body, set_trace (EvContextClose c :: trace (snd body)) (snd body))
      /\ exists evs, trace (snd body) = evs ++ opened /\ count is_context_close evs = 0%nat
  end.
Proof.
  intros opened. unfold runCheck. run. fold opened.
  destruct (browser_newContext env opened) as [[]|e]; [| reflexivity].
  cbn zeta. split.
  - destruct (runCheck_body env monitor server (next_object w) _) as [r w1]. cbn [fst snd].
    destruct (context_close env _); reflexivity.
  - destruct (runCheck_body_never_closes env monitor server (next_object w)
                (set_next_object (S (next_object w)) (set_trace opened w))) as (evs & Ht & Hc).
    exists evs. split; [exact Ht | lia].
Qed.


(** A close that throws changes neither a successful nor a failed run. *)
Example close_errors_are_swallowed :
  let env := Demo.context_close_throws in
  let failing := Demo.with_goto (fun _ => Ok (Some (mkResponse 500 (Num.of_Z 35)))) env in
  let up := check env Demo.plain Demo.server Demo.cold in
  let down := check failing Demo.plain Demo.server Demo.cold in
  (fst up = Ok tt /\ hb_status (heartbeat (snd up)) = Some UP
   /\ count is_context_close (trace (snd up)) = 1%nat)
  /\ (fst down = Err (Error "500") /\ count is_context_close (trace (snd down)) = 1%nat).
Proof. vm_compute. repeat split. Qed.

(** ** The browser pools make no page or context calls *)

Section LocalPool.

Context (env : Env) (f : event -> bool).
Hypothesis f_blind : forall ev, local_pool_event ev = true -> f ev = false.

Local Ltac quiet :=
  repeat first
    [ progress silent
    | apply calls_call_other; apply f_blind; reflexivity ].

Lemma findChrome_search_silent executables :
  calls_at_most f 0 (findChrome_search env executables).
Proof.
  induction executables as [|executable rest IH]; simpl; quiet. exact IH.
Qed.

Lemma prepareChromeExecutable_silent executablePath :
  calls_at_most f 0 (prepareChromeExecutable env executablePath).
Proof.
  unfold prepareChromeExecutable, installChromiumViaApt, findChrome.
  destruct executablePath as [p|]; quiet;
    try apply findChrome_search_silent;
    repeat match goal with
      | |- calls_at_most _ _ (match ?x with _ => _ end) => destruct x
      end; quiet; apply findChrome_search_silent.
Qed.

Lemma getBrowser_silent : calls_at_most f 0 (getBrowser env).
Proof.
  unfold getBrowser, connected, launch. quiet; apply prepareChromeExecutable_silent.
Qed.

Lemma getCloudflareBrowser_silent : calls_at_most f 0 (getCloudflareBrowser env).
Proof.
  unfold getCloudflareBrowser, connected, launch. quiet; apply prepareChromeExecutable_silent.
Qed.

End LocalPool.

Section RemotePool.

Context (env : Env) (f : event -> bool).
Hypothesis f_blind : forall ev, remote_pool_event ev = true -> f ev = false.

Local Ltac quiet :=
  repeat first
    [ progress silent
    | apply calls_call_other; apply f_blind; reflexivity ].

Lemma getRemoteBrowser_silent remoteBrowserID userId :
  calls_at_most f 0 (getRemoteBrowser env remoteBrowserID userId).
Proof.
  unfold getRemoteBrowser, connected, cache_delete, cache_set, close_browser. quiet.
Qed.

Lemma clearRemoteBrowserConnection_silent remoteBrowserID :
  calls_at_most f 0 (clearRemoteBrowserConnection env remoteBrowserID).
Proof.
  unfold clearRemoteBrowserConnection, cache_delete, close_browser. quiet.
Qed.

End RemotePool.

(** ** The scheme gate *)

Lemma check_protocol_rejects env target protocol w :
  URL_protocol env target = Ok protocol ->
  protocol <> "http:" -> protocol <> "https:" ->
  check_protocol env target w = (Err (invalid_protocol), w).
Proof.
  intros Hp Hhttp Hhttps. unfold check_protocol. run. rewrite Hp.
  apply String.eqb_neq in Hhttp, Hhttps. now rewrite Hhttp, Hhttps.
Qed.

Lemma check_protocol_accepts env target protocol w :
  URL_protocol env target = Ok protocol ->
  protocol = "http:" \/ protocol = "https:" ->
  check_protocol env target w = (Ok tt, w).
Proof.
  intros Hp [-> | ->]; unfold check_protocol; run; rewrite Hp; reflexivity.
Qed.

Section BadScheme.

Context (env : Env) (monitor : Monitor) (server : Server) (protocol : string).
Hypothesis parsed : URL_protocol env (url monitor) = Ok protocol.
Hypothesis not_http : protocol <> "http:".
Hypothesis not_https : protocol <> "https:".

Lemma check_protocol_fails : fails (check_protocol env (url monitor)).
Proof.
  intros w. exists invalid_protocol.
  now rewrite (check_protocol_rejects _ _ _ w parsed not_http not_https).
Qed.

Lemma check_protocol_silent f : calls_at_most f 0 (check_protocol env (url monitor)).
Proof. unfold check_protocol. silent. Qed.

Lemma runCheck_fails browser : fails (runCheck env monitor server browser).
Proof.
  unfold runCheck. do 2 (apply fails_bind_r; intros). apply fails_try_finally.
  unfold runCheck_body. apply fails_bind_r; intros p.
  apply fails_bind_l, check_protocol_fails.
Qed.

Lemma runCheck_no_goto browser : calls_at_most is_goto 0 (runCheck env monitor server browser).
Proof.
  unfold runCheck. silent. apply (calls_try_finally _ 0 0); [| silent].
  unfold runCheck_body. apply silent_bind; [unfold open_page; silent |].
  intros p. apply calls_bind_fails; [apply check_protocol_fails | apply check_protocol_silent].
Qed.

Lemma check_fails : fails (check env monitor server).
Proof.
  unfold check, remote_attempt. destruct (remote_of monitor) as [rb|].
  - apply fails_try_catch.
    + apply fails_bind_r; intros; apply runCheck_fails.
    + intros e. destruct (negb (isBrowserClosedError e)); [apply fails_throw |].
      do 2 (apply fails_bind_r; intros). apply runCheck_fails.
  - apply fails_bind_r; intros; apply runCheck_fails.
Qed.

Lemma check_no_goto : calls_at_most is_goto 0 (check env monitor server).
Proof.
  assert (Hlocal : forall ev, local_pool_event ev = true -> is_goto ev = false)
    by (intros []; simpl; congruence).
  assert (Hremote : forall ev, remote_pool_event ev = true -> is_goto ev = false)
    by (intros []; simpl; congruence).
  unfold check, remote_attempt. destruct (remote_of monitor) as [rb|].
  - apply silent_try_catch.
    + apply silent_bind; [now apply getRemoteBrowser_silent | intros; apply runCheck_no_goto].
    + intros e. destruct (negb (isBrowserClosedError e)); [apply calls_throw |].
      apply silent_bind; [now apply clearRemoteBrowserConnection_silent | intros].
      apply silent_bind; [now apply getRemoteBrowser_silent | intros; apply runCheck_no_goto].
  - apply silent_bind; [| intros; apply runCheck_no_goto].
    destruct (isCloudflareMode monitor);
      [now apply getCloudflareBrowser_silent | now apply getBrowser_silent].
Qed.

End BadScheme.

(** C2. When the target URL parses with a protocol other than "http:" and
    "https:", the scheme test of a run throws the invalid-protocol error; a
    run that got as far as a page fails with exactly that error; the whole
    check fails from every world and never calls [page.goto], in local and in
    remote mode, retry included.  When the protocol is "http:" or "https:"
    the scheme test returns without throwing. *)
Theorem invalid_scheme_rejected env monitor server protocol :
  URL_protocol env (url monitor) = Ok protocol ->
  (protocol <> "http:" -> protocol <> "https:" ->
     (forall w, check_protocol env (url monitor) w = (Err invalid_protocol, w))
     /\ (forall c w p w1,
           open_page env monitor c w = (Ok p, w1) ->
           runCheck_body env monitor server c w = (Err invalid_protocol, w1))
     /\ fails (check env monitor server)
     /\ calls_at_most is_goto 0 (check env monitor server))
  /\ (protocol = "http:" \/ protocol = "https:" ->
      forall w, check_protocol env (url monitor) w = (Ok tt, w)).
Proof.
  intros Hp. split.
  - intros Hhttp Hhttps. repeat split.
    + intros w. now apply check_protocol_rejects with protocol.
    + intros c w p w1 Hopen. unfold runCheck_body.
      rewrite (bind_ok _ _ _ _ _ Hopen). apply bind_err.
      now apply check_protocol_rejects with protocol.
    + now apply check_fails with protocol.
    + now apply check_no_goto with protocol.
  - intros Hok w. now apply check_protocol_accepts with protocol.
Qed.

(** The monitor probing [file:///etc/passwd] fails with the invalid-protocol
    error and never navigates. *)
Lemma invalid_scheme_rejected_witness :
  URL_protocol Demo.calm (url Demo.lfi) = Ok "file:"
  /\ fails (check Demo.calm Demo.lfi Demo.server)
  /\ calls_at_most is_goto 0 (check Demo.calm Demo.lfi Demo.server)
  /\ fst (check Demo.calm Demo.lfi Demo.server Demo.cold) = Err invalid_protocol
  /\ (forall w, check_protocol Demo.calm (url Demo.plain) w = (Ok tt, w)).
Proof.
  split; [reflexivity |].
  destruct (invalid_scheme_rejected Demo.calm Demo.lfi Demo.server "file:" eq_refl) as [Hbad _].
  destruct (Hbad ltac:(discriminate) ltac:(discriminate)) as (_ & _ & Hfails & Hsilent).
  split; [exact Hfails |]. split; [exact Hsilent |]. split; [vm_compute; reflexivity |].
  apply (invalid_scheme_rejected Demo.calm Demo.plain Demo.server "https:" eq_refl).
  now right.
Defined.

(** ** The challenge waiter *)






(** A challenge that never clears fails the check with the challenge-timeout
    error after one wait call (the budget is 48000 ms, the window 20000 ms):
    the window is the second argument of the call, and the call has no
    options.  A page without markers is not waited on. *)
Example challenge_wait_runs :
  let stuck := check Demo.stuck_challenge Demo.cf Demo.server Demo.cold in
  let clear := check Demo.calm Demo.cf Demo.server Demo.cold in
  (fst stuck = Err challenge_timeout
   /\ In (EvWaitForFunction 2%nat (Some (mkTimeoutObject (Num.of_Z 20000))) None)
        (trace (snd stuck))
   /\ count is_waitForFunction (trace (snd stuck)) = 1%nat
   /\ count is_goto (trace (snd stuck)) = 1%nat)
  /\ (fst clear = Ok tt /\ count is_waitForFunction (trace (snd clear)) = 0%nat).
Proof. vm_compute. intuition. Qed.

(** ** Challenge-aware navigation *)

(** What challenge-aware navigation does, by the answers of its loads and
    the outcome of the waiter. *)
Lemma navigate_cloudflare_run env monitor p timeout w :
  let first := EvGoto p (url monitor) domcontentloaded timeout :: trace w in
  match page_goto env first with
  | Err e => navigate_cloudflare env monitor p timeout w = (Err e, set_trace first w)
  | Ok res =>
      match waitForCloudflareChallengeIfNeeded env p timeout (name monitor) (set_trace first w) with
      | (Err e, w1) => navigate_cloudflare env monitor p timeout w = (Err e, w1)
      | (Ok _, w1) =>
          let second := EvGoto p (url monitor) domcontentloaded (verifyTimeout timeout) :: trace w1 in
          navigate_cloudflare env monitor p timeout w
          = (match page_goto env second with
             | Ok (Some verifyResponse) => Ok (Some verifyResponse)
             | Ok None => Ok res
             | Err e => Err e
             end, set_trace second w1)
      end
  end.
Proof.
  intros first. unfold navigate_cloudflare.
  assert (Hgoto : goto env p (url monitor) domcontentloaded timeout w
                  = (page_goto env first, set_trace first w)) by reflexivity.
  destruct (page_goto env first) as [res|e].
  - rewrite (bind_ok _ _ _ _ _ Hgoto).
    destruct (waitForCloudflareChallengeIfNeeded env p timeout (name monitor) (set_trace first w))
      as [[[]|e] w1] eqn:Hwait.
    + rewrite (bind_ok _ _ _ _ _ Hwait). unfold goto. run.
      destruct (page_goto env (EvGoto p (url monitor) domcontentloaded (verifyTimeout timeout) :: trace w1))
        as [[verifyResponse|]|e]; reflexivity.
    + now rewrite (bind_err _ _ _ _ _ Hwait).
  - now rewrite (bind_err _ _ _ _ _ Hgoto).
Qed.

(** C5 (amended). Challenge-aware navigation loads with "domcontentloaded" at
    the full budget, runs the waiter, and loads again with
    "domcontentloaded" and [Math.max(3000, Math.floor(timeout * 0.6))]
    milliseconds.  The response handed to classification is the one of the
    second load whenever that load returns a response; when the second load
    returns none, the response of the first load is kept.  An error of
    either load or of the waiter is the outcome. *)
Theorem challenge_navigation_response env monitor p timeout w :
  let first := EvGoto p (url monitor) domcontentloaded timeout :: trace w in
  let budget := Num.max (Num.of_Z 3000) (Num.floor (Num.mul timeout Num.lit_0_6)) in
  (isCloudflareMode monitor = true ->
   navigate env monitor p timeout = navigate_cloudflare env monitor p timeout)
  /\ match page_goto env first with
     | Err e => navigate_cloudflare env monitor p timeout w = (Err e, set_trace first w)
     | Ok res =>
         match waitForCloudflareChallengeIfNeeded env p timeout (name monitor) (set_trace first w) with
         | (Err e, w1) => navigate_cloudflare env monitor p timeout w = (Err e, w1)
         | (Ok _, w1) =>
             let second := EvGoto p (url monitor) domcontentloaded budget :: trace w1 in
             navigate_cloudflare env monitor p timeout w
             = (match page_goto env second with
                | Ok (Some verifyResponse) => Ok (Some verifyResponse)
                | Ok None => Ok res
                | Err e => Err e
                end, set_trace second w1)
         end
     end.
Proof.
  intros first budget. split.
  - intros Hmode. unfold navigate. now rewrite Hmode.
  - exact (navigate_cloudflare_run env monitor p timeout w).
Qed.


(** On a calm target the navigation of the challenge-aware monitor is the
    challenge-aware navigation and returns the response of its second load,
    made with "domcontentloaded" and 28800 ms. *)
Lemma challenge_navigation_response_witness :
  let timeout := Num.of_Z 48000 in
  isCloudflareMode Demo.cf = true
  /\ navigate Demo.calm Demo.cf 2%nat timeout Demo.cold
     = (Ok (Some Demo.ok200),
        set_trace [ EvGoto 2%nat "https://example.com" domcontentloaded (Num.of_Z 28800);
                    EvEvaluate 2%nat;
                    EvGoto 2%nat "https://example.com" domcontentloaded timeout ] Demo.cold).
Proof.
  intros timeout. split; [reflexivity |].
  destruct (challenge_navigation_response Demo.calm Demo.cf 2%nat timeout Demo.cold)
    as [Hmode Hnav].
  rewrite (Hmode eq_refl). cbv zeta in Hnav.
  remember (page_goto Demo.calm
              (EvGoto 2%nat (url Demo.cf) domcontentloaded timeout :: trace Demo.cold))
    as first eqn:Hfirst in Hnav.
  vm_compute in Hfirst. subst first. cbv iota beta in Hnav.
  remember (waitForCloudflareChallengeIfNeeded Demo.calm 2%nat timeout (name Demo.cf) _)
    as waited eqn:Hwaited in Hnav.
  vm_compute in Hwaited. subst waited. cbv iota beta zeta in Hnav.
  rewrite Hnav. vm_compute. reflexivity.
Defined.

(** ** Missing responses *)

Lemma navigate_cloudflare_none env monitor p timeout w w' :
  navigate_cloudflare env monitor p timeout w = (Ok None, w') ->
  page_goto env (EvGoto p (url monitor) domcontentloaded timeout :: trace w) = Ok None
  /\ page_goto env (trace w') = Ok None
  /\ exists t, trace w' = EvGoto p (url monitor) domcontentloaded (verifyTimeout timeout) :: t.
Proof.
  intros H.
  pose proof (navigate_cloudflare_run env monitor p timeout w) as Hnav.
  cbv zeta in Hnav. rewrite H in Hnav. revert Hnav.
  destruct (page_goto env (EvGoto p (url monitor) domcontentloaded timeout :: trace w))
    as [res|e]; [| discriminate].
  destruct (waitForCloudflareChallengeIfNeeded env p timeout (name monitor) _)
    as [[[]|e] w1]; [| discriminate].
  destruct (page_goto env (EvGoto p (url monitor) domcontentloaded (verifyTimeout timeout) :: trace w1))
    as [[verifyResponse|]|e] eqn:Hsecond; try discriminate.
  intros [= <- ->]. cbn [trace set_trace]. eauto.
Qed.

Lemma no_response_not_closed : isBrowserClosedError no_response = false.
Proof. reflexivity. Qed.

(** C9. A missing response after navigation is a hard failure and is not
    retried.  A run whose navigation step ends without a response fails with
    the no-response error and makes no further call: no screenshot, no
    classification.  The no-response error is not a connection-closed error,
    so a remote check that fails with it on its first attempt ends there,
    with no reconnect and no second attempt.  The navigation step ends
    without a response in plain mode when the load (or the fallback load
    after a timeout) returns null, and no other load follows; in
    challenge-aware mode only when both loads return null. *)
Theorem missing_response_fails env monitor server :
  (forall c w p w1 w2 w3,
      open_page env monitor c w = (Ok p, w1) ->
      check_protocol env (url monitor) w1 = (Ok tt, w2) ->
      navigate env monitor p (check_timeout monitor) w2 = (Ok None, w3) ->
      runCheck_body env monitor server c w = (Err no_response, w3))
  /\ (forall p timeout w,
        let first := EvGoto p (url monitor) networkidle timeout :: trace w in
        let second := EvGoto p (url monitor) domcontentloaded (fallbackTimeout timeout) :: first in
        (page_goto env first = Ok None ->
         navigate_plain env monitor p timeout w = (Ok None, set_trace first w))
        /\ (forall e, page_goto env first = Err e -> isNavigationTimeoutError e = true ->
            page_goto env second = Ok None ->
            navigate_plain env monitor p timeout w = (Ok None, set_trace second w)))
  /\ (forall p timeout w w',
        navigate_cloudflare env monitor p timeout w = (Ok None, w') ->
        page_goto env (EvGoto p (url monitor) domcontentloaded timeout :: trace w) = Ok None
        /\ page_goto env (trace w') = Ok None
        /\ exists t, trace w' = EvGoto p (url monitor) domcontentloaded (verifyTimeout timeout) :: t)
  /\ (forall rb w w1,
        remote_of monitor = Some rb ->
        remote_attempt env monitor server rb w = (Err no_response, w1) ->
        check env monitor server w = (Err no_response, w1)).
Proof.
  split; [| split; [| split]].
  - intros c w p w1 w2 w3 Hopen Hproto Hnav. unfold runCheck_body.
    rewrite (bind_ok _ _ _ _ _ Hopen), (bind_ok _ _ _ _ _ Hproto), (bind_ok _ _ _ _ _ Hnav).
    reflexivity.
  - intros p timeout w first second.
    pose proof (navigate_plain_run env monitor p timeout w) as Hnav.
    cbv zeta in Hnav. fold first in Hnav. fold second in Hnav. split.
    + intros Hfirst. now rewrite Hfirst in Hnav.
    + intros e Hfirst Htimeout Hsecond.
      rewrite Hfirst, Htimeout in Hnav. rewrite Hnav. now rewrite Hsecond.
  - intros p timeout w w'. apply navigate_cloudflare_none.
  - intros rb w w1 Hremote Hattempt. unfold check. rewrite Hremote.
    rewrite (try_catch_err _ _ _ _ _ Hattempt). now rewrite no_response_not_closed.
Qed.

(** C5, as stated, fails: with a first load answering 204 and a second load
    returning no response, navigation hands the first response to
    classification and the check succeeds with message 204. *)
Lemma classification_can_use_first_response :
  let env := Demo.second_load_null in
  let timeout := check_timeout Demo.cf in
  let nav := navigate_cloudflare env Demo.cf 0%nat timeout Demo.cold in
  let run := check env Demo.cf Demo.server Demo.cold in
  fst nav = Ok (Some Demo.no_content)
  /\ trace (snd nav)
     = [ EvGoto 0%nat "https://example.com" domcontentloaded (verifyTimeout timeout);
         EvEvaluate 0%nat;
         EvGoto 0%nat "https://example.com" domcontentloaded timeout ]
  /\ page_goto env (trace (snd nav)) = Ok None
  /\ fst run = Ok tt
  /\ hb_msg (heartbeat (snd run)) = Some 204.
Proof. vm_compute. repeat split. Qed.

(** A first response of 403 on a challenge page followed by a second
    response of 200 is classified by the second. *)
Example challenge_then_200 :
  let env :=
    Demo.with_goto
      (fun t => if Nat.eqb (count is_goto t) 1
                then Ok (Some (mkResponse 403 (Num.of_Z 10))) else Ok (Some Demo.ok200))
      (Demo.with_evaluate (fun _ => Ok (Some "Just a moment...", Some "")) Demo.calm) in
  let run := check env Demo.cf Demo.server Demo.cold in
  fst run = Ok tt
  /\ heartbeat (snd run) = mkHeartbeat (Some UP) (Some 200) (Some (Num.of_Z 120))
  /\ count is_waitForFunction (trace (snd run)) = 1%nat.
Proof. vm_compute. repeat split. Qed.

(** In challenge-aware mode the response held after navigation is the second
    load's when there is one and the first load's otherwise.  A first load
    without a response is followed by the waiter and by the second load, and
    the check goes on with the second response; a second load without a
    response leaves the first response in place. *)
Example challenge_navigation_keeps_a_response :
  let first_null := check Demo.first_load_null Demo.cf Demo.server Demo.cold in
  let at_first_load := skipn 4 (trace (snd first_null)) in
  let second_null := check Demo.second_load_null Demo.cf Demo.server Demo.cold in
  let at_second_load := skipn 2 (trace (snd second_null)) in
  (hd_error at_first_load
   = Some (EvGoto 2%nat "https://example.com" domcontentloaded (check_timeout Demo.cf))
   /\ page_goto Demo.first_load_null at_first_load = Ok None
   /\ fst first_null = Ok tt
   /\ hb_msg (heartbeat (snd first_null)) = Some 200
   /\ count is_goto (trace (snd first_null)) = 2%nat)
  /\ (hd_error at_second_load
      = Some (EvGoto 2%nat "https://example.com" domcontentloaded
                (verifyTimeout (check_timeout Demo.cf)))
      /\ page_goto Demo.second_load_null at_second_load = Ok None
      /\ fst second_null = Ok tt
      /\ hb_msg (heartbeat (snd second_null)) = Some 204).
Proof. vm_compute. repeat split. Qed.

(** A plain check and a challenge-aware check against a target that never
    answers with a response both fail with the no-response error; the remote
    check does so too, after a single attempt. *)
Lemma missing_response_fails_witness :
  fst (check Demo.never_responds Demo.plain Demo.server Demo.cold) = Err no_response
  /\ fst (check Demo.never_responds Demo.cf Demo.server Demo.cold) = Err no_response
  /\ check Demo.never_responds Demo.remote Demo.server Demo.cold
     = (Err no_response,
        snd (remote_attempt Demo.never_responds Demo.remote Demo.server 7 Demo.cold)).
Proof.
  split; [vm_compute; reflexivity |]. split; [vm_compute; reflexivity |].
  destruct (missing_response_fails Demo.never_responds Demo.remote Demo.server)
    as (_ & _ & _ & Hremote).
  apply (Hremote 7 Demo.cold); vm_compute; reflexivity.
Defined.

(** ** Screenshot and classification *)

Lemma take_screenshot_spec env monitor server p w :
  match take_screenshot env monitor server p w with
  | (Err e, w') => heartbeat w' = heartbeat w
  | (Ok _, w') =>
      heartbeat w' = heartbeat w
      /\ exists signed rest,
           jwt_sign env (id monitor) (jwtSecret server) = Ok signed
           /\ trace w' = EvScreenshot p (path_join env (screenshotDir env) (signed ++ ".png")%string) :: rest
  end.
Proof.
  unfold take_screenshot. run.
  destruct (Num.lt (Num.of_Z 0) (screenshot_delay monitor)).
  - destruct (page_waitForTimeout env _) as [[]|e]; [| reflexivity]. cbn [trace set_trace].
    destruct (jwt_sign env (id monitor) (jwtSecret server)) as [signed|e]; [| reflexivity].
    destruct (page_screenshot env _) as [[]|e]; [| reflexivity].
    split; [reflexivity | eauto].
  - destruct (jwt_sign env (id monitor) (jwtSecret server)) as [signed|e]; [| reflexivity].
    destruct (page_screenshot env _) as [[]|e]; [| reflexivity].
    split; [reflexivity | eauto].
Qed.

(** C10. In a run whose navigation returned a response, the screenshot step
    (optional delay, signed file name, [page.screenshot]) comes before the
    status is looked at.  When it throws, the run fails with that error and
    the heartbeat is untouched whatever the status.  When it succeeds, the
    screenshot call under [<signed id>.png] in the screenshot directory is in
    the history and only then is the status classified: within [200, 400)
    the heartbeat is filled in, otherwise the run fails with the status code
    as message. *)
Theorem screenshot_before_classification env monitor server c w p w1 w2 res w3 :
  open_page env monitor c w = (Ok p, w1) ->
  check_protocol env (url monitor) w1 = (Ok tt, w2) ->
  navigate env monitor p (check_timeout monitor) w2 = (Ok (Some res), w3) ->
  match take_screenshot env monitor server p w3 with
  | (Err e, w4) =>
      runCheck_body env monitor server c w = (Err e, w4) /\ heartbeat w4 = heartbeat w3
  | (Ok _, w4) =>
      heartbeat w4 = heartbeat w3
      /\ (exists signed rest,
            jwt_sign env (id monitor) (jwtSecret server) = Ok signed
            /\ trace w4 = EvScreenshot p (path_join env (screenshotDir env) (signed ++ ".png")%string) :: rest)
      /\ runCheck_body env monitor server c w
         = if (200 <=? status res) && (status res <? 400)
           then (Ok tt, set_heartbeat (mkHeartbeat (Some UP) (Some (status res)) (Some (responseEnd res))) w4)
           else (Err (Error (pretty (status res))), w4)
  end.
Proof.
  intros Hopen Hproto Hnav.
  pose proof (take_screenshot_spec env monitor server p w3) as Hshot.
  unfold runCheck_body.
  rewrite (bind_ok _ _ _ _ _ Hopen), (bind_ok _ _ _ _ _ Hproto), (bind_ok _ _ _ _ _ Hnav).
  destruct (take_screenshot env monitor server p w3) as [[[]|e] w4] eqn:Htake.
  - destruct Hshot as [Hhb Hev]. split; [exact Hhb |]. split; [exact Hev |].
    rewrite (bind_ok _ _ _ _ _ Htake). unfold classify.
    destruct ((200 <=? status res) && (status res <? 400)); reflexivity.
  - split; [| exact Hshot]. now rewrite (bind_err _ _ _ _ _ Htake).
Qed.

(** Against a target answering 500 the run fails with "500", and the
    screenshot [sig1.png] has been taken. *)
Lemma screenshot_before_classification_witness :
  let body := runCheck_body Demo.server_error Demo.plain Demo.server 0%nat Demo.cold in
  fst body = Err (Error "500")
  /\ exists rest, trace (snd body) = EvScreenshot 0%nat "./data/screenshots/sig1.png" :: rest.
Proof.
  pose proof (screenshot_before_classification Demo.server_error Demo.plain Demo.server
                0%nat Demo.cold 0%nat
                (snd (open_page Demo.server_error Demo.plain 0%nat Demo.cold))
                (snd (open_page Demo.server_error Demo.plain 0%nat Demo.cold))
                (mkResponse 500 (Num.of_Z 35))
                (snd (navigate Demo.server_error Demo.plain 0%nat (check_timeout Demo.plain)
                        (snd (open_page Demo.server_error Demo.plain 0%nat Demo.cold))))
                eq_refl eq_refl eq_refl) as H.
  remember (take_screenshot Demo.server_error Demo.plain Demo.server 0%nat _) as shot eqn:Hshot in H.
  vm_compute in Hshot. subst shot. cbv iota beta in H.
  destruct H as (_ & _ & Hbody).
  cbv zeta. rewrite Hbody. vm_compute. split; [reflexivity | eexists; reflexivity].
Defined.


(** A screenshot that cannot be written fails a check that would have been
    up: the status is never looked at. *)
Example screenshot_failure_runs :
  let run := check Demo.screenshot_throws Demo.plain Demo.server Demo.cold in
  fst run = Err Demo.disk_full /\ heartbeat (snd run) = Demo.empty_heartbeat.
Proof. vm_compute. repeat split. Qed.

(** ** Resetting the local pool *)

(** C8 (amended). [resetChrome] closes the plain handle, clears the plain
    slot, closes the challenge handle and clears the challenge slot, in that
    order, skipping a slot that is empty.  It does not ignore an error
    thrown by a close.  When the close of the plain handle throws, the reset
    throws that error at once: both slots keep what they held and the
    challenge handle is not closed.  When the plain slot is empty or its
    close returns and the close of the challenge handle throws, the reset
    throws that error: the plain slot is empty and the challenge slot keeps
    its handle.  When no close throws, the reset returns, both slots are
    empty and every handle that was cached has been closed.  These are the
    only outcomes. *)
Theorem resetChrome_propagates_close_errors env w :
  let plain := localBrowser w in
  let challenge := localCloudflareBrowser w in
  let closed (slot : option handle) (t : history) :=
    match slot with
    | Some b => browser_close env (EvBrowserClose b :: t) = Ok tt
    | None => True
    end in
  (forall b e,
     plain = Some b ->
     browser_close env (EvBrowserClose b :: trace w) = Err e ->
     resetChrome env w = (Err e, set_trace (EvBrowserClose b :: trace w) w))
  /\ (forall b e,
        closed plain (trace w) ->
        challenge = Some b ->
        browser_close env (EvBrowserClose b :: closes plain ++ trace w) = Err e ->
        fst (resetChrome env w) = Err e
        /\ trace (snd (resetChrome env w)) = EvBrowserClose b :: closes plain ++ trace w
        /\ localBrowser (snd (resetChrome env w)) = None
        /\ localCloudflareBrowser (snd (resetChrome env w)) = Some b)
  /\ (closed plain (trace w) ->
      closed challenge (closes plain ++ trace w) ->
      fst (resetChrome env w) = Ok tt
      /\ localBrowser (snd (resetChrome env w)) = None
      /\ localCloudflareBrowser (snd (resetChrome env w)) = None
      /\ trace (snd (resetChrome env w)) = closes challenge ++ closes plain ++ trace w)
  /\ match resetChrome env w with
     | (Ok _, w') =>
         localBrowser w' = None /\ localCloudflareBrowser w' = None
         /\ trace w' = closes challenge ++ closes plain ++ trace w
     | (Err e, w') =>
         (exists b, plain = Some b
                    /\ browser_close env (EvBrowserClose b :: trace w) = Err e
                    /\ trace w' = EvBrowserClose b :: trace w
                    /\ localBrowser w' = Some b
                    /\ localCloudflareBrowser w' = challenge)
         \/ (exists b, challenge = Some b
                       /\ browser_close env (EvBrowserClose b :: closes plain ++ trace w) = Err e
                       /\ trace w' = EvBrowserClose b :: closes plain ++ trace w
                       /\ localBrowser w' = None
                       /\ localCloudflareBrowser w' = Some b)
     end.
Proof.
  intros plain challenge closed. subst plain challenge closed.
  split; [| split; [| split]].
  - intros b e Hplain Hclose. unfold resetChrome, close_browser. run.
    rewrite Hplain. tidy. now rewrite Hclose.
  - intros b e Hclosed Hchallenge Hclose. unfold resetChrome, close_browser. run.
    destruct (localBrowser w) as [b1|] eqn:Hplain; cbn [closes app] in *; tidy.
    + rewrite Hclosed. tidy. rewrite Hchallenge. tidy. rewrite Hclose. tidy.
      now rewrite Hchallenge.
    + rewrite Hchallenge. tidy. rewrite Hclose. tidy. now rewrite Hplain, Hchallenge.
  - intros Hplain Hchallenge. unfold resetChrome, close_browser. run.
    destruct (localBrowser w) as [b1|] eqn:Hslot1;
      destruct (localCloudflareBrowser w) as [b2|] eqn:Hslot2;
      cbn [closes app] in *; tidy;
      rewrite ?Hplain; tidy; rewrite ?Hslot2; tidy; rewrite ?Hchallenge; tidy;
      rewrite ?Hslot1, ?Hslot2; repeat split.
  - unfold resetChrome, close_browser. run.
    destruct (localBrowser w) as [b1|] eqn:Hplain;
      destruct (localCloudflareBrowser w) as [b2|] eqn:Hchallenge;
      cbn [closes app];
      repeat match goal with
        | |- context [browser_close env ?t] =>
            let E := fresh "Hclose" in
            destruct (browser_close env t) as [[]|?] eqn:E;
            cbn [fst snd trace localBrowser localCloudflareBrowser
                 set_trace set_localBrowser set_localCloudflareBrowser] in *;
            rewrite ?Hchallenge in *
        end;
      cbn [fst snd trace localBrowser localCloudflareBrowser
           set_trace set_localBrowser set_localCloudflareBrowser];
      first [ solve [auto]
            | solve [left; eexists; repeat split; eauto]
            | solve [right; eexists; repeat split; eauto] ].
Qed.

(** When only the close of the challenge handle throws, the reset throws
    with the plain slot emptied and the challenge slot still filled. *)
Lemma resetChrome_propagates_close_errors_witness :
  let run := resetChrome Lab.second_close_throws Demo.both_cached in
  fst run = Err Demo.close_failed
  /\ trace (snd run) = [EvBrowserClose 1%nat; EvBrowserClose 0%nat]
  /\ localBrowser (snd run) = None
  /\ localCloudflareBrowser (snd run) = Some 1%nat.
Proof.
  destruct (resetChrome_propagates_close_errors Lab.second_close_throws Demo.both_cached)
    as (_ & Hsecond & _).
  exact (Hsecond 1%nat Demo.close_failed eq_refl eq_refl eq_refl).
Defined.

(** C8, as stated, fails: when closing the plain handle throws, the reset
    throws, the challenge handle is never closed and both slots keep their
    handles. *)
Lemma resetChrome_stops_at_first_close_error :
  let run := resetChrome Demo.close_throws Demo.both_cached in
  fst run = Err Demo.close_failed
  /\ trace (snd run) = [EvBrowserClose 0%nat]
  /\ localBrowser (snd run) = Some 0%nat
  /\ localCloudflareBrowser (snd run) = Some 1%nat.
Proof. vm_compute. repeat split. Qed.

(** ** The remote connection cache *)

Section Disconnect.

Context (b : handle).

Let step (w' : World) (o : handle * Z) : World :=
  if Nat.eqb (fst o) b then on_disconnected (snd o) (fst o) w' else w'.

Lemma on_disconnected_cache cacheKey w k :
  remoteBrowserConnections (on_disconnected cacheKey b w) !! k
  = match remoteBrowserConnections w !! cacheKey with
    | Some current =>
        if Nat.eqb (conn_browser current) b && bool_decide (k = cacheKey)
        then None else remoteBrowserConnections w !! k
    | None => remoteBrowserConnections w !! k
    end.
Proof.
  unfold on_disconnected.
  destruct (remoteBrowserConnections w !! cacheKey) as [current|] eqn:Hcur; [| reflexivity].
  destruct (Nat.eqb (conn_browser current) b); cbn [andb]; [| reflexivity].
  cbn [remoteBrowserConnections set_remoteBrowserConnections].
  case_bool_decide as Hk.
  - subst k. apply lookup_delete_eq.
  - rewrite lookup_delete_ne by congruence. reflexivity.
Qed.

Lemma step_cache w o k :
  remoteBrowserConnections (step w o) !! k = remoteBrowserConnections w !! k
  \/ (remoteBrowserConnections (step w o) !! k = None
      /\ fst o = b /\ snd o = k
      /\ exists c, remoteBrowserConnections w !! k = Some c /\ conn_browser c = b).
Proof.
  unfold step. destruct (Nat.eqb (fst o) b) eqn:Hb; [| now left].
  apply Nat.eqb_eq in Hb. rewrite Hb, on_disconnected_cache.
  destruct (remoteBrowserConnections w !! snd o) as [current|] eqn:Hcur; [| now left].
  destruct (Nat.eqb (conn_browser current) b) eqn:Hcb; cbn [andb]; [| now left].
  case_bool_decide as Hk; [| now left].
  right. subst k. apply Nat.eqb_eq in Hcb. eauto 10.
Qed.

Lemma step_removes w k c :
  remoteBrowserConnections w !! k = Some c -> conn_browser c = b ->
  remoteBrowserConnections (step w (b, k)) !! k = None.
Proof.
  intros Hk Hc. unfold step. cbn [fst snd]. rewrite Nat.eqb_refl, on_disconnected_cache, Hk.
  rewrite Hc, Nat.eqb_refl. cbn [andb]. now rewrite bool_decide_eq_true_2.
Qed.

(** An entry that references another browser survives the event. *)
Lemma disconnected_keeps_others w k c :
  remoteBrowserConnections w !! k = Some c -> conn_browser c <> b ->
  remoteBrowserConnections (disconnected b w) !! k = Some c.
Proof.
  unfold disconnected. fold step. generalize (observers w) as obs.
  intros obs. revert w. induction obs as [|o obs IH]; intros w Hk Hc; [exact Hk |].
  cbn [fold_left]. apply IH; [| exact Hc].
  destruct (step_cache w o k) as [Hsame | (_ & _ & _ & c' & Hc' & Hb)].
  - etransitivity; [exact Hsame | exact Hk].
  - congruence.
Qed.

(** The event never adds an entry. *)
Lemma disconnected_keeps_absent w k :
  remoteBrowserConnections w !! k = None ->
  remoteBrowserConnections (disconnected b w) !! k = None.
Proof.
  unfold disconnected. fold step. generalize (observers w) as obs.
  intros obs. revert w. induction obs as [|o obs IH]; intros w Hk; [exact Hk |].
  cbn [fold_left]. apply IH.
  destruct (step_cache w o k) as [Hsame | (Hnone & _)].
  - etransitivity; [exact Hsame | exact Hk].
  - exact Hnone.
Qed.

(** An entry that still references the browser, under the key its listener
    was registered with, is removed. *)
Lemma disconnected_removes w k c :
  remoteBrowserConnections w !! k = Some c -> conn_browser c = b ->
  In (b, k) (observers w) ->
  remoteBrowserConnections (disconnected b w) !! k = None.
Proof.
  unfold disconnected. fold step. generalize (observers w) as obs.
  intros obs. revert w. induction obs as [|o obs IH]; intros w Hk Hc Hin; [destruct Hin |].
  cbn [fold_left].
  assert (Hgone : forall l w', remoteBrowserConnections w' !! k = None ->
                               remoteBrowserConnections (fold_left step l w') !! k = None).
  { induction l as [|o' l IHl]; intros w' Hw'; [exact Hw' |].
    cbn [fold_left]. apply IHl.
    destruct (step_cache w' o' k) as [Hsame | (Hnone & _)].
    - etransitivity; [exact Hsame | exact Hw'].
    - exact Hnone. }
  destruct Hin as [-> | Hin].
  - apply Hgone. now apply step_removes with c.
  - destruct (step_cache w o k) as [Hsame | (Hnone & _)].
    + apply IH; [etransitivity; [exact Hsame | exact Hk] | exact Hc | exact Hin].
    + now apply Hgone.
Qed.

End Disconnect.

Lemma getRemoteBrowser_reuses env remoteBrowserID userId w record :
  let looked := EvRemoteBrowserGet remoteBrowserID userId :: trace w in
  RemoteBrowser_get env looked = Ok (Some record) ->
  cache_valid env looked w record = true ->
  exists c, remoteBrowserConnections w !! rb_id record = Some c
            /\ getRemoteBrowser env remoteBrowserID userId w = (Ok (conn_browser c), set_trace looked w).
Proof.
  intros looked Hrecord Hvalid. unfold cache_valid in Hvalid.
  unfold getRemoteBrowser, connected, cache_delete, cache_set, close_browser. run.
  fold looked. rewrite Hrecord. cbn [remoteBrowserConnections trace set_trace].
  destruct (remoteBrowserConnections w !! rb_id record) as [c|]; [| discriminate].
  exists c. split; [reflexivity |]. cbn [fmap option_fmap option_map]. now rewrite Hvalid.
Qed.

Lemma getRemoteBrowser_reconnects env remoteBrowserID userId w record :
  let looked := EvRemoteBrowserGet remoteBrowserID userId :: trace w in
  RemoteBrowser_get env looked = Ok (Some record) ->
  cache_valid env looked w record = false ->
  let key := rb_id record in
  let evicted := closes (conn_browser <$> remoteBrowserConnections w !! key) in
  let connecting := EvConnect (rb_url record) :: evicted ++ looked in
  let run := getRemoteBrowser env remoteBrowserID userId w in
  trace (snd run) = connecting
  /\ match chromium_connect env connecting with
     | Ok _ =>
         fst run = Ok (next_object w)
         /\ remoteBrowserConnections (snd run)
            = <[key := mkConnection (rb_url record) (next_object w)]> (remoteBrowserConnections w)
         /\ observers (snd run) = observers w ++ [(next_object w, key)]
         /\ next_object (snd run) = S (next_object w)
     | Err e =>
         fst run = Err e
         /\ remoteBrowserConnections (snd run) = delete key (remoteBrowserConnections w)
         /\ observers (snd run) = observers w
         /\ next_object (snd run) = next_object w
     end.
Proof.
  intros looked Hrecord Hvalid key evicted connecting run.
  subst run evicted connecting. unfold cache_valid in Hvalid. fold key in Hvalid.
  unfold getRemoteBrowser, connected, cache_delete, cache_set, close_browser. run.
  fold looked. rewrite Hrecord. cbn [remoteBrowserConnections trace set_trace]. fold key.
  destruct (remoteBrowserConnections w !! key) as [c|] eqn:Hcached;
    cbn [fmap option_fmap option_map closes app].
  - rewrite Hvalid. tidy.
    destruct (browser_close env (EvBrowserClose (conn_browser c) :: looked)) as [[]|e0]; tidy;
      (destruct (chromium_connect env (EvConnect (rb_url record) :: EvBrowserClose (conn_browser c) :: looked))
         as [[]|e]; tidy; repeat split; try reflexivity; apply insert_delete_eq).
  - tidy. destruct (chromium_connect env (EvConnect (rb_url record) :: looked)) as [[]|e]; tidy;
      repeat split; try reflexivity.
    symmetry. now apply delete_id.
Qed.

(** Acquiring a remote browser keeps the cache within the objects that
    exist: what it stores is the browser it has just been given. *)
Lemma getRemoteBrowser_allocated env remoteBrowserID userId w :
  cache_allocated w -> cache_allocated (snd (getRemoteBrowser env remoteBrowserID userId w)).
Proof.
  intros Halloc.
  unfold getRemoteBrowser, connected, cache_delete, cache_set, close_browser. run.
  destruct (RemoteBrowser_get env _) as [[record|]|e]; tidy; try exact Halloc.
  assert (Hdelete : forall k c,
             delete (rb_id record) (remoteBrowserConnections w) !! k = Some c ->
             (conn_browser c < next_object w)%nat).
  { intros k c Hk. apply lookup_delete_Some in Hk as [_ Hk]. now apply Halloc with k. }
  assert (Hinsert : forall (m : gmap Z Connection) k c,
             (forall k' c', m !! k' = Some c' -> (conn_browser c' < next_object w)%nat) ->
             <[rb_id record := mkConnection (rb_url record) (next_object w)]> m !! k = Some c ->
             (conn_browser c < S (next_object w))%nat).
  { intros m k c Hm Hk. apply lookup_insert_Some in Hk as [[_ <-] | [_ Hk]]; [cbn; lia |].
    specialize (Hm _ _ Hk). lia. }
  destruct (remoteBrowserConnections w !! rb_id record) as [c|]; tidy.
  - destruct (_ && _); tidy; [exact Halloc |].
    destruct (browser_close env _) as [[]|e0]; tidy;
      (destruct (chromium_connect env _) as [[]|e1]; tidy; intros k c';
       [apply Hinsert; exact Hdelete | apply Hdelete]).
  - destruct (chromium_connect env _) as [[]|e1]; tidy; intros k c';
      [apply Hinsert; exact Halloc | apply Halloc].
Qed.

(** C7. Once the record is resolved, [getRemoteBrowser] returns the cached
    browser, making no other call and changing nothing, exactly when the
    cache holds an entry for the record's id whose browser reports connected
    and whose URL is the record's URL.  Otherwise an existing entry is closed
    (an error of that close is swallowed) and removed before
    [chromium.connect] is called; on success the new browser is stored under
    the id with the record's URL, its "disconnected" listener is registered,
    and it is returned; on failure the error is thrown and the id is left
    without an entry.  The cache binds each id at most once and entries of
    other ids are untouched.  A "disconnected" event of a browser removes no
    entry that references another browser and adds none; fired on the
    browser just connected, it removes the entry stored for it. *)
Theorem remote_cache_validity env remoteBrowserID userId w record :
  let looked := EvRemoteBrowserGet remoteBrowserID userId :: trace w in
  RemoteBrowser_get env looked = Ok (Some record) ->
  let key := rb_id record in
  let cached := remoteBrowserConnections w !! key in
  let run := getRemoteBrowser env remoteBrowserID userId w in
  (if cache_valid env looked w record
   then exists c, cached = Some c /\ run = (Ok (conn_browser c), set_trace looked w)
   else
     let connecting := EvConnect (rb_url record) :: closes (conn_browser <$> cached) ++ looked in
     trace (snd run) = connecting
     /\ match chromium_connect env connecting with
        | Ok _ =>
            fst run = Ok (next_object w)
            /\ remoteBrowserConnections (snd run)
               = <[key := mkConnection (rb_url record) (next_object w)]> (remoteBrowserConnections w)
            /\ observers (snd run) = observers w ++ [(next_object w, key)]
            /\ remoteBrowserConnections (disconnected (next_object w) (snd run)) !! key = None
        | Err e =>
            fst run = Err e
            /\ remoteBrowserConnections (snd run) = delete key (remoteBrowserConnections w)
        end)
  /\ (cache_allocated w ->
      ((exists c, cached = Some c /\ fst run = Ok (conn_browser c))
       <-> cache_valid env looked w record = true))
  /\ (forall h, fst run = Ok h ->
      exists c, remoteBrowserConnections (snd run) !! key = Some c
                /\ conn_browser c = h /\ conn_url c = rb_url record)
  /\ (forall k, k <> key ->
      remoteBrowserConnections (snd run) !! k = remoteBrowserConnections w !! k)
  /\ NoDup (map fst (map_to_list (remoteBrowserConnections (snd run))))
  /\ (forall b w0 k c,
        remoteBrowserConnections w0 !! k = Some c -> conn_browser c <> b ->
        remoteBrowserConnections (disconnected b w0) !! k = Some c)
  /\ (forall b w0 k,
        remoteBrowserConnections w0 !! k = None ->
        remoteBrowserConnections (disconnected b w0) !! k = None).
Proof.
  intros looked Hrecord key cached run.
  pose proof (getRemoteBrowser_reuses env remoteBrowserID userId w record Hrecord) as Hreuse.
  pose proof (getRemoteBrowser_reconnects env remoteBrowserID userId w record Hrecord) as Hfresh.
  cbv zeta in Hreuse, Hfresh. fold looked key cached run in Hreuse, Hfresh.
  destruct (cache_valid env looked w record) eqn:Hvalid.
  - destruct (Hreuse eq_refl) as (c & Hc & Hrun). clear Hreuse Hfresh.
    split; [eauto |]. split; [| split; [| split; [| split; [| split]]]].
    + intros _. split; [reflexivity |]. intros _. exists c. now rewrite Hrun.
    + intros h Hh. rewrite Hrun in Hh |- *. injection Hh as <-. exists c. tidy.
      split; [exact Hc |]. split; [reflexivity |].
      unfold cache_valid in Hvalid. fold key cached in Hvalid. rewrite Hc in Hvalid.
      apply andb_true_iff in Hvalid as [_ Hurl]. now apply String.eqb_eq.
    + intros k _. now rewrite Hrun.
    + apply NoDup_fst_map_to_list.
    + intros b w0 k c0. apply disconnected_keeps_others.
    + intros b w0 k. apply disconnected_keeps_absent.
  - destruct (Hfresh eq_refl) as (Htrace & Hconnect). clear Hreuse Hfresh.
    set (connecting := EvConnect (rb_url record) :: closes (conn_browser <$> cached) ++ looked) in *.
    split; [| split; [| split; [| split; [| split; [| split]]]]].
    + split; [exact Htrace |].
      destruct (chromium_connect env connecting) as [[]|e].
      * destruct Hconnect as (Hres & Hcache & Hobs & Hnext).
        split; [exact Hres |]. split; [exact Hcache |]. split; [exact Hobs |].
        apply disconnected_removes with (mkConnection (rb_url record) (next_object w)).
        -- rewrite Hcache. apply lookup_insert_eq.
        -- reflexivity.
        -- rewrite Hobs. apply in_or_app. right. now left.
      * destruct Hconnect as (Hres & Hcache & _). now split.
    + intros Halloc. split; [| discriminate].
      intros (c & Hc & Hres). exfalso.
      destruct (chromium_connect env connecting) as [[]|e].
      * destruct Hconnect as (Hres' & _). rewrite Hres' in Hres. injection Hres as Hfreshid.
        specialize (Halloc key c Hc). lia.
      * destruct Hconnect as (Hres' & _). congruence.
    + intros h Hh. destruct (chromium_connect env connecting) as [[]|e].
      * destruct Hconnect as (Hres & Hcache & _). rewrite Hres in Hh. injection Hh as <-.
        exists (mkConnection (rb_url record) (next_object w)).
        rewrite Hcache, lookup_insert_eq. auto.
      * destruct Hconnect as (Hres & _). congruence.
    + intros k Hk. destruct (chromium_connect env connecting) as [[]|e].
      * destruct Hconnect as (_ & Hcache & _). rewrite Hcache. now apply lookup_insert_ne.
      * destruct Hconnect as (_ & Hcache & _). rewrite Hcache. now apply lookup_delete_ne.
    + apply NoDup_fst_map_to_list.
    + intros b w0 k c0. apply disconnected_keeps_others.
    + intros b w0 k. apply disconnected_keeps_absent.
Qed.


(** A cached connection is reused while it is connected under the record's
    URL; a moved record or a disconnected browser closes it and connects
    anew, leaving a single entry for the id. *)
Example remote_cache_runs :
  let reused := getRemoteBrowser Demo.calm 7 1 Demo.warm in
  let moved := getRemoteBrowser Demo.calm 7 1 Demo.moved in
  let unplugged := getRemoteBrowser Demo.unplugged 7 1 Demo.warm in
  (fst reused = Ok 0%nat /\ trace (snd reused) = [EvRemoteBrowserGet 7 1])
  /\ (fst moved = Ok 1%nat
      /\ trace (snd moved)
         = [EvConnect "ws://remote:3000"; EvBrowserClose 0%nat; EvRemoteBrowserGet 7 1]
      /\ map_to_list (remoteBrowserConnections (snd moved))
         = [(7, mkConnection "ws://remote:3000" 1%nat)])
  /\ (fst unplugged = Ok 1%nat
      /\ trace (snd unplugged)
         = [EvConnect "ws://remote:3000"; EvBrowserClose 0%nat; EvRemoteBrowserGet 7 1]
      /\ map_to_list (remoteBrowserConnections (snd unplugged))
         = [(7, mkConnection "ws://remote:3000" 1%nat)]
      /\ remoteBrowserConnections (disconnected 0%nat (snd unplugged)) !! 7
         = Some (mkConnection "ws://remote:3000" 1%nat)
      /\ remoteBrowserConnections (disconnected 1%nat (snd unplugged)) !! 7 = None).
Proof. vm_compute. repeat split. Qed.

(** ** Remote recovery *)




Lemma runCheck_pool_silent env monitor server browser f :
  (forall ev, page_event ev = true -> f ev = false) ->
  (forall b o, f (EvNewContext b o) = false) -> (forall c, f (EvContextClose c) = false) ->
  calls_at_most f 0 (runCheck env monitor server browser).
Proof.
  intros Hpage Hnew Hclose. unfold runCheck.
  apply silent_bind; [apply calls_call_other, Hnew | intros _].
  apply silent_bind; [apply calls_new_object | intros c].
  apply (calls_try_finally _ 0 0).
  - now apply runCheck_body_silent.
  - apply calls_ignore_errors, calls_call_other, Hclose.
Qed.





(** A remote check whose first load fails with "Target closed" evicts,
    reconnects and succeeds; one that keeps failing with it stops after the
    second attempt; one that is refused stops after the first. *)
Example remote_recovery_runs :
  let recovered := check Demo.drops_once Demo.remote Demo.server Demo.cold in
  let dropped := check Demo.always_drops Demo.remote Demo.server Demo.cold in
  let refused := check Demo.refuses Demo.remote Demo.server Demo.cold in
  (fst recovered = Ok tt
   /\ count is_newContext (trace (snd recovered)) = 2%nat
   /\ count is_connect (trace (snd recovered)) = 2%nat
   /\ count is_browser_close (trace (snd recovered)) = 1%nat)
  /\ (fst dropped = Err Demo.target_closed
      /\ count is_newContext (trace (snd dropped)) = 2%nat)
  /\ (fst refused = Err Demo.refused
      /\ count is_newContext (trace (snd refused)) = 1%nat
      /\ count is_connect (trace (snd refused)) = 1%nat).
Proof. vm_compute. repeat split. Qed.

(** On a fresh process the first acquisition of remote browser 7 connects
    and stores browser 0; the second returns it from the cache with no new
    connection; a "disconnected" event of browser 0 empties the entry. *)
Lemma remote_cache_validity_witness :
  let record := mkRemoteBrowser 7 "remote" "ws://remote:3000" in
  let first := getRemoteBrowser Demo.calm 7 1 Demo.cold in
  let again := getRemoteBrowser Demo.calm 7 1 (snd first) in
  RemoteBrowser_get Demo.calm (EvRemoteBrowserGet 7 1 :: trace Demo.cold) = Ok (Some record)
  /\ fst first = Ok 0%nat
  /\ remoteBrowserConnections (snd first) !! 7 = Some (mkConnection "ws://remote:3000" 0%nat)
  /\ remoteBrowserConnections (disconnected 0%nat (snd first)) !! 7 = None
  /\ cache_allocated (snd first)
  /\ again = (Ok 0%nat, set_trace (EvRemoteBrowserGet 7 1 :: trace (snd first)) (snd first))
  /\ ((exists c, remoteBrowserConnections (snd first) !! 7 = Some c
                 /\ fst again = Ok (conn_browser c))
      <-> cache_valid Demo.calm (EvRemoteBrowserGet 7 1 :: trace (snd first)) (snd first) record
          = true).
Proof.
  intros record first again.
  destruct (remote_cache_validity Demo.calm 7 1 Demo.cold record eq_refl)
    as (Hcold & _ & Hentry & _).
  change (cache_valid Demo.calm (EvRemoteBrowserGet 7 1 :: trace Demo.cold) Demo.cold record)
    with false in Hcold.
  cbv zeta in Hcold. destruct Hcold as (_ & Hconnected).
  change (chromium_connect Demo.calm _) with (@Ok unit tt) in Hconnected.
  destruct Hconnected as (Hfirst & Hcache & _ & Hgone).
  fold first in Hfirst, Hcache, Hgone, Hentry.
  assert (Hlookup : remoteBrowserConnections (snd first) !! 7
                    = Some (mkConnection "ws://remote:3000" 0%nat)).
  { destruct (Hentry 0%nat Hfirst) as ([u b] & Hc & Hb & Hu). cbn in Hb, Hu. now subst. }
  assert (Halloc : cache_allocated (snd first)).
  { intros k c Hk. rewrite Hcache in Hk.
    destruct (decide (k = 7)) as [-> | Hne].
    - rewrite lookup_insert_eq in Hk. injection Hk as <-. vm_compute. lia.
    - rewrite lookup_insert_ne in Hk by (intros Heq; apply Hne; symmetry; exact Heq).
      vm_compute in Hk. discriminate. }
  split; [reflexivity |]. split; [exact Hfirst |]. split; [exact Hlookup |].
  split; [exact Hgone |]. split; [exact Halloc |].
  destruct (remote_cache_validity Demo.calm 7 1 (snd first) record eq_refl)
    as (Hwarm & Hiff & _).
  assert (Hvalid : cache_valid Demo.calm (EvRemoteBrowserGet 7 1 :: trace (snd first))
                     (snd first) record = true).
  { unfold cache_valid. cbn [rb_id record]. rewrite Hlookup. reflexivity. }
  rewrite Hvalid in Hwarm. destruct Hwarm as (c & Hc & Hrun).
  cbn [rb_id record] in Hc. rewrite Hlookup in Hc. injection Hc as <-.
  split; [exact Hrun | exact (Hiff Halloc)].
Defined.


(** * Further properties of the module *)

(** ** Finding the executable *)

Lemma probed_cons e candidates t :
  probed (e :: candidates) t = probed candidates (EvCommandExists e :: t).
Proof. unfold probed. cbn [map rev]. now rewrite <- app_assoc. Qed.

Lemma all_missing_nil env t : all_missing env [] t.
Proof. intros [|b before] q after H; discriminate. Qed.

Lemma all_missing_cons env e candidates t :
  commandExists env (EvCommandExists e :: t) = Ok false ->
  all_missing env candidates (EvCommandExists e :: t) ->
  all_missing env (e :: candidates) t.
Proof.
  intros He Hrest [|b before] q after H; injection H as -> ->.
  - exact He.
  - rewrite probed_cons. now apply Hrest with after.
Qed.

(** What the search loop does: the first candidate answered "yes" is
    returned and remembered; a probe that throws ends the search; when every
    candidate is answered "no" the search throws the not-found error. *)
Lemma findChrome_search_run env executables w :
  match findChrome_search env executables w with
  | (Ok p, w') =>
      exists before after,
        executables = before ++ p :: after
        /\ all_missing env before (trace w)
        /\ commandExists env (EvCommandExists p :: probed before (trace w)) = Ok true
        /\ trace w' = EvCommandExists p :: probed before (trace w)
        /\ lastAutoDetectChromeExecutable w' = Some p
  | (Err e, w') =>
      lastAutoDetectChromeExecutable w' = lastAutoDetectChromeExecutable w
      /\ ((e = chromium_not_found
           /\ all_missing env executables (trace w)
           /\ trace w' = probed executables (trace w))
          \/ (exists before q after,
                executables = before ++ q :: after
                /\ all_missing env before (trace w)
                /\ commandExists env (EvCommandExists q :: probed before (trace w)) = Err e
                /\ trace w' = EvCommandExists q :: probed before (trace w)))
  end.
Proof.
  revert w. induction executables as [|e rest IH]; intros w.
  - cbn. split; [reflexivity |]. left. split; [reflexivity |]. split; [apply all_missing_nil | reflexivity].
  - cbn [findChrome_search]. run.
    destruct (commandExists env (EvCommandExists e :: trace w)) as [[|]|err] eqn:Hprobe.
    + exists [], rest. repeat split; auto using all_missing_nil.
    + specialize (IH (set_trace (EvCommandExists e :: trace w) w)).
      destruct (findChrome_search env rest _) as [[p|err] w']; tidy.
      * destruct IH as (before & after & -> & Hmiss & Hyes & Htrace & Hlast).
        exists (e :: before), after. rewrite probed_cons.
        repeat split; auto using all_missing_cons.
      * destruct IH as (Hlast & [(-> & Hmiss & Htrace) | (before & q & after & -> & Hmiss & Herr & Htrace)]).
        -- split; [exact Hlast |]. left. rewrite probed_cons. auto using all_missing_cons.
        -- split; [exact Hlast |]. right. exists (e :: before), q, after. rewrite probed_cons.
           repeat split; auto using all_missing_cons.
    + split; [reflexivity |]. right. exists [], e, rest. repeat split; auto using all_missing_nil.
Qed.

Lemma in_probed q candidates t :
  In q candidates -> In (EvCommandExists q) (probed candidates t).
Proof.
  intros Hin. unfold probed. apply in_or_app. left.
  apply in_rev. rewrite rev_involutive. now apply in_map.
Qed.

Lemma count_probed candidates t :
  count is_probe (probed candidates t) = (length candidates + count is_probe t)%nat.
Proof.
  revert t. induction candidates as [|c candidates IH]; intros t; [reflexivity |].
  rewrite probed_cons, IH. cbn. lia.
Qed.

(** X1. The search loop asks about the candidates in list order and stops
    at the first one [commandExists] confirms: every candidate before it was
    answered "no", none after it is asked about, and it becomes the
    remembered executable. *)
Theorem findChrome_search_first_hit env executables w p w' :
  findChrome_search env executables w = (Ok p, w') ->
  exists before after,
    executables = before ++ p :: after
    /\ all_missing env before (trace w)
    /\ commandExists env (EvCommandExists p :: probed before (trace w)) = Ok true
    /\ trace w' = EvCommandExists p :: probed before (trace w)
    /\ count is_probe (trace w') = (S (length before) + count is_probe (trace w))%nat
    /\ lastAutoDetectChromeExecutable w' = Some p.
Proof.
  intros Hrun. pose proof (findChrome_search_run env executables w) as H.
  rewrite Hrun in H. destruct H as (before & after & Hsplit & Hmiss & Hyes & Htrace & Hlast).
  exists before, after. repeat split; try assumption.
  rewrite Htrace. cbn [count is_probe]. now rewrite count_probed.
Qed.

Lemma findChrome_ok_run env executables w p w' :
  findChrome env executables w = (Ok p, w') ->
  (exists rest, trace w' = EvCommandExists p :: rest)
  /\ commandExists env (trace w') = Ok true
  /\ lastAutoDetectChromeExecutable w' = Some p
  /\ (In p executables \/ lastAutoDetectChromeExecutable w = Some p).
Proof.
  assert (Hsearch : forall w0, findChrome_search env executables w0 = (Ok p, w') ->
            (exists rest, trace w' = EvCommandExists p :: rest)
            /\ commandExists env (trace w') = Ok true
            /\ lastAutoDetectChromeExecutable w' = Some p
            /\ In p executables).
  { intros w0 Hrun. pose proof (findChrome_search_run env executables w0) as H.
    rewrite Hrun in H. destruct H as (before & after & -> & _ & Hyes & Htrace & Hlast).
    rewrite Htrace. repeat split; eauto. apply in_or_app. right. now left. }
  unfold findChrome. run.
  destruct (lastAutoDetectChromeExecutable w) as [l|] eqn:Hlast.
  - destruct (String.eqb l "").
    + intros Hrun. destruct (Hsearch _ Hrun) as (? & ? & ? & ?). auto.
    + destruct (commandExists env (EvCommandExists l :: trace w)) as [[|]|err] eqn:Hprobe.
      * intros [= <- <-]. tidy. rewrite Hlast. eauto 10.
      * intros Hrun. destruct (Hsearch _ Hrun) as (? & ? & ? & ?). auto.
      * discriminate.
  - intros Hrun. destruct (Hsearch _ Hrun) as (? & ? & ? & ?). auto.
Qed.

(** X2. Whatever [findChrome] returns was confirmed by the [commandExists]
    call it made last; it is one of the candidates or the executable
    remembered from an earlier search; and it is the remembered executable
    afterwards. *)
Theorem findChrome_returns_confirmed env executables w p w' :
  findChrome env executables w = (Ok p, w') ->
  (exists rest, trace w' = EvCommandExists p :: rest)
  /\ commandExists env (trace w') = Ok true
  /\ lastAutoDetectChromeExecutable w' = Some p
  /\ (In p executables \/ lastAutoDetectChromeExecutable w = Some p).
Proof. apply findChrome_ok_run. Qed.

Lemma findChrome_failure_run env executables w e w' :
  findChrome env executables w = (Err e, w') ->
  lastAutoDetectChromeExecutable w' = lastAutoDetectChromeExecutable w.
Proof.
  assert (Hsearch : forall w0, findChrome_search env executables w0 = (Err e, w') ->
            lastAutoDetectChromeExecutable w' = lastAutoDetectChromeExecutable w0).
  { intros w0 Hrun. pose proof (findChrome_search_run env executables w0) as H.
    rewrite Hrun in H. apply H. }
  unfold findChrome. run.
  destruct (lastAutoDetectChromeExecutable w) as [l|] eqn:Hlast.
  - destruct (String.eqb l "").
    + intros Hrun. now rewrite (Hsearch _ Hrun).
    + destruct (commandExists env (EvCommandExists l :: trace w)) as [[|]|err] eqn:Hprobe.
      * discriminate.
      * intros Hrun. now rewrite (Hsearch _ Hrun).
      * intros [= <- <-]. tidy. auto.
  - intros Hrun. now rewrite (Hsearch _ Hrun).
Qed.

(** X3. A failed [findChrome] leaves the remembered executable as it was.
    It fails with the not-found error after asking about every candidate, or
    with the error thrown by the [commandExists] call it made last. *)
Theorem findChrome_failure env executables w e w' :
  findChrome env executables w = (Err e, w') ->
  lastAutoDetectChromeExecutable w' = lastAutoDetectChromeExecutable w
  /\ ((e = chromium_not_found
       /\ forall q, In q executables -> In (EvCommandExists q) (trace w'))
      \/ commandExists env (trace w') = Err e).
Proof.
  assert (Hsearch : forall w0, findChrome_search env executables w0 = (Err e, w') ->
            lastAutoDetectChromeExecutable w' = lastAutoDetectChromeExecutable w0
            /\ ((e = chromium_not_found
                 /\ forall q, In q executables -> In (EvCommandExists q) (trace w'))
                \/ commandExists env (trace w') = Err e)).
  { intros w0 Hrun. pose proof (findChrome_search_run env executables w0) as H.
    rewrite Hrun in H.
    destruct H as (Hlast & [(-> & _ & Htrace) | (before & q & after & _ & _ & Herr & Htrace)]).
    - split; [exact Hlast |]. left. split; [reflexivity |].
      intros q Hq. rewrite Htrace. now apply in_probed.
    - split; [exact Hlast |]. right. now rewrite Htrace. }
  unfold findChrome. run.
  destruct (lastAutoDetectChromeExecutable w) as [l|] eqn:Hlast.
  - destruct (String.eqb l "").
    + intros Hrun. destruct (Hsearch _ Hrun) as (Hl & H). now rewrite Hl.
    + destruct (commandExists env (EvCommandExists l :: trace w)) as [[|]|err] eqn:Hprobe.
      * discriminate.
      * intros Hrun. destruct (Hsearch _ Hrun) as (Hl & H). now rewrite Hl.
      * intros [= <- <-]. tidy. auto.
  - intros Hrun. destruct (Hsearch _ Hrun) as (Hl & H). now rewrite Hl.
Qed.

(** X4. The remembered executable is a one-probe shortcut: after a
    successful [findChrome] whose result is not the empty string (no
    allow-list holds it), a later [findChrome], with any candidate list, asks
    about the remembered executable alone and returns it as long as
    [commandExists] still confirms it. *)
Theorem findChrome_reuses_last env executables w p w1 :
  findChrome env executables w = (Ok p, w1) ->
  p <> "" ->
  commandExists env (EvCommandExists p :: trace w1) = Ok true ->
  forall others,
    findChrome env others w1 = (Ok p, set_trace (EvCommandExists p :: trace w1) w1).
Proof.
  intros Hrun Hp Hstill others.
  destruct (findChrome_ok_run env executables w p w1 Hrun) as (_ & _ & Hlast & _).
  unfold findChrome. run. rewrite Hlast.
  apply String.eqb_neq in Hp. rewrite Hp, Hstill. reflexivity.
Qed.

(** On a host where only [google-chrome] is installed, the search over the
    Linux candidates answers [google-chrome] after three probes. *)
Lemma findChrome_search_first_hit_witness :
  let run := findChrome_search Lab.only_google_chrome (allowedList Lab.only_google_chrome) Demo.cold in
  fst run = Ok "google-chrome"
  /\ exists before after,
      allowedList Lab.only_google_chrome = before ++ "google-chrome" :: after
      /\ all_missing Lab.only_google_chrome before (trace Demo.cold)
      /\ commandExists Lab.only_google_chrome
           (EvCommandExists "google-chrome" :: probed before (trace Demo.cold)) = Ok true
      /\ trace (snd run) = EvCommandExists "google-chrome" :: probed before (trace Demo.cold)
      /\ count is_probe (trace (snd run)) = (S (length before) + count is_probe (trace Demo.cold))%nat
      /\ lastAutoDetectChromeExecutable (snd run) = Some "google-chrome".
Proof.
  intros run. split; [reflexivity |].
  assert (Hrun : findChrome_search Lab.only_google_chrome (allowedList Lab.only_google_chrome)
                   Demo.cold = (Ok "google-chrome", snd run)) by (vm_compute; reflexivity).
  exact (findChrome_search_first_hit _ _ _ _ _ Hrun).
Defined.

Lemma findChrome_returns_confirmed_witness :
  let run := findChrome Lab.only_google_chrome (allowedList Lab.only_google_chrome) Demo.cold in
  fst run = Ok "google-chrome"
  /\ commandExists Lab.only_google_chrome (trace (snd run)) = Ok true
  /\ lastAutoDetectChromeExecutable (snd run) = Some "google-chrome".
Proof.
  intros run. split; [reflexivity |].
  assert (Hrun : findChrome Lab.only_google_chrome (allowedList Lab.only_google_chrome)
                   Demo.cold = (Ok "google-chrome", snd run)) by (vm_compute; reflexivity).
  destruct (findChrome_returns_confirmed _ _ _ _ _ Hrun) as (_ & Hyes & Hlast & _).
  split; assumption.
Defined.

Lemma findChrome_failure_witness :
  let run := findChrome Lab.no_browser (allowedList Lab.no_browser) Demo.cold in
  fst run = Err chromium_not_found
  /\ lastAutoDetectChromeExecutable (snd run) = None
  /\ count is_probe (trace (snd run)) = 7%nat.
Proof.
  intros run. split; [reflexivity |].
  assert (Hrun : findChrome Lab.no_browser (allowedList Lab.no_browser) Demo.cold
                 = (Err chromium_not_found, snd run)) by (vm_compute; reflexivity).
  destruct (findChrome_failure _ _ _ _ _ Hrun) as (Hlast & _).
  split; [exact Hlast | reflexivity].
Defined.

Lemma findChrome_reuses_last_witness :
  let first := findChrome Lab.only_google_chrome (allowedList Lab.only_google_chrome) Demo.cold in
  fst first = Ok "google-chrome"
  /\ findChrome Lab.only_google_chrome [] (snd first)
     = (Ok "google-chrome",
        set_trace (EvCommandExists "google-chrome" :: trace (snd first)) (snd first)).
Proof.
  intros first. split; [reflexivity |].
  assert (Hrun : findChrome Lab.only_google_chrome (allowedList Lab.only_google_chrome)
                   Demo.cold = (Ok "google-chrome", snd first)) by (vm_compute; reflexivity).
  apply (findChrome_reuses_last _ _ _ _ _ Hrun).
  - discriminate.
  - reflexivity.
Defined.

(** ** What a computation leaves alone *)

Section Keeps.

Context {B : Type} (f : World -> B).
Hypothesis f_not_trace : forall t w, f (set_trace t w) = f w.
Hypothesis f_not_objects : forall n w, f (set_next_object n w) = f w.

Lemma keeps_ret {A} (a : A) : keeps f (mret a).
Proof. intros w. reflexivity. Qed.

Lemma keeps_throw {A} e : keeps f (@throw A e).
Proof. intros w. reflexivity. Qed.

Lemma keeps_lift {A} (r : Res A) : keeps f (lift r).
Proof. intros w. reflexivity. Qed.

Lemma keeps_get {A} (g : World -> A) : keeps f (get g).
Proof. intros w. reflexivity. Qed.

Lemma keeps_call {A} ev (o : history -> Res A) : keeps f (call ev o).
Proof. intros w. apply f_not_trace. Qed.

Lemma keeps_new_object : keeps f new_object.
Proof. intros w. apply f_not_objects. Qed.

Lemma keeps_modify (g : World -> World) : (forall w, f (g w) = f w) -> keeps f (modify g).
Proof. intros Hg w. apply Hg. Qed.

Lemma keeps_bind {A C} (m : M A) (k : A -> M C) :
  keeps f m -> (forall a, keeps f (k a)) -> keeps f (m ≫= k).
Proof.
  intros Hm Hk w. unfold mbind, M_bind, bind. specialize (Hm w).
  destruct (m w) as [[a|e] w1]; cbn [snd] in *; [| exact Hm].
  now rewrite Hk.
Qed.

Lemma keeps_try_catch {A} (m : M A) h :
  keeps f m -> (forall e, keeps f (h e)) -> keeps f (try_catch m h).
Proof.
  intros Hm Hh w. unfold try_catch. specialize (Hm w).
  destruct (m w) as [[a|e] w1]; cbn [snd] in *; [exact Hm |].
  now rewrite Hh.
Qed.

Lemma keeps_try_finally {A} (m : M A) cleanup :
  keeps f m -> keeps f cleanup -> keeps f (try_finally m cleanup).
Proof.
  intros Hm Hc w. unfold try_finally. specialize (Hm w).
  destruct (m w) as [r w1]; cbn [snd] in *. specialize (Hc w1).
  destruct (cleanup w1) as [[u|e] w2]; cbn [snd] in *; congruence.
Qed.

Lemma keeps_ignore_errors (m : M unit) : keeps f m -> keeps f (ignore_errors m).
Proof. intros Hm. unfold ignore_errors. apply keeps_try_catch; [exact Hm | intros; apply keeps_ret]. Qed.

End Keeps.

Ltac kept :=
  repeat first
    [ progress intros
    | apply keeps_bind
    | apply keeps_try_catch
    | apply keeps_try_finally
    | apply keeps_ignore_errors
    | apply keeps_ret
    | apply keeps_throw
    | apply keeps_lift
    | apply keeps_get
    | apply keeps_call; intros ? []; reflexivity
    | apply keeps_new_object; intros ? []; reflexivity
    | apply keeps_modify; intros []; reflexivity
    | match goal with
      | |- keeps _ (if ?c then _ else _) => destruct c
      | |- keeps _ (match ?o with Some _ => _ | None => _ end) => destruct o
      | |- keeps _ (match ?o with Ok _ => _ | Err _ => _ end) => destruct o
      end ].

(** ** Preparing the executable path *)

Lemma installChromiumViaApt_keeps_detected env path :
  keeps lastAutoDetectChromeExecutable (installChromiumViaApt env path).
Proof.
  unfold installChromiumViaApt. kept.
  repeat match goal with |- keeps _ (match ?x with _ => _ end) => destruct x end; kept.
Qed.

Lemma existsb_eqb_In p l : existsb (String.eqb p) l = true <-> In p l.
Proof.
  rewrite existsb_exists. split.
  - intros (x & Hx & Heq). apply String.eqb_eq in Heq. now subst.
  - intros Hin. exists p. split; [exact Hin | apply String.eqb_refl].
Qed.

Lemma isAllowed_spec env p :
  isAllowedChromeExecutable env p = allow_all env || existsb (String.eqb p) (allowedList env).
Proof. unfold isAllowedChromeExecutable, allow_all. now destruct (_ || _). Qed.

(** X5. An explicit executable path is decided on the spot: no call is
    made and nothing changes.  A path is explicit when it is not empty and
    its locale lower-case form, as the runtime computes it, is not the
    bundled-browser sentinel.  It is returned as it is when the override is
    on or the path is in the allow-list, and rejected with the not-allowed
    error otherwise. *)
Theorem explicit_path_gate env p w :
  p <> "" ->
  toLocaleLowerCase env p <> "#playwright_chromium" ->
  (allow_all env = true \/ In p (allowedList env) ->
   prepareChromeExecutable env (Some p) w = (Ok (Some p), w))
  /\ (allow_all env = false -> ~ In p (allowedList env) ->
      prepareChromeExecutable env (Some p) w = (Err chromium_not_allowed, w)).
Proof.
  intros Hempty Hsentinel. apply String.eqb_neq in Hempty, Hsentinel.
  unfold prepareChromeExecutable. rewrite Hsentinel, Hempty, isAllowed_spec. split.
  - intros [Hall | Hin].
    + now rewrite Hall.
    + apply existsb_eqb_In in Hin. rewrite Hin, orb_true_r. reflexivity.
  - intros Hall Hout. rewrite Hall. cbn [orb].
    destruct (existsb (String.eqb p) (allowedList env)) eqn:Hex; [| reflexivity].
    now apply existsb_eqb_In in Hex.
Qed.

(** On Linux, [/opt/chrome/chrome] is rejected by default and accepted once
    the environment sets [UPTIME_KUMA_ALLOW_ALL_CHROME_EXEC=1], while
    [/usr/bin/chromium] is accepted either way. *)
Lemma explicit_path_gate_witness :
  let overridden :=
    Lab.with_getenv
      (fun v => if String.eqb v "UPTIME_KUMA_ALLOW_ALL_CHROME_EXEC" then Some "1" else None)
      Demo.calm in
  prepareChromeExecutable Demo.calm (Some "/opt/chrome/chrome") Demo.cold
  = (Err chromium_not_allowed, Demo.cold)
  /\ prepareChromeExecutable overridden (Some "/opt/chrome/chrome") Demo.cold
     = (Ok (Some "/opt/chrome/chrome"), Demo.cold)
  /\ prepareChromeExecutable Demo.calm (Some "/usr/bin/chromium") Demo.cold
     = (Ok (Some "/usr/bin/chromium"), Demo.cold).
Proof.
  intros overridden. split; [| split].
  - apply (explicit_path_gate Demo.calm "/opt/chrome/chrome" Demo.cold);
      [discriminate | discriminate | reflexivity |].
    cbn. intuition discriminate.
  - apply (explicit_path_gate overridden "/opt/chrome/chrome" Demo.cold);
      [discriminate | discriminate |]. left. reflexivity.
  - apply (explicit_path_gate Demo.calm "/usr/bin/chromium" Demo.cold);
      [discriminate | discriminate |]. right. cbn. tauto.
Defined.

(** X6. With the override off, every path [prepareChromeExecutable] returns
    is a candidate of the allow-list, or [/usr/bin/chromium] in a container;
    and whether the override is on or off, the remembered executable stays a
    candidate of the allow-list. *)
Theorem prepared_path_is_allowed env executablePath w :
  detected_is_allowed env w ->
  detected_is_allowed env (snd (prepareChromeExecutable env executablePath w))
  /\ (allow_all env = false ->
      forall q, fst (prepareChromeExecutable env executablePath w) = Ok (Some q) ->
                In q (allowedList env)
                \/ (env_truthy env "UPTIME_KUMA_IS_CONTAINER" = true /\ q = "/usr/bin/chromium")).
Proof.
  intros Hinv.
  assert (Hauto : forall w0, detected_is_allowed env w0 ->
            let auto :=
              (if env_truthy env "UPTIME_KUMA_IS_CONTAINER"
               then installChromiumViaApt env "/usr/bin/chromium" ≫= fun _ => mret (Some "/usr/bin/chromium")
               else findChrome env (allowedList env) ≫= fun found => mret (Some found)) w0 in
            detected_is_allowed env (snd auto)
            /\ forall q, fst auto = Ok (Some q) ->
                 In q (allowedList env)
                 \/ (env_truthy env "UPTIME_KUMA_IS_CONTAINER" = true /\ q = "/usr/bin/chromium")).
  { intros w0 Hw0. cbv zeta. destruct (env_truthy env "UPTIME_KUMA_IS_CONTAINER").
    - pose proof (installChromiumViaApt_keeps_detected env "/usr/bin/chromium" w0) as Hkeep.
      unfold mbind, M_bind, bind, mret, M_ret, ret.
      destruct (installChromiumViaApt env "/usr/bin/chromium" w0) as [[[]|e] w1]; cbn [fst snd] in *.
      + split; [intros l Hl; apply Hw0; congruence |]. intros q [= <-]. auto.
      + split; [intros l Hl; apply Hw0; congruence | discriminate].
    - unfold mbind, M_bind, bind, mret, M_ret, ret.
      destruct (findChrome env (allowedList env) w0) as [[p|e] w1] eqn:Hfind; cbn [fst snd].
      + destruct (findChrome_ok_run env _ _ _ _ Hfind) as (_ & _ & Hlast & Hfrom).
        assert (Hp : In p (allowedList env)) by (destruct Hfrom as [Hin | Hold]; auto).
        split; [intros l Hl; congruence |]. intros q [= <-]. auto.
      + pose proof (findChrome_failure_run env _ _ _ _ Hfind) as Hlast.
        split; [intros l Hl; apply Hw0; congruence | discriminate]. }
  specialize (Hauto w Hinv). cbv zeta in Hauto. destruct Hauto as [Hkeep Hfrom].
  unfold prepareChromeExecutable.
  destruct executablePath as [p|]; [| split; [exact Hkeep | intros _; exact Hfrom]].
  destruct (String.eqb (toLocaleLowerCase env p) "#playwright_chromium").
  { split; [exact Hinv | discriminate]. }
  destruct (String.eqb p ""); [split; [exact Hkeep | intros _; exact Hfrom] |].
  rewrite isAllowed_spec.
  destruct (allow_all env) eqn:Hall; cbn [orb negb fst snd].
  - split; [exact Hinv | discriminate].
  - destruct (existsb (String.eqb p) (allowedList env)) eqn:Hex; cbn [negb fst snd].
    + split; [exact Hinv |]. intros _ q [= <-]. left. now apply existsb_eqb_In.
    + split; [exact Hinv | discriminate].
Qed.

(** With nothing configured on a host where only [google-chrome] is
    installed, the prepared path is [google-chrome], a candidate of the
    allow-list, and it is remembered. *)
Lemma prepared_path_is_allowed_witness :
  let env := Lab.only_google_chrome in
  let run := prepareChromeExecutable env None Demo.cold in
  detected_is_allowed env Demo.cold
  /\ fst run = Ok (Some "google-chrome")
  /\ In "google-chrome" (allowedList env)
  /\ detected_is_allowed env (snd run).
Proof.
  intros env run.
  assert (Hcold : detected_is_allowed env Demo.cold) by (intros l Hl; discriminate).
  destruct (prepared_path_is_allowed env None Demo.cold Hcold) as [Hkeep Hfrom].
  split; [exact Hcold |]. split; [reflexivity |]. split; [| exact Hkeep].
  destruct (Hfrom eq_refl "google-chrome" eq_refl) as [Hin | [Hcontainer _]];
    [exact Hin | discriminate].
Defined.

(** X7. [installChromiumViaApt] asks first whether the executable is there
    and runs [apt] at most once, not at all when it is.  It returns only in
    two ways: at once, when the executable is there, or after [apt] exited
    with code 0 and the version query was made.  An error of the first
    question is thrown as it is; exit code 100 is the
    installation-in-progress error and any other exit code is reported in
    the error message. *)
Theorem install_outcome env path w :
  let probe := EvCommandExists path :: trace w in
  let run := installChromiumViaApt env path w in
  calls_at_most is_apt 1 (installChromiumViaApt env path)
  /\ (fst run = Ok tt ->
      (commandExists env probe = Ok true /\ snd run = set_trace probe w)
      \/ (commandExists env probe = Ok false
          /\ apt_exit_code env (EvAptInstall :: probe) = Some 0
          /\ trace (snd run) = EvExecVersion path :: EvAptInstall :: probe))
  /\ (commandExists env probe = Ok true -> run = (Ok tt, set_trace probe w))
  /\ (forall e, commandExists env probe = Err e -> run = (Err e, set_trace probe w))
  /\ (commandExists env probe = Ok false ->
      apt_exit_code env (EvAptInstall :: probe) = Some 100 ->
      run = (Err installing_chromium, set_trace (EvAptInstall :: probe) w))
  /\ (commandExists env probe = Ok false ->
      forall code,
        apt_exit_code env (EvAptInstall :: probe) = Some code -> code <> 0 -> code <> 100 ->
        run = (Err (Error ("apt install chromium failed with code " ++ pretty code)%string),
               set_trace (EvAptInstall :: probe) w)).
Proof.
  intros probe run. split; [| split; [| split; [| split; [| split]]]].
  - unfold installChromiumViaApt.
    apply (calls_bind _ 0 1); [apply calls_call_other; reflexivity | intros found].
    destruct found; [apply (calls_weaken _ 0); [lia | apply calls_ret] |].
    apply (calls_bind _ 1 0); [apply calls_call | intros code].
    repeat match goal with |- calls_at_most _ _ (match ?x with _ => _ end) => destruct x end;
      silent.
  - subst run. unfold installChromiumViaApt. run. fold probe.
    destruct (commandExists env probe) as [[|]|e]; cbn [fst snd].
    + intros _. left. split; reflexivity.
    + tidy. fold probe.
      destruct (apt_exit_code env (EvAptInstall :: probe)) as [code|]; cbn [fst snd];
        [| discriminate].
      destruct code as [|c|c]; cbn [fst snd].
      * intros _. right. repeat split.
      * repeat match goal with |- context [match ?p with xI _ => _ | xO _ => _ | xH => _ end] =>
                 destruct p end; cbn [fst]; discriminate.
      * discriminate.
    + discriminate.
  - intros Hthere. subst run. unfold installChromiumViaApt. run. fold probe. now rewrite Hthere.
  - intros e Hthrown. subst run. unfold installChromiumViaApt. run. fold probe.
    now rewrite Hthrown.
  - intros Hmissing Hcode. subst run. unfold installChromiumViaApt. run. fold probe.
    rewrite Hmissing. tidy. fold probe. now rewrite Hcode.
  - intros Hmissing code Hcode Hnonzero Hbusy. subst run. unfold installChromiumViaApt. run.
    fold probe. rewrite Hmissing. tidy. fold probe. rewrite Hcode.
    destruct code as [|c|c]; [congruence | | reflexivity].
    repeat match goal with |- context [match ?p with xI _ => _ | xO _ => _ | xH => _ end] =>
             destruct p end; first [reflexivity | congruence].
Qed.

(** In a container without the browser where [apt] exits with 100, the
    install fails with the installation-in-progress error and so does the
    preparation of an unset path. *)
Lemma install_outcome_witness :
  fst (installChromiumViaApt Lab.installing "/usr/bin/chromium" Demo.cold) = Err installing_chromium
  /\ fst (prepareChromeExecutable Lab.installing None Demo.cold) = Err installing_chromium.
Proof.
  split; [| reflexivity].
  destruct (install_outcome Lab.installing "/usr/bin/chromium" Demo.cold)
    as (_ & _ & _ & _ & Hbusy & _).
  rewrite Hbusy; reflexivity.
Defined.

(** ** Acquiring a local browser *)

Section ResolverKeeps.

Context (env : Env) {B : Type} (f : World -> B).
Hypothesis f_not_trace : forall t w, f (set_trace t w) = f w.
Hypothesis f_not_objects : forall n w, f (set_next_object n w) = f w.
Hypothesis f_not_detected : forall e w, f (set_lastAutoDetectChromeExecutable e w) = f w.

Local Ltac resolver_kept :=
  repeat first
    [ progress intros
    | apply keeps_bind
    | apply keeps_try_catch
    | apply keeps_ret
    | apply keeps_throw
    | apply keeps_get
    | apply keeps_call; exact f_not_trace
    | apply keeps_new_object; exact f_not_objects
    | apply keeps_modify; intros; apply f_not_detected
    | match goal with
      | |- keeps _ (if ?c then _ else _) => destruct c
      | |- keeps _ (match ?o with Some _ => _ | None => _ end) => destruct o
      end ].

Lemma findChrome_search_keeps executables : keeps f (findChrome_search env executables).
Proof. induction executables as [|e rest IH]; cbn [findChrome_search]; resolver_kept. exact IH. Qed.

Lemma prepareChromeExecutable_keeps executablePath :
  keeps f (prepareChromeExecutable env executablePath).
Proof.
  unfold prepareChromeExecutable, installChromiumViaApt, findChrome.
  destruct executablePath as [p|]; resolver_kept;
    try apply findChrome_search_keeps;
    repeat match goal with |- keeps _ (match ?x with _ => _ end) => destruct x end;
    resolver_kept; apply findChrome_search_keeps.
Qed.

Lemma launch_keeps options : keeps f (launch env options).
Proof. unfold launch. resolver_kept. Qed.

End ResolverKeeps.

Lemma getBrowser_hit env w b :
  localBrowser w = Some b -> isConnected env (trace w) b = true ->
  getBrowser env w = (Ok b, w).
Proof. intros Hslot Hlive. unfold getBrowser, connected. run. now rewrite Hslot, Hlive. Qed.

Lemma getCloudflareBrowser_hit env w b :
  localCloudflareBrowser w = Some b -> isConnected env (trace w) b = true ->
  getCloudflareBrowser env w = (Ok b, w).
Proof. intros Hslot Hlive. unfold getCloudflareBrowser, connected. run. now rewrite Hslot, Hlive. Qed.

(** The part of [getBrowser] that runs when the slot cannot be reused. *)
Lemma getBrowser_miss_post env (acquire : M handle) w :
  acquire = (executablePath ← call (EvSettingsGet "chromeExecutable") (Settings_get env);
             executablePath ← prepareChromeExecutable env executablePath;
             b ← launch env (mkLaunch executablePath None []);
             modify (set_localBrowser (Some b));;
             mret b) ->
  match acquire w with
  | (Ok b, w') => localBrowser w' = Some b
  | (Err e, w') => localBrowser w' = localBrowser w
  end.
Proof.
  intros ->. unfold mbind at 1, M_bind at 1, bind at 1.
  destruct (call _ _ w) as [[path|e] w1] eqn:Hsettings;
    [| unfold call in Hsettings; injection Hsettings as _ <-; reflexivity].
  assert (H1 : localBrowser w1 = localBrowser w)
    by (unfold call in Hsettings; injection Hsettings as _ <-; reflexivity).
  unfold mbind at 1, M_bind at 1, bind at 1.
  pose proof (prepareChromeExecutable_keeps env localBrowser
                ltac:(intros ? []; reflexivity) ltac:(intros ? []; reflexivity) path w1) as H2.
  destruct (prepareChromeExecutable env path w1) as [[prepared|e] w2]; cbn [snd] in H2; [| congruence].
  unfold mbind at 1, M_bind at 1, bind at 1.
  pose proof (launch_keeps env localBrowser
                ltac:(intros ? []; reflexivity) ltac:(intros ? []; reflexivity)
                (mkLaunch prepared None []) w2) as H3.
  destruct (launch env (mkLaunch prepared None []) w2) as [[b|e] w3]; cbn [snd] in H3; [| congruence].
  reflexivity.
Qed.

Lemma getBrowser_post env w :
  match getBrowser env w with
  | (Ok b, w') => localBrowser w' = Some b
  | (Err e, w') => localBrowser w' = localBrowser w
  end.
Proof.
  pose proof (fun acquire => getBrowser_miss_post env acquire w) as Hmiss.
  unfold getBrowser, connected.
  unfold mbind at 1, M_bind at 1, bind at 1, get at 1.
  unfold mbind at 1, M_bind at 1, bind at 1.
  unfold mbind at 1, M_bind at 1, bind at 1, get at 1, mret at 1, M_ret at 1, ret at 1.
  destruct (localBrowser w) as [b|] eqn:Hslot.
  - destruct (isConnected env (trace w) b); [exact Hslot |]. now apply Hmiss.
  - now apply Hmiss.
Qed.

Lemma getCloudflareBrowser_post env w :
  match getCloudflareBrowser env w with
  | (Ok b, w') => localCloudflareBrowser w' = Some b
  | (Err e, w') => localCloudflareBrowser w' = localCloudflareBrowser w
  end.
Proof.
  assert (Hmiss :
    match (executablePath ← call (EvSettingsGet "chromeExecutable") (Settings_get env);
           executablePath ← prepareChromeExecutable env executablePath;
           b ← try_catch
                 (launch env (mkLaunch executablePath (Some false)
                    [ "--disable-blink-features=AutomationControlled"; "--disable-dev-shm-usage" ]))
                 (fun error =>
                    if negb (looksLikeDisplayIssue (err_message error)) then throw error
                    else launch env (mkLaunch executablePath None
                           [ "--disable-blink-features=AutomationControlled";
                             "--disable-dev-shm-usage" ]));
           modify (set_localCloudflareBrowser (Some b));;
           mret b) w with
    | (Ok b, w') => localCloudflareBrowser w' = Some b
    | (Err e, w') => localCloudflareBrowser w' = localCloudflareBrowser w
    end).
  { unfold mbind at 1, M_bind at 1, bind at 1.
    destruct (call _ _ w) as [[path|e] w1] eqn:Hsettings;
      [| unfold call in Hsettings; injection Hsettings as _ <-; reflexivity].
    assert (H1 : localCloudflareBrowser w1 = localCloudflareBrowser w)
      by (unfold call in Hsettings; injection Hsettings as _ <-; reflexivity).
    unfold mbind at 1, M_bind at 1, bind at 1.
    pose proof (prepareChromeExecutable_keeps env localCloudflareBrowser
                  ltac:(intros ? []; reflexivity) ltac:(intros ? []; reflexivity) path w1) as H2.
    destruct (prepareChromeExecutable env path w1) as [[prepared|e] w2]; cbn [snd] in H2;
      [| congruence].
    unfold mbind at 1, M_bind at 1, bind at 1.
    match goal with |- context [try_catch ?m ?h w2] =>
      assert (H3 : keeps localCloudflareBrowser (try_catch m h));
      [ apply keeps_try_catch;
        [ apply launch_keeps; intros ? []; reflexivity
        | intros error; destruct (negb _);
          [apply keeps_throw | apply launch_keeps; intros ? []; reflexivity] ]
      | specialize (H3 w2); destruct (try_catch m h w2) as [[b|e] w3] ]
    end; cbn [snd] in H3; [reflexivity | congruence]. }
  unfold getCloudflareBrowser, connected.
  unfold mbind at 1, M_bind at 1, bind at 1, get at 1.
  unfold mbind at 1, M_bind at 1, bind at 1.
  unfold mbind at 1, M_bind at 1, bind at 1, get at 1, mret at 1, M_ret at 1, ret at 1.
  destruct (localCloudflareBrowser w) as [b|] eqn:Hslot.
  - destruct (isConnected env (trace w) b); [exact Hslot | exact Hmiss].
  - exact Hmiss.
Qed.

Section LocalKeeps.

Context (env : Env) {B : Type} (f : World -> B).
Hypothesis f_not_trace : forall t w, f (set_trace t w) = f w.
Hypothesis f_not_objects : forall n w, f (set_next_object n w) = f w.
Hypothesis f_not_detected : forall e w, f (set_lastAutoDetectChromeExecutable e w) = f w.

Local Ltac local_kept :=
  repeat first
    [ progress intros
    | apply launch_keeps; assumption
    | apply prepareChromeExecutable_keeps; assumption
    | apply keeps_bind
    | apply keeps_try_catch
    | apply keeps_ret
    | apply keeps_throw
    | apply keeps_get
    | apply keeps_call; exact f_not_trace
    | apply launch_keeps; assumption
    | apply prepareChromeExecutable_keeps; assumption
    | match goal with
      | |- keeps _ (if ?c then _ else _) => destruct c
      | |- keeps _ (match ?o with Some _ => _ | None => _ end) => destruct o
      end ].

Lemma getBrowser_keeps :
  (forall b w, f (set_localBrowser b w) = f w) -> keeps f (getBrowser env).
Proof.
  intros Hslot. unfold getBrowser, connected. local_kept; apply keeps_modify; intros; apply Hslot.
Qed.

Lemma getCloudflareBrowser_keeps :
  (forall b w, f (set_localCloudflareBrowser b w) = f w) -> keeps f (getCloudflareBrowser env).
Proof.
  intros Hslot. unfold getCloudflareBrowser, connected.
  local_kept; apply keeps_modify; intros; apply Hslot.
Qed.

End LocalKeeps.

(** The calls of the executable resolver. *)
Section ResolverSilent.

Context (env : Env) (f : event -> bool).
Hypothesis f_blind :
  forall ev, is_probe ev = true \/ is_apt ev = true \/ (exists c, ev = EvExecVersion c) -> f ev = false.

Local Ltac quiet :=
  repeat first
    [ progress silent
    | apply calls_call_other; apply f_blind; solve [auto | right; right; eexists; reflexivity] ].

Lemma findChrome_search_makes_no executables' :
  calls_at_most f 0 (findChrome_search env executables').
Proof. induction executables' as [|e rest IH]; simpl; quiet. exact IH. Qed.

Lemma prepareChromeExecutable_makes_no executablePath :
  calls_at_most f 0 (prepareChromeExecutable env executablePath).
Proof.
  unfold prepareChromeExecutable, installChromiumViaApt, findChrome.
  destruct executablePath as [p|]; quiet;
    try apply findChrome_search_makes_no;
    repeat match goal with
      | |- calls_at_most _ _ (match ?x with _ => _ end) => destruct x
      end; quiet; apply findChrome_search_makes_no.
Qed.

End ResolverSilent.

Lemma launch_once env options : calls_at_most is_launch 1 (launch env options).
Proof.
  unfold launch. apply (calls_bind _ 1 0); [apply calls_call | intros; apply calls_new_object].
Qed.

Lemma prepare_launches_nothing env executablePath :
  calls_at_most is_launch 0 (prepareChromeExecutable env executablePath).
Proof.
  apply prepareChromeExecutable_makes_no.
  intros ev [H | [H | [c ->]]]; [destruct ev; try discriminate; reflexivity .. | reflexivity].
Qed.

(** X8. The two local slots are kept apart.  What [getBrowser] returns is
    what the plain slot holds afterwards, and what [getCloudflareBrowser]
    returns is what the challenge slot holds; a failed acquisition leaves its
    slot as it was.  Neither touches the other slot or the remote connection
    cache.  [getBrowser] launches at most one browser and
    [getCloudflareBrowser] at most two. *)
Theorem local_slot_discipline env w :
  match getBrowser env w with
  | (Ok b, w') => localBrowser w' = Some b
  | (Err _, w') => localBrowser w' = localBrowser w
  end
  /\ match getCloudflareBrowser env w with
     | (Ok b, w') => localCloudflareBrowser w' = Some b
     | (Err _, w') => localCloudflareBrowser w' = localCloudflareBrowser w
     end
  /\ keeps localCloudflareBrowser (getBrowser env)
  /\ keeps localBrowser (getCloudflareBrowser env)
  /\ keeps remoteBrowserConnections (getBrowser env)
  /\ keeps remoteBrowserConnections (getCloudflareBrowser env)
  /\ calls_at_most is_launch 1 (getBrowser env)
  /\ calls_at_most is_launch 2 (getCloudflareBrowser env).
Proof.
  split; [apply getBrowser_post |]. split; [apply getCloudflareBrowser_post |].
  split; [apply getBrowser_keeps; intros ? []; reflexivity |].
  split; [apply getCloudflareBrowser_keeps; intros ? []; reflexivity |].
  split; [apply getBrowser_keeps; intros ? []; reflexivity |].
  split; [apply getCloudflareBrowser_keeps; intros ? []; reflexivity |].
  split.
  - unfold getBrowser, connected.
    apply (calls_bind _ 0 1); [silent | intros cached].
    apply (calls_bind _ 0 1); [silent | intros live].
    assert (Hmiss : calls_at_most is_launch 1
              (executablePath ← call (EvSettingsGet "chromeExecutable") (Settings_get env);
               executablePath ← prepareChromeExecutable env executablePath;
               b ← launch env (mkLaunch executablePath None []);
               modify (set_localBrowser (Some b));;
               mret b)).
    { apply (calls_bind _ 0 1); [apply calls_call_other; reflexivity | intros path].
      apply (calls_bind _ 0 1); [apply prepare_launches_nothing | intros prepared].
      apply (calls_bind _ 1 0); [apply launch_once | silent]. }
    destruct cached as [b|], live; try exact Hmiss.
    apply (calls_weaken _ 0); [lia | apply calls_ret].
  - unfold getCloudflareBrowser, connected.
    apply (calls_bind _ 0 2); [silent | intros cached].
    apply (calls_bind _ 0 2); [silent | intros live].
    match goal with
    | |- calls_at_most _ _ (match cached with Some _ => if live then _ else ?m | None => _ end) =>
        assert (Hmiss : calls_at_most is_launch 2 m)
    | |- calls_at_most _ _ (match cached with Some _ => match live with true => _ | false => ?m end | None => _ end) =>
        assert (Hmiss : calls_at_most is_launch 2 m)
    end.
    { apply (calls_bind _ 0 2); [apply calls_call_other; reflexivity | intros path].
      apply (calls_bind _ 0 2); [apply prepare_launches_nothing | intros prepared].
      apply (calls_bind _ 2 0); [| silent].
      apply (calls_try_catch _ 1 1); [apply launch_once | intros error].
      destruct (negb _); [apply (calls_weaken _ 0); [lia | apply calls_throw] | apply launch_once]. }
    destruct cached as [b|], live; try exact Hmiss.
    apply (calls_weaken _ 0); [lia | apply calls_ret].
Qed.

(** X9. The headless fallback of [getCloudflareBrowser].  When the challenge
    slot holds no connected browser and an executable has been resolved, the
    first launch asks for a headed browser ([headless: false]) with the two
    flags.  If it succeeds its browser is stored and returned.  If it throws
    an error whose message has none of the four display markers, that error
    is rethrown after this single launch.  If the message has one of them, a
    second launch follows with the same executable and the same flags and no
    [headless] field; its browser is stored and returned, or its error is
    thrown. *)
Theorem headless_fallback env w setting path w1 :
  match localCloudflareBrowser w with
  | Some h => isConnected env (trace w) h
  | None => false
  end = false ->
  Settings_get env (EvSettingsGet "chromeExecutable" :: trace w) = Ok setting ->
  prepareChromeExecutable env setting
    (set_trace (EvSettingsGet "chromeExecutable" :: trace w) w) = (Ok path, w1) ->
  let flags := [ "--disable-blink-features=AutomationControlled"; "--disable-dev-shm-usage" ] in
  let headed := EvLaunch (mkLaunch path (Some false) flags) :: trace w1 in
  let headless := EvLaunch (mkLaunch path None flags) :: headed in
  let stored t :=
    (Ok (next_object w1),
     set_localCloudflareBrowser (Some (next_object w1))
       (set_next_object (S (next_object w1)) (set_trace t w1))) in
  getCloudflareBrowser env w =
    match chromium_launch env headed with
    | Ok _ => stored headed
    | Err error =>
        if looksLikeDisplayIssue (err_message error)
        then match chromium_launch env headless with
             | Ok _ => stored headless
             | Err error' => (Err error', set_trace headless w1)
             end
        else (Err error, set_trace headed w1)
    end.
Proof.
  intros Hstale Hsetting Hprepare flags headed headless stored.
  unfold getCloudflareBrowser, connected.
  run. rewrite Hstale.
  assert (Hmiss :
    (executablePath ← call (EvSettingsGet "chromeExecutable") (Settings_get env);
     executablePath ← prepareChromeExecutable env executablePath;
     b ← try_catch (launch env (mkLaunch executablePath (Some false) flags))
           (fun error =>
              if negb (looksLikeDisplayIssue (err_message error)) then throw error
              else launch env (mkLaunch executablePath None flags));
     modify (set_localCloudflareBrowser (Some b));;
     mret b) w =
    match chromium_launch env headed with
    | Ok _ => stored headed
    | Err error =>
        if looksLikeDisplayIssue (err_message error)
        then match chromium_launch env headless with
             | Ok _ => stored headless
             | Err error' => (Err error', set_trace headless w1)
             end
        else (Err error, set_trace headed w1)
    end).
  { unfold launch. run. rewrite Hsetting. run. rewrite Hprepare. run.
    subst headed headless stored. cbn.
    destruct (chromium_launch env (EvLaunch _ :: trace w1)) as [[]|error] eqn:Hfirst; run.
    - reflexivity.
    - destruct (looksLikeDisplayIssue (err_message error)); run; [| reflexivity].
      destruct w1; cbn.
      destruct (chromium_launch env (_ :: _ :: _)) as [[]|error']; reflexivity. }
  destruct (localCloudflareBrowser w); exact Hmiss.
Qed.

Lemma headless_fallback_witness :
  fst (getCloudflareBrowser Lab.no_display Demo.cold) = Ok 0%nat
  /\ count is_launch (trace (snd (getCloudflareBrowser Lab.no_display Demo.cold))) = 2%nat.
Proof.
  pose (prepared := prepareChromeExecutable Lab.no_display None
                      (set_trace (EvSettingsGet "chromeExecutable" :: trace Demo.cold) Demo.cold)).
  assert (Hprepared : prepared = (Ok (Some "chromium"), snd prepared)) by (vm_compute; reflexivity).
  pose proof (headless_fallback Lab.no_display Demo.cold None (Some "chromium") (snd prepared)
                eq_refl eq_refl Hprepared) as Hrun.
  cbv zeta in Hrun. rewrite Hrun. vm_compute. split; reflexivity.
Defined.

(** ** What a run and the remote pool leave alone *)

Ltac framed :=
  repeat first
    [ match goal with
      | |- keeps _ (if ?c then _ else _) => destruct c
      | |- keeps _ (match ?o with Some _ => _ | None => _ end) => destruct o
      | |- keeps _ (match ?o with Ok _ => _ | Err _ => _ end) => destruct o
      | |- forall _, _ => intro
      end
    | apply keeps_bind
    | apply keeps_try_catch
    | apply keeps_try_finally
    | apply keeps_ignore_errors
    | apply keeps_ret
    | apply keeps_throw
    | apply keeps_lift
    | apply keeps_get
    | apply keeps_call; assumption
    | apply keeps_new_object; assumption
    | apply keeps_modify; intros; auto ].

Section RunKeeps.

Context (env : Env) {B : Type} (f : World -> B).
Hypothesis f_not_trace : forall t w, f (set_trace t w) = f w.
Hypothesis f_not_objects : forall n w, f (set_next_object n w) = f w.
Hypothesis f_not_heartbeat : forall h w, f (set_heartbeat h w) = f w.

Lemma runCheck_keeps monitor server b : keeps f (runCheck env monitor server b).
Proof.
  unfold runCheck, runCheck_body, open_page, check_protocol, navigate, navigate_cloudflare,
    navigate_plain, goto, waitForCloudflareChallengeIfNeeded, isCloudflareChallengePage,
    take_screenshot, classify.
  cbv zeta. framed.
Qed.

End RunKeeps.

Section RemoteKeeps.

Context (env : Env) {B : Type} (f : World -> B).
Hypothesis f_not_trace : forall t w, f (set_trace t w) = f w.
Hypothesis f_not_objects : forall n w, f (set_next_object n w) = f w.
Hypothesis f_not_cache : forall c w, f (set_remoteBrowserConnections c w) = f w.
Hypothesis f_not_observers : forall o w, f (set_observers o w) = f w.

Lemma getRemoteBrowser_keeps remoteBrowserID userId :
  keeps f (getRemoteBrowser env remoteBrowserID userId).
Proof.
  unfold getRemoteBrowser, connected, cache_delete, cache_set, close_browser.
  cbv zeta. framed.
Qed.

Lemma clearRemoteBrowserConnection_keeps remoteBrowserID :
  keeps f (clearRemoteBrowserConnection env remoteBrowserID).
Proof.
  unfold clearRemoteBrowserConnection, cache_delete, close_browser. framed.
Qed.

End RemoteKeeps.

(** ** The heartbeat *)

Lemma heartbeat_bind {A C} (m : M A) (k : A -> M C) :
  keeps heartbeat m -> (forall a, heartbeat_on_success (k a)) -> heartbeat_on_success (m ≫= k).
Proof.
  intros Hm Hk w. unfold mbind, M_bind, bind. specialize (Hm w).
  destruct (m w) as [[a|e] w1]; cbn [snd] in Hm; [| exact Hm].
  specialize (Hk a w1). destruct (k a w1) as [[c|e] w2]; [exact Hk | congruence].
Qed.

Lemma heartbeat_try_finally {A} (m : M A) (cleanup : M unit) :
  heartbeat_on_success m -> keeps heartbeat cleanup ->
  (forall w, exists u, fst (cleanup w) = Ok u) ->
  heartbeat_on_success (try_finally m cleanup).
Proof.
  intros Hm Hkeep Hok w. unfold try_finally. specialize (Hm w).
  destruct (m w) as [r w1]. specialize (Hkeep w1). destruct (Hok w1) as (u & Hu).
  destruct (cleanup w1) as [[u'|e] w2]; cbn [fst snd] in *; [| discriminate].
  destruct r as [a|e].
  - destruct Hm as (res & Hres & Hrange). exists res. split; [congruence | exact Hrange].
  - congruence.
Qed.

Lemma heartbeat_try_catch {A} (m : M A) h :
  heartbeat_on_success m -> (forall e, heartbeat_on_success (h e)) ->
  heartbeat_on_success (try_catch m h).
Proof.
  intros Hm Hh w. unfold try_catch. specialize (Hm w).
  destruct (m w) as [[a|e] w1]; [exact Hm |].
  specialize (Hh e w1). destruct (h e w1) as [[a|e'] w2]; [exact Hh | congruence].
Qed.

Lemma heartbeat_throw {A} e : heartbeat_on_success (@throw A e).
Proof. intros w. reflexivity. Qed.

Lemma classify_heartbeat res : heartbeat_on_success (classify res).
Proof.
  intros w. unfold classify.
  destruct ((200 <=? status res) && (status res <? 400)) eqn:Hrange; cbn; [| reflexivity].
  apply andb_true_iff in Hrange. destruct Hrange as [Hlow Hhigh].
  exists res. split; [now destruct w | lia].
Qed.

Lemma runCheck_heartbeat env monitor server b :
  heartbeat_on_success (runCheck env monitor server b).
Proof.
  assert (Htrace : forall t w, heartbeat (set_trace t w) = heartbeat w) by (intros ? []; reflexivity).
  assert (Hobjects : forall n w, heartbeat (set_next_object n w) = heartbeat w)
    by (intros ? []; reflexivity).
  unfold runCheck.
  apply heartbeat_bind; [framed | intros _].
  apply heartbeat_bind; [framed | intros c].
  apply heartbeat_try_finally.
  - unfold runCheck_body. cbv zeta.
    apply heartbeat_bind; [unfold open_page; framed | intros p].
    apply heartbeat_bind; [unfold check_protocol; framed | intros _].
    apply heartbeat_bind.
    { unfold navigate, navigate_cloudflare, navigate_plain, goto,
        waitForCloudflareChallengeIfNeeded, isCloudflareChallengePage. framed. }
    intros [res|]; [| apply heartbeat_throw].
    apply heartbeat_bind; [unfold take_screenshot; framed | intros _].
    apply classify_heartbeat.
  - framed.
  - intros w. rewrite ignore_errors_ok. exists tt. reflexivity.
Qed.

(** X10. A check writes the heartbeat only when it succeeds.  When [check]
    returns, the heartbeat holds status "up", the HTTP status of some
    response as message and that response's [responseEnd] as ping, and the
    status is in [200, 400).  When [check] throws, whatever the cause and on
    either side of the remote retry, the heartbeat is as it was before the
    check. *)
Theorem heartbeat_written_only_on_success env monitor server w :
  match check env monitor server w with
  | (Ok _, w') =>
      exists res,
        heartbeat w' = mkHeartbeat (Some UP) (Some (status res)) (Some (responseEnd res))
        /\ 200 <= status res < 400
  | (Err _, w') => heartbeat w' = heartbeat w
  end.
Proof.
  assert (Hcheck : heartbeat_on_success (check env monitor server)); [| exact (Hcheck w)].
  assert (Htrace : forall t w, heartbeat (set_trace t w) = heartbeat w) by (intros ? []; reflexivity).
  assert (Hobjects : forall n w, heartbeat (set_next_object n w) = heartbeat w)
    by (intros ? []; reflexivity).
  assert (Hattempt : forall rb, heartbeat_on_success (remote_attempt env monitor server rb)).
  { intros rb. unfold remote_attempt. apply heartbeat_bind; [| intros; apply runCheck_heartbeat].
    apply getRemoteBrowser_keeps; try assumption; intros ? []; reflexivity. }
  unfold check. destruct (remote_of monitor) as [rb|].
  - apply heartbeat_try_catch; [apply Hattempt | intros error].
    destruct (negb _); [apply heartbeat_throw |].
    apply heartbeat_bind; [| intros; apply Hattempt].
    apply clearRemoteBrowserConnection_keeps; try assumption; intros ? []; reflexivity.
  - apply heartbeat_bind; [| intros; apply runCheck_heartbeat].
    destruct (isCloudflareMode monitor);
      [apply getCloudflareBrowser_keeps | apply getBrowser_keeps];
      try assumption; intros ? []; reflexivity.
Qed.

(** ** The pools do not interfere *)

Ltac projection := try assumption; intros ? []; reflexivity.

(** X11. A check stays inside its own pool.  A remote check never changes
    the two local slots nor the remembered executable; a local check never
    changes the remote connection cache nor its listeners, a challenge-aware
    local check leaves the plain slot alone and a plain local check leaves the
    challenge slot alone. *)
Theorem check_stays_in_its_pool env monitor server :
  match remote_of monitor with
  | Some _ =>
      keeps localBrowser (check env monitor server)
      /\ keeps localCloudflareBrowser (check env monitor server)
      /\ keeps lastAutoDetectChromeExecutable (check env monitor server)
  | None =>
      keeps remoteBrowserConnections (check env monitor server)
      /\ keeps observers (check env monitor server)
      /\ (if isCloudflareMode monitor
          then keeps localBrowser (check env monitor server)
          else keeps localCloudflareBrowser (check env monitor server))
  end.
Proof.
  unfold check. destruct (remote_of monitor) as [rb|].
  - assert (Hremote : forall {B} (f : World -> B),
              (forall t w, f (set_trace t w) = f w) ->
              (forall n w, f (set_next_object n w) = f w) ->
              (forall h w, f (set_heartbeat h w) = f w) ->
              (forall c w, f (set_remoteBrowserConnections c w) = f w) ->
              (forall o w, f (set_observers o w) = f w) ->
              keeps f
                (try_catch (remote_attempt env monitor server rb)
                   (fun error =>
                      if negb (isBrowserClosedError error) then throw error
                      else clearRemoteBrowserConnection env rb;;
                           remote_attempt env monitor server rb))).
    { intros B f Htrace Hobjects Hheartbeat Hcache Hobservers.
      assert (Hattempt : keeps f (remote_attempt env monitor server rb)).
      { unfold remote_attempt. apply keeps_bind;
          [apply getRemoteBrowser_keeps; assumption | intros; apply runCheck_keeps; assumption]. }
      apply keeps_try_catch; [exact Hattempt | intros error].
      destruct (negb _); [apply keeps_throw |].
      apply keeps_bind; [apply clearRemoteBrowserConnection_keeps; assumption | intros; exact Hattempt]. }
    repeat split; apply Hremote; projection.
  - assert (Hlocal : forall {B} (f : World -> B),
              (forall t w, f (set_trace t w) = f w) ->
              (forall n w, f (set_next_object n w) = f w) ->
              (forall h w, f (set_heartbeat h w) = f w) ->
              (forall e w, f (set_lastAutoDetectChromeExecutable e w) = f w) ->
              (if isCloudflareMode monitor
               then forall b w, f (set_localCloudflareBrowser b w) = f w
               else forall b w, f (set_localBrowser b w) = f w) ->
              keeps f
                (browser ← (if isCloudflareMode monitor
                            then getCloudflareBrowser env else getBrowser env);
                 runCheck env monitor server browser)).
    { intros B f Htrace Hobjects Hheartbeat Hdetected Hslot.
      apply keeps_bind; [| intros; apply runCheck_keeps; assumption].
      destruct (isCloudflareMode monitor);
        [apply getCloudflareBrowser_keeps | apply getBrowser_keeps]; assumption. }
    split; [| split].
    + apply Hlocal; try projection. destruct (isCloudflareMode monitor); projection.
    + apply Hlocal; try projection. destruct (isCloudflareMode monitor); projection.
    + destruct (isCloudflareMode monitor) eqn:Hmode.
      * apply keeps_bind;
          [apply getCloudflareBrowser_keeps; projection
          | intros; apply runCheck_keeps; projection].
      * apply keeps_bind;
          [apply getBrowser_keeps; projection
          | intros; apply runCheck_keeps; projection].
Qed.

(** ** Sharing a local browser between checks *)

Lemma shared_slot env (acquire : M handle) (slot : World -> option handle)
    monitor monitor' server w :
  (forall w, match acquire w with
             | (Ok b, w') => slot w' = Some b
             | (Err _, w') => slot w' = slot w
             end) ->
  (forall w b, slot w = Some b -> isConnected env (trace w) b = true -> acquire w = (Ok b, w)) ->
  (forall b, keeps slot (runCheck env monitor server b)) ->
  match acquire w with
  | (Err e, w0) => (browser ← acquire; runCheck env monitor server browser) w = (Err e, w0)
  | (Ok b, _) =>
      slot (snd ((browser ← acquire; runCheck env monitor server browser) w)) = Some b
      /\ (isConnected env (trace (snd ((browser ← acquire; runCheck env monitor server browser) w))) b = true ->
          (browser ← acquire; runCheck env monitor' server browser) (snd ((browser ← acquire; runCheck env monitor server browser) w))
          = runCheck env monitor' server b (snd ((browser ← acquire; runCheck env monitor server browser) w)))
  end.
Proof.
  intros Hpost Hhit Hrun. specialize (Hpost w).
  destruct (acquire w) as [[b|e] w0] eqn:Hacquire.
  - rewrite (bind_ok _ _ _ _ _ Hacquire).
    assert (Hslot : slot (snd (runCheck env monitor server b w0)) = Some b)
      by (rewrite Hrun; exact Hpost).
    split; [exact Hslot |]. intros Hlive.
    apply bind_ok. now apply Hhit.
  - apply bind_err. exact Hacquire.
Qed.

(** X12. Local checks share one browser.  If acquiring the local browser
    fails, the check fails with that error.  Otherwise the browser that the
    first check acquired is still in its slot when the check ends, whatever
    the outcome of the run; and if that browser still reports connected, the
    next local check of the same mode runs on it directly: it is exactly a
    run on that browser and launches nothing. *)
Theorem local_browser_is_shared env monitor monitor' server w :
  remote_of monitor = None -> remote_of monitor' = None ->
  isCloudflareMode monitor' = isCloudflareMode monitor ->
  let acquire := if isCloudflareMode monitor then getCloudflareBrowser env else getBrowser env in
  let slot := if isCloudflareMode monitor then localCloudflareBrowser else localBrowser in
  let w1 := snd (check env monitor server w) in
  match acquire w with
  | (Err e, w0) => check env monitor server w = (Err e, w0)
  | (Ok b, _) =>
      slot w1 = Some b
      /\ (isConnected env (trace w1) b = true ->
          check env monitor' server w1 = runCheck env monitor' server b w1
          /\ exists evs,
               trace (snd (check env monitor' server w1)) = evs ++ trace w1
               /\ count is_launch evs = 0%nat)
  end.
Proof.
  intros Hlocal Hlocal' Hmode. unfold check. rewrite Hlocal, Hlocal', Hmode.
  assert (Hquiet : forall b, calls_at_most is_launch 0 (runCheck env monitor' server b)).
  { intros b. apply runCheck_pool_silent; [intros []; simpl; congruence | reflexivity ..]. }
  destruct (isCloudflareMode monitor); cbv zeta.
  - pose proof (shared_slot env (getCloudflareBrowser env) localCloudflareBrowser
                  monitor monitor' server w (getCloudflareBrowser_post env)
                  (fun w b => getCloudflareBrowser_hit env w b)
                  (fun b => runCheck_keeps env localCloudflareBrowser
                              ltac:(projection) ltac:(projection) ltac:(projection)
                              monitor server b)) as Hshared.
    destruct (getCloudflareBrowser env w) as [[b|e] w0]; [| exact Hshared].
    destruct Hshared as [Hslot Hnext]. split; [exact Hslot |]. intros Hlive.
    rewrite (Hnext Hlive). split; [reflexivity |].
    destruct (Hquiet b (snd ((browser ← getCloudflareBrowser env; runCheck env monitor server browser) w)))
      as (evs & Htrace & Hcount).
    exists evs. split; [exact Htrace | lia].
  - pose proof (shared_slot env (getBrowser env) localBrowser
                  monitor monitor' server w (getBrowser_post env)
                  (fun w b => getBrowser_hit env w b)
                  (fun b => runCheck_keeps env localBrowser
                              ltac:(projection) ltac:(projection) ltac:(projection)
                              monitor server b)) as Hshared.
    destruct (getBrowser env w) as [[b|e] w0]; [| exact Hshared].
    destruct Hshared as [Hslot Hnext]. split; [exact Hslot |]. intros Hlive.
    rewrite (Hnext Hlive). split; [reflexivity |].
    destruct (Hquiet b (snd ((browser ← getBrowser env; runCheck env monitor server browser) w)))
      as (evs & Htrace & Hcount).
    exists evs. split; [exact Htrace | lia].
Qed.

Lemma local_browser_is_shared_witness :
  localBrowser (snd (check Demo.calm Demo.plain Demo.server Demo.cold)) = Some 0%nat
  /\ check Demo.calm Demo.plain Demo.server (snd (check Demo.calm Demo.plain Demo.server Demo.cold))
     = runCheck Demo.calm Demo.plain Demo.server 0%nat
         (snd (check Demo.calm Demo.plain Demo.server Demo.cold)).
Proof.
  pose proof (local_browser_is_shared Demo.calm Demo.plain Demo.plain Demo.server Demo.cold
                eq_refl eq_refl eq_refl) as Hshared.
  cbv zeta in Hshared. change (isCloudflareMode Demo.plain) with false in Hshared.
  cbv iota in Hshared.
  assert (Hfirst : getBrowser Demo.calm Demo.cold = (Ok 0%nat, snd (getBrowser Demo.calm Demo.cold)))
    by (vm_compute; reflexivity).
  rewrite Hfirst in Hshared. destruct Hshared as [Hslot Hnext].
  split; [exact Hslot |]. apply Hnext. vm_compute. reflexivity.
Defined.

(** ** Substrings *)

Lemma prefix_iff n s : String.prefix n s = true <-> exists post, s = (n ++ post)%string.
Proof.
  revert s. induction n as [|c n IH]; intros s; simpl.
  - split; [intros _; exists s; reflexivity | intros _; destruct s; reflexivity].
  - destruct s as [|x s]; simpl; [split; [discriminate | intros (post & Hpost); discriminate] |].
    destruct (ascii_dec c x) as [->|Hne].
    + rewrite IH. split; intros (post & Hpost); exists post; [now subst | now injection Hpost].
    + split; [discriminate | intros (post & Hpost); injection Hpost as Hcx _; congruence].
Qed.

Lemma includes_iff s n :
  Str.includes s n = true <-> exists pre post, s = (pre ++ n ++ post)%string.
Proof.
  induction s as [|c s IH]; cbn [Str.includes].
  - rewrite orb_false_r, prefix_iff. split.
    + intros (post & Hpost). exists EmptyString, post. exact Hpost.
    + intros ([|x pre] & post & Hpost); [exists post; exact Hpost | discriminate].
  - rewrite orb_true_iff, prefix_iff, IH. split.
    + intros [(post & Hpost) | (pre & post & Hpost)].
      * exists EmptyString, post. exact Hpost.
      * exists (String c pre), post. simpl. now rewrite Hpost.
    + intros ([|x pre] & post & Hpost).
      * left. exists post. exact Hpost.
      * right. simpl in Hpost. injection Hpost as _ Hpost. exists pre, post. exact Hpost.
Qed.

Lemma ascii_lower_app a b :
  Str.ascii_lower (a ++ b)%string = (Str.ascii_lower a ++ Str.ascii_lower b)%string.
Proof.
  induction a as [|c a IH]; [reflexivity |].
  change (String (Str.lower_ascii c) (Str.ascii_lower (a ++ b)%string)
          = String (Str.lower_ascii c) (Str.ascii_lower a ++ Str.ascii_lower b)%string).
  now rewrite IH.
Qed.

Lemma includes_ascii_lower s n :
  Str.includes s n = true -> Str.includes (Str.ascii_lower s) (Str.ascii_lower n) = true.
Proof.
  rewrite !includes_iff. intros (pre & post & ->).
  exists (Str.ascii_lower pre), (Str.ascii_lower post). now rewrite !ascii_lower_app.
Qed.

Lemma prefix_before c n a b :
  occurs c n = false ->
  String.prefix n (a ++ String c b)%string = String.prefix n a.
Proof.
  revert a. induction n as [|x n IH]; intros a Hfree; [now destruct a |].
  simpl in Hfree. apply orb_false_iff in Hfree. destruct Hfree as [Hx Hn].
  destruct a as [|y a]; simpl.
  - destruct (ascii_dec x c) as [->|_]; [| reflexivity].
    exfalso.
    rewrite Ascii.eqb_refl in Hx. discriminate.
  - destruct (ascii_dec x y); [now apply IH | reflexivity].
Qed.

(** A needle without the separator is found in [a ++ c ++ b] exactly when it
    is found in [a] or in [b]. *)
Lemma includes_separated c n a b :
  occurs c n = false ->
  Str.includes (a ++ String c b)%string n = Str.includes a n || Str.includes b n.
Proof.
  intros Hfree. induction a as [|y a IH].
  - pose proof (prefix_before c n EmptyString b Hfree) as Hhead.
    change (EmptyString ++ String c b)%string with (String c b) in *.
    cbn [Str.includes]. rewrite Hhead. now rewrite orb_false_r.
  - pose proof (prefix_before c n (String y a) b Hfree) as Hhead.
    change (String y a ++ String c b)%string with (String y (a ++ String c b)%string) in *.
    cbn [Str.includes]. rewrite Hhead, IH. now rewrite orb_assoc.
Qed.

(** X13. [isCloudflareChallengePage] makes one [page.evaluate] call and
    answers true exactly when one of the five marker phrases occurs in the
    lower-case form of the title or in that of the body text, as the runtime
    computes them: joining the two with a newline creates no match that
    spans both.  A missing title or body counts as empty, and an error of
    the evaluation is thrown as it is.  Where the runtime's lower-case form
    of the title and of the body is the lowering of the letters A to Z, as
    it is for ASCII text, any phrase found in the title or the body whose
    lowered form is a marker makes the answer true. *)
Theorem challenge_page_detection env p w :
  let probed := EvEvaluate p :: trace w in
  match page_evaluate env probed with
  | Err e => isCloudflareChallengePage env p w = (Err e, set_trace probed w)
  | Ok (title, body) =>
      let lowTitle := toLowerCase env (Str.or_empty title) in
      let lowBody := toLowerCase env (Str.or_empty body) in
      isCloudflareChallengePage env p w
      = (Ok (existsb (fun marker => Str.includes lowTitle marker || Str.includes lowBody marker)
               markers),
         set_trace probed w)
      /\ forall phrase,
           lowTitle = Str.ascii_lower (Str.or_empty title) ->
           lowBody = Str.ascii_lower (Str.or_empty body) ->
           In (Str.ascii_lower phrase) markers ->
           Str.includes (Str.or_empty title) phrase || Str.includes (Str.or_empty body) phrase = true ->
           fst (isCloudflareChallengePage env p w) = Ok true
  end.
Proof.
  intros probed. unfold isCloudflareChallengePage. run. fold probed.
  destruct (page_evaluate env probed) as [[title body]|e]; [| reflexivity].
  run. cbn [fst snd].
  set (lowTitle := toLowerCase env (Str.or_empty title)).
  set (lowBody := toLowerCase env (Str.or_empty body)).
  assert (Hsplit : forall marker, In marker markers ->
            Str.includes (lowTitle ++ newline ++ lowBody)%string marker
            = Str.includes lowTitle marker || Str.includes lowBody marker).
  { intros marker Hin. apply (includes_separated (ascii_of_nat 10)).
    simpl in Hin. repeat destruct Hin as [<- | Hin]; try reflexivity. contradiction. }
  assert (Hsame : existsb (fun marker =>
                    Str.includes (lowTitle ++ newline ++ lowBody)%string marker) markers
                  = existsb (fun marker =>
                      Str.includes lowTitle marker || Str.includes lowBody marker) markers).
  { assert (Hext : forall l, (forall m, In m l -> In m markers) ->
              existsb (fun marker =>
                Str.includes (lowTitle ++ newline ++ lowBody)%string marker) l
              = existsb (fun marker =>
                  Str.includes lowTitle marker || Str.includes lowBody marker) l).
    { induction l as [|m l IH]; intros Hsub; [reflexivity |]. simpl.
      rewrite (Hsplit m) by (apply Hsub; now left).
      rewrite IH by (intros m' Hm'; apply Hsub; now right). reflexivity. }
    apply Hext. auto. }
  rewrite Hsame. split; [reflexivity |].
  intros phrase Htitle Hbody Hmarker Hfound. f_equal.
  apply existsb_exists. exists (Str.ascii_lower phrase). split; [exact Hmarker |].
  rewrite Htitle, Hbody.
  apply orb_true_iff in Hfound. apply orb_true_iff.
  destruct Hfound as [Hfound | Hfound]; [left | right]; now apply includes_ascii_lower.
Qed.

Lemma challenge_page_detection_witness :
  fst (isCloudflareChallengePage Demo.stuck_challenge 0%nat Demo.cold) = Ok true.
Proof.
  pose proof (challenge_page_detection Demo.stuck_challenge 0%nat Demo.cold) as Hdetect.
  cbv zeta in Hdetect.
  assert (Hdoc : page_evaluate Demo.stuck_challenge (EvEvaluate 0%nat :: trace Demo.cold)
                 = Ok (Some "Just a moment...", Some "Verify you are human")) by reflexivity.
  rewrite Hdoc in Hdetect. destruct Hdetect as [_ Hany].
  apply (Hany "Verify you are human");
    [reflexivity | reflexivity | simpl; auto 10 | vm_compute; reflexivity].
Defined.

(** ** The two test functions *)

(** X14. [testChrome] and [testRemoteBrowser] work on a browser of their
    own.  Every failure is rethrown as a plain [Error] that carries the
    message of the step that failed (resolving the executable, the launch or
    connection, or the close): the name of the original error is dropped.
    When they return, the last call made is the [close] of the browser they
    opened, which is a new object; [testRemoteBrowser] then answers true, it
    never answers false.  Neither puts its browser in a local slot or in the
    remote connection cache, and no listener is registered. *)
Theorem test_functions_use_their_own_browser env executablePath remoteBrowserURL w :
  match testChrome env executablePath w with
  | (Ok version, w') =>
      exists path t,
        trace w' = EvBrowserClose (next_object w) :: EvLaunch (mkLaunch path None []) :: t
        /\ version = browser_version env (EvLaunch (mkLaunch path None []) :: t) (next_object w)
  | (Err e, w') =>
      exists cause,
        e = Error (err_message cause)
        /\ (prepareChromeExecutable env executablePath w = (Err cause, w')
            \/ (exists t, trace w' = t /\ chromium_launch env t = Err cause)
            \/ (exists t, trace w' = t /\ browser_close env t = Err cause))
  end
  /\ match testRemoteBrowser env remoteBrowserURL w with
     | (Ok answer, w') =>
         answer = true
         /\ trace w' = EvBrowserClose (next_object w) :: EvConnect remoteBrowserURL :: trace w
     | (Err e, w') =>
         exists cause,
           e = Error (err_message cause)
           /\ (chromium_connect env (EvConnect remoteBrowserURL :: trace w) = Err cause
               \/ browser_close env
                    (EvBrowserClose (next_object w) :: EvConnect remoteBrowserURL :: trace w)
                  = Err cause)
     end
  /\ keeps localBrowser (testChrome env executablePath)
  /\ keeps localCloudflareBrowser (testChrome env executablePath)
  /\ keeps remoteBrowserConnections (testChrome env executablePath)
  /\ keeps remoteBrowserConnections (testRemoteBrowser env remoteBrowserURL)
  /\ keeps observers (testRemoteBrowser env remoteBrowserURL)
  /\ keeps observers (testChrome env executablePath)
  /\ keeps localBrowser (testRemoteBrowser env remoteBrowserURL)
  /\ keeps localCloudflareBrowser (testRemoteBrowser env remoteBrowserURL).
Proof.
  assert (Hframe : forall {B} (f : World -> B),
            (forall t w, f (set_trace t w) = f w) ->
            (forall n w, f (set_next_object n w) = f w) ->
            (forall e w, f (set_lastAutoDetectChromeExecutable e w) = f w) ->
            keeps f (testChrome env executablePath)).
  { intros B f Htrace Hobjects Hdetected. unfold testChrome, close_browser.
    apply keeps_try_catch; [| intros; apply keeps_throw].
    apply keeps_bind; [apply prepareChromeExecutable_keeps; assumption | intros path].
    apply keeps_bind; [apply launch_keeps; assumption | intros browser].
    framed. }
  split; [| split; [| repeat split]].
  - unfold testChrome.
    pose proof (prepareChromeExecutable_keeps env next_object
                  ltac:(projection) ltac:(projection) executablePath w) as Hobjects.
    unfold try_catch at 1. unfold mbind at 1, M_bind at 1, bind at 1.
    destruct (prepareChromeExecutable env executablePath w) as [[path|e] w1];
      cbn [snd] in Hobjects.
    + unfold launch, close_browser. run. rewrite Hobjects.
      destruct (chromium_launch env _) as [[]|e] eqn:Hlaunch.
      * destruct (browser_close env _) as [[]|e] eqn:Hclose.
        -- exists path, (trace w1). split; reflexivity.
        -- exists e. split; [reflexivity |]. right. right. eexists. split; [reflexivity | exact Hclose].
      * exists e. split; [reflexivity |]. right. left. eexists. split; [reflexivity | exact Hlaunch].
    + exists e. split; [reflexivity |]. left. reflexivity.
  - unfold testRemoteBrowser, close_browser. run.
    destruct (chromium_connect env _) as [[]|e] eqn:Hconnect.
    + destruct (browser_close env _) as [[]|e] eqn:Hclose.
      * split; reflexivity.
      * exists e. split; [reflexivity | right; reflexivity].
    + exists e. split; [reflexivity | left; reflexivity].
  - apply Hframe; projection.
  - apply Hframe; projection.
  - apply Hframe; projection.
  - unfold testRemoteBrowser, close_browser. kept.
  - unfold testRemoteBrowser, close_browser. kept.
  - apply Hframe; projection.
  - unfold testRemoteBrowser, close_browser. kept.
  - unfold testRemoteBrowser, close_browser. kept.
Qed.

(** ** Errors of the check itself *)

Lemma includes_first s c n : Str.includes s (String c n) = true -> occurs c s = true.
Proof.
  induction s as [|x s IH]; cbn [Str.includes occurs]; intros H.
  - discriminate.
  - apply orb_true_iff in H. apply orb_true_iff. destruct H as [H | H]; [left | right; auto].
    simpl in H. destruct (ascii_dec c x) as [->|]; [apply Ascii.eqb_refl | discriminate].
Qed.

Lemma occurs_app c a b : occurs c (a ++ b)%string = occurs c a || occurs c b.
Proof. induction a as [|x a IH]; simpl; [reflexivity | now rewrite IH, orb_assoc]. Qed.

Lemma letter_is_no_digit c x :
  (65 <= N_of_ascii c)%N -> Ascii.eqb c (pretty_N_char x) = false.
Proof.
  intros Hletter. destruct (Ascii.eqb_spec c (pretty_N_char x)) as [->|]; [| reflexivity].
  exfalso. unfold pretty_N_char in Hletter.
  repeat case_match; vm_compute in Hletter; now apply Hletter.
Qed.

Lemma pretty_N_go_letter c x s :
  (65 <= N_of_ascii c)%N -> occurs c s = false -> occurs c (pretty_N_go x s) = false.
Proof.
  intros Hletter. revert s. induction (N.lt_wf_0 x) as [x _ IH]; intros s Hs.
  assert (x = 0 \/ 0 < x)%N as [->|Hpos] by lia.
  - now rewrite pretty_N_go_0.
  - rewrite pretty_N_go_step by exact Hpos. apply IH.
    + now apply N.div_lt.
    + cbn [occurs]. now rewrite letter_is_no_digit, Hs.
Qed.

(** The decimal form of an integer holds no letter. *)
Lemma pretty_Z_letter c (z : Z) :
  (65 <= N_of_ascii c)%N -> occurs c (pretty z) = false.
Proof.
  intros Hletter.
  assert (Hpos : forall p : positive, occurs c (pretty p) = false).
  { intros p. unfold pretty, pretty_positive, pretty, pretty_N.
    destruct (decide (N.pos p = 0%N)); [discriminate |].
    now apply pretty_N_go_letter. }
  destruct z as [|p|p]; unfold pretty, pretty_Z.
  - cbn [occurs]. destruct (Ascii.eqb_spec c "0"%char) as [->|]; [| reflexivity].
    vm_compute in Hletter. now exfalso.
  - apply Hpos.
  - rewrite occurs_app, Hpos. cbn [occurs].
    destruct (Ascii.eqb_spec c "-"%char) as [->|]; [| reflexivity].
    vm_compute in Hletter. now exfalso.
Qed.

Lemma not_closed_without_capitals message :
  occurs "T"%char message = false -> occurs "B"%char message = false ->
  occurs "C"%char message = false ->
  isBrowserClosedError (Error message) = false.
Proof.
  intros HT HB HC. unfold isBrowserClosedError. cbn [err_message Error].
  repeat match goal with
  | |- context [Str.includes message (String ?c ?n)] =>
      let H := fresh in
      destruct (Str.includes message (String c n)) eqn:H;
      [apply includes_first in H; congruence |]
  end.
  reflexivity.
Qed.

(** X15. The verdicts of the check itself are final on a remote browser.
    When the first remote attempt ends with the invalid-protocol error, the
    no-response error, the challenge-timeout error, an HTTP status thrown as
    message, or the remote-browser-not-found error, the check throws that
    error at once: none of them counts as a closed connection, so the cache
    entry is not evicted and no second attempt is made. *)
Theorem own_verdicts_are_not_retried env monitor server rb w e w1 :
  remote_of monitor = Some rb ->
  remote_attempt env monitor server rb w = (Err e, w1) ->
  e = invalid_protocol \/ e = no_response \/ e = challenge_timeout
  \/ (exists code : Z, e = Error (pretty code))
  \/ (exists id : Z, e = Error ("Remote browser #" ++ pretty id ++ " not found")%string) ->
  isBrowserClosedError e = false
  /\ check env monitor server w = (Err e, w1).
Proof.
  intros Hremote Hattempt Hverdict.
  assert (Hopen : isBrowserClosedError e = false).
  { destruct Hverdict as [-> | [-> | [-> | [(code & ->) | (id & ->)]]]];
      try (vm_compute; reflexivity).
    - apply not_closed_without_capitals; apply pretty_Z_letter; vm_compute; discriminate.
    - apply not_closed_without_capitals; rewrite !occurs_app, pretty_Z_letter;
        solve [reflexivity | vm_compute; discriminate]. }
  split; [exact Hopen |].
  unfold check. rewrite Hremote.
  rewrite (try_catch_err _ _ _ _ _ Hattempt), Hopen. reflexivity.
Qed.

Lemma own_verdicts_are_not_retried_witness :
  fst (check Demo.server_error Demo.remote Demo.server Demo.warm) = Err (Error "500")
  /\ count is_newContext
       (trace (snd (check Demo.server_error Demo.remote Demo.server Demo.warm))) = 1%nat.
Proof.
  assert (Hattempt : remote_attempt Demo.server_error Demo.remote Demo.server 7 Demo.warm
                     = (Err (Error "500"),
                        snd (remote_attempt Demo.server_error Demo.remote Demo.server 7 Demo.warm)))
    by (vm_compute; reflexivity).
  destruct (own_verdicts_are_not_retried Demo.server_error Demo.remote Demo.server 7 Demo.warm
              _ _ eq_refl Hattempt
              (or_intror (or_intror (or_intror (or_introl (ex_intro _ 500 eq_refl))))))
    as [_ Hcheck].
  rewrite Hcheck. split; [reflexivity | vm_compute; reflexivity].
Defined.

(** ** Navigation budgets *)

Lemma floor_of_1000 x : budget_ok (Num.max (Num.of_Z 1000) x) = true.
Proof.
  unfold budget_ok, Num.max, Num.ge, SFleb.
  destruct (SFcompare (Num.of_Z 1000) x) as [[| |]|] eqn:Hcompare.
  - vm_compute. reflexivity.
  - rewrite Hcompare. apply orb_true_r.
  - vm_compute. reflexivity.
  - reflexivity.
Qed.

Lemma floor_of_3000 x : budget_ok (Num.max (Num.of_Z 3000) x) = true.
Proof.
  unfold budget_ok, Num.max, Num.ge, SFleb.
  destruct (SFcompare (Num.of_Z 3000) x) as [[| |]|] eqn:Hcompare.
  - vm_compute. reflexivity.
  - assert (Hlow : SFcompare (Num.of_Z 1000) x = Some Lt); [| rewrite Hlow; apply orb_true_r].
    remember (Num.of_Z 3000) as three eqn:H3. remember (Num.of_Z 1000) as one eqn:H1.
    vm_compute in H3, H1. subst three one.
    destruct x as [sx|sx| |sx mx ex]; try discriminate.
    + destruct sx; [discriminate | reflexivity].
    + destruct sx; [discriminate |].
      cbn [SFcompare] in Hcompare |- *.
      destruct (Z.compare_spec (-41) ex) as [Heq | Hlt | Hgt].
      * subst ex. reflexivity.
      * destruct (Z.compare_spec (-43) ex) as [Heq | _ | Hgt']; [lia | reflexivity | lia].
      * discriminate.
  - vm_compute. reflexivity.
  - reflexivity.
Qed.

(** X16. Every navigation of a check is given at least one second.  The
    budget of each [page.goto] call made by [check], in either mode, local or
    remote, first attempt or retry, is a number of milliseconds not below
    1000, or NaN.  NaN is what the budget is when the monitor's interval is
    NaN: the floor of [Math.max] does not replace it. *)
Theorem no_short_navigation env monitor server :
  calls_at_most is_short_goto 0 (check env monitor server)
  /\ (Num.is_nan (interval monitor) = true -> check_timeout monitor = S754_nan).
Proof.
  split.
  - assert (Hmain : negb (budget_ok (check_timeout monitor)) = false)
      by (unfold check_timeout; now rewrite floor_of_1000).
    assert (Hverify : negb (budget_ok (verifyTimeout (check_timeout monitor))) = false)
      by (unfold verifyTimeout; now rewrite floor_of_3000).
    assert (Hfallback : negb (budget_ok (fallbackTimeout (check_timeout monitor))) = false)
      by (unfold fallbackTimeout; now rewrite floor_of_1000).
    assert (Hrun : forall b, calls_at_most is_short_goto 0 (runCheck env monitor server b)).
    { intros b. unfold runCheck.
      apply silent_bind; [apply calls_call_other; reflexivity | intros _].
      apply silent_bind; [apply calls_new_object | intros c].
      apply (calls_try_finally _ 0 0); [| silent].
      unfold runCheck_body, open_page, check_protocol, navigate, navigate_cloudflare,
        navigate_plain, goto, waitForCloudflareChallengeIfNeeded, isCloudflareChallengePage,
        take_screenshot, classify.
      cbv zeta.
      repeat first
        [ progress silent
        | apply calls_call_other; first [exact Hmain | exact Hverify | exact Hfallback] ]. }
    assert (Hattempt : forall rb, calls_at_most is_short_goto 0 (remote_attempt env monitor server rb)).
    { intros rb. unfold remote_attempt.
      apply silent_bind; [| intros; apply Hrun].
      apply getRemoteBrowser_silent. intros []; simpl; congruence. }
    unfold check. destruct (remote_of monitor) as [rb|].
    + apply silent_try_catch; [apply Hattempt | intros error].
      destruct (negb (isBrowserClosedError error)); [apply calls_throw |].
      apply silent_bind; [| intros; apply Hattempt].
      apply clearRemoteBrowserConnection_silent. intros []; simpl; congruence.
    + apply silent_bind; [| intros; apply Hrun].
      destruct (isCloudflareMode monitor);
        [apply getCloudflareBrowser_silent | apply getBrowser_silent];
        intros []; simpl; congruence.
  - intros Hnan. unfold check_timeout. destruct (interval monitor); try discriminate. reflexivity.
Qed.

Lemma no_short_navigation_witness :
  check_timeout (mkMonitor 5 "unset" "https://example.com" None None 1 S754_nan (Num.of_Z 0) false)
  = S754_nan.
Proof.
  apply (proj2 (no_short_navigation Demo.calm
                  (mkMonitor 5 "unset" "https://example.com" None None 1 S754_nan (Num.of_Z 0) false)
                  Demo.server)).
  reflexivity.
Defined.

(** ** Reset, once more *)

(** X17. [resetChrome] is about the local pool only, and a second reset
    does nothing.  It never changes the remote connection cache, the
    registered listeners or the remembered executable, and it makes at most
    two [close] calls.  Once a reset has returned, another reset returns at
    once and leaves the world, history included, as it is. *)
Theorem reset_is_local_and_idempotent env w w1 outcome :
  resetChrome env w = (outcome, w1) ->
  remoteBrowserConnections w1 = remoteBrowserConnections w
  /\ observers w1 = observers w
  /\ lastAutoDetectChromeExecutable w1 = lastAutoDetectChromeExecutable w
  /\ (exists evs, trace w1 = evs ++ trace w /\ (count is_browser_close evs <= 2)%nat)
  /\ (forall u, outcome = Ok u -> resetChrome env w1 = (Ok tt, w1)).
Proof.
  intros Hreset.
  assert (Hframe : forall {B} (f : World -> B),
            (forall t w, f (set_trace t w) = f w) ->
            (forall b w, f (set_localBrowser b w) = f w) ->
            (forall b w, f (set_localCloudflareBrowser b w) = f w) ->
            f w1 = f w).
  { intros B f Htrace Hplain Hchallenge.
    assert (Hkeeps : keeps f (resetChrome env)).
    { unfold resetChrome, close_browser. framed. }
    specialize (Hkeeps w). now rewrite Hreset in Hkeeps. }
  split; [apply Hframe; projection |].
  split; [apply Hframe; projection |].
  split; [apply Hframe; projection |].
  split.
  - assert (Hcalls : calls_at_most is_browser_close 2 (resetChrome env)).
    { unfold resetChrome, close_browser.
      apply (calls_bind _ 0 2); [apply calls_get | intros plain].
      apply (calls_bind _ 1 1).
      - destruct plain as [b|]; [| apply (calls_weaken _ 0); [lia | apply calls_ret]].
        apply (calls_bind _ 1 0); [apply calls_call | silent].
      - intros _. apply (calls_bind _ 0 1); [apply calls_get | intros challenge].
        destruct challenge as [b|]; [| apply (calls_weaken _ 0); [lia | apply calls_ret]].
        apply (calls_bind _ 1 0); [apply calls_call | silent]. }
    specialize (Hcalls w). now rewrite Hreset in Hcalls.
  - intros u ->.
    assert (Hempty : localBrowser w1 = None /\ localCloudflareBrowser w1 = None).
    { clear Hframe. revert Hreset. unfold resetChrome, close_browser. run.
      destruct (localBrowser w) as [b1|] eqn:Hplain;
        destruct (localCloudflareBrowser w) as [b2|] eqn:Hchallenge;
        repeat match goal with
          | |- context [browser_close env ?t] =>
              destruct (browser_close env t) as [[]|?]; tidy; rewrite ?Hchallenge
          end;
        tidy; intros Hrun; try discriminate;
        inversion Hrun; subst w1; tidy; auto. }
    destruct Hempty as [Hplain Hchallenge].
    unfold resetChrome. run. rewrite Hplain. tidy. rewrite Hchallenge. reflexivity.
Qed.

Lemma reset_is_local_and_idempotent_witness :
  resetChrome Demo.calm (snd (resetChrome Demo.calm Demo.both_cached))
  = (Ok tt, snd (resetChrome Demo.calm Demo.both_cached)).
Proof.
  destruct (reset_is_local_and_idempotent Demo.calm Demo.both_cached
              (snd (resetChrome Demo.calm Demo.both_cached)) (Ok tt) eq_refl)
    as (_ & _ & _ & _ & Hagain).
  exact (Hagain tt eq_refl).
Defined.

(** ** The bundled browser *)

(** X18. [prepareChromeExecutable] returns no path, which makes the launch
    use the browser bundled with the driver, only on explicit request.  A
    setting whose locale lower-case form, as the runtime computes it, is
    [#playwright_chromium] gives no path at once: no call is made, nothing
    is looked up in the allow-list and the world is unchanged.  Every other
    input gives a path or an error. *)
Theorem bundled_browser_only_on_request env executablePath w :
  (forall p,
     executablePath = Some p -> toLocaleLowerCase env p = "#playwright_chromium" ->
     prepareChromeExecutable env executablePath w = (Ok None, w))
  /\ (forall w',
        prepareChromeExecutable env executablePath w = (Ok None, w') ->
        exists p, executablePath = Some p /\ toLocaleLowerCase env p = "#playwright_chromium").
Proof.
  split.
  - intros p -> Hsentinel. unfold prepareChromeExecutable. rewrite Hsentinel. reflexivity.
  - intros w'.
    assert (Hdetect : forall w0 w0',
              (if env_truthy env "UPTIME_KUMA_IS_CONTAINER"
               then installChromiumViaApt env "/usr/bin/chromium";; mret (Some "/usr/bin/chromium")
               else found ← findChrome env (allowedList env); mret (Some found)) w0
              <> (Ok None, w0')).
    { intros w0 w0'. destruct (env_truthy env "UPTIME_KUMA_IS_CONTAINER").
      - unfold mbind, M_bind, bind.
        destruct (installChromiumViaApt env "/usr/bin/chromium" w0) as [[[]|e] w2];
          cbn; discriminate.
      - unfold mbind, M_bind, bind.
        destruct (findChrome env (allowedList env) w0) as [[found|e] w2]; cbn; discriminate. }
    unfold prepareChromeExecutable. cbv zeta.
    destruct executablePath as [p|]; [| intros H; now apply Hdetect in H].
    destruct (String.eqb_spec (toLocaleLowerCase env p) "#playwright_chromium") as [Hsentinel|_];
      [intros _; exists p; split; [reflexivity | exact Hsentinel] |].
    destruct (String.eqb p ""); [intros H; now apply Hdetect in H |].
    destruct (negb (isAllowedChromeExecutable env p)); cbn; discriminate.
Qed.

Lemma bundled_browser_only_on_request_witness :
  prepareChromeExecutable Lab.no_browser (Some "#Playwright_Chromium") Demo.cold
  = (Ok None, Demo.cold).
Proof.
  apply (proj1 (bundled_browser_only_on_request Lab.no_browser
                  (Some "#Playwright_Chromium") Demo.cold) "#Playwright_Chromium");
    reflexivity.
Defined.

(** The sentinel depends on the locale of the process: in a Turkish process
    the spelling in capitals is not the sentinel, it is an explicit path and
    is rejected, while the spelling in small letters still gives no path. *)
Example sentinel_in_a_turkish_process :
  prepareChromeExecutable Demo.calm (Some "#PLAYWRIGHT_CHROMIUM") Demo.cold = (Ok None, Demo.cold)
  /\ prepareChromeExecutable Lab.turkish (Some "#PLAYWRIGHT_CHROMIUM") Demo.cold
     = (Err chromium_not_allowed, Demo.cold)
  /\ prepareChromeExecutable Lab.turkish (Some "#playwright_chromium") Demo.cold
     = (Ok None, Demo.cold).
Proof. vm_compute. repeat split. Qed.

(** ** A remote browser without a record *)

(** X19. A monitor that names a remote browser with no record fails after
    the lookup alone.  When [RemoteBrowser.get] answers nothing, the check
    throws "Remote browser #<id> not found"; the lookup is the only call
    made: no connection attempt, no eviction and no second lookup follow, and
    nothing but the history changes. *)
Theorem missing_remote_record_is_final env monitor server rb w :
  remote_of monitor = Some rb ->
  RemoteBrowser_get env (EvRemoteBrowserGet rb (user_id monitor) :: trace w) = Ok None ->
  check env monitor server w
  = (Err (Error ("Remote browser #" ++ pretty rb ++ " not found")%string),
     set_trace (EvRemoteBrowserGet rb (user_id monitor) :: trace w) w).
Proof.
  intros Hremote Hlookup.
  assert (Hattempt : remote_attempt env monitor server rb w
                     = (Err (Error ("Remote browser #" ++ pretty rb ++ " not found")%string),
                        set_trace (EvRemoteBrowserGet rb (user_id monitor) :: trace w) w)).
  { unfold remote_attempt, getRemoteBrowser. run. rewrite Hlookup. reflexivity. }
  unfold check. rewrite Hremote.
  rewrite (try_catch_err _ _ _ _ _ Hattempt).
  assert (Hopen : isBrowserClosedError
                    (Error ("Remote browser #" ++ pretty rb ++ " not found")%string) = false).
  { apply not_closed_without_capitals; rewrite !occurs_app, pretty_Z_letter;
      solve [reflexivity | vm_compute; discriminate]. }
  rewrite Hopen. reflexivity.
Qed.

Lemma missing_remote_record_is_final_witness :
  check Demo.calm Lab.orphan Demo.server Demo.cold
  = (Err (Error "Remote browser #9 not found"),
     set_trace [EvRemoteBrowserGet 9 1] Demo.cold).
Proof.
  exact (missing_remote_record_is_final Demo.calm Lab.orphan Demo.server 9 Demo.cold
           eq_refl eq_refl).
Defined.

(** ** The allow-list on Windows *)

Lemma in_drives letter :
  (65 <= letter <= 90)%nat -> In (String (ascii_of_nat letter) EmptyString) drives.
Proof.
  intros Hrange. unfold drives. apply in_map_iff. exists letter.
  split; [reflexivity | apply in_seq; lia].
Qed.

(** X20. The allow-list built on Windows.  It has 59 entries: seven under
    the three directory variables and two for each drive letter A to Z.  For
    every capital drive letter both Chrome locations under [Program Files]
    and [Program Files (x86)] are allowed.  A directory variable that is not
    set is spelled [undefined] in its entries, so that relative path is
    allowed. *)
Theorem windows_allow_list env :
  platform env = "win32" ->
  length (allowedList env) = 59%nat
  /\ (forall letter,
        (65 <= letter <= 90)%nat ->
        let drive := String (ascii_of_nat letter) EmptyString in
        isAllowedChromeExecutable env
          (drive ++ ":\Program Files\Google\Chrome\Application\chrome.exe")%string = true
        /\ isAllowedChromeExecutable env
             (drive ++ ":\Program Files (x86)\Google\Chrome\Application\chrome.exe")%string = true)
  /\ (getenv env "LOCALAPPDATA" = None ->
      isAllowedChromeExecutable env "undefined\Google\Chrome\Application\chrome.exe" = true).
Proof.
  intros Hplatform.
  assert (Hlist : allowedList env = windows_allowedList env)
    by (unfold allowedList; now rewrite Hplatform).
  assert (Hallowed : forall p, In p (windows_allowedList env) ->
                               isAllowedChromeExecutable env p = true).
  { intros p Hin. rewrite isAllowed_spec, Hlist. apply orb_true_iff. right.
    now apply existsb_eqb_In. }
  split; [| split].
  - rewrite Hlist. unfold windows_allowedList. rewrite length_app. reflexivity.
  - intros letter Hrange drive.
    split; apply Hallowed; unfold windows_allowedList; apply in_or_app; right;
      apply in_flat_map; exists drive; (split; [now apply in_drives | simpl; auto]).
  - intros Hunset. apply Hallowed. unfold windows_allowedList. rewrite Hunset.
    apply in_or_app. left. left. reflexivity.
Qed.

Lemma windows_allow_list_witness :
  isAllowedChromeExecutable Lab.bare_windows
    "D:\Program Files\Google\Chrome\Application\chrome.exe" = true
  /\ isAllowedChromeExecutable Lab.bare_windows
       "undefined\Google\Chrome\Application\chrome.exe" = true.
Proof.
  destruct (windows_allow_list Lab.bare_windows eq_refl) as (_ & Hdrives & Hunset).
  split; [| exact (Hunset eq_refl)].
  apply (Hdrives 68%nat). lia.
Defined.

(** ** The two modes *)

(** X21. The two modes do not mix.  A check whose subtype is not exactly
    [cf] makes none of the calls of the challenge-aware mode: no init script,
    no extra headers, no page inspection, no challenge wait, no context with
    a user agent, locale or viewport, and no headed or flagged launch.  A
    challenge-aware check never waits for the network to be idle: all its
    loads wait for the parsed content only. *)
Theorem modes_do_not_mix env monitor server :
  if isCloudflareMode monitor
  then calls_at_most is_idle_goto 0 (check env monitor server)
  else calls_at_most is_challenge_event 0 (check env monitor server).
Proof.
  destruct (isCloudflareMode monitor) eqn:Hmode.
  - assert (Hrun : forall b, calls_at_most is_idle_goto 0 (runCheck env monitor server b)).
    { intros b. unfold runCheck.
      apply silent_bind; [apply calls_call_other; reflexivity | intros _].
      apply silent_bind; [apply calls_new_object | intros c].
      apply (calls_try_finally _ 0 0); [| silent].
      unfold runCheck_body, open_page, check_protocol, navigate, navigate_cloudflare, goto,
        waitForCloudflareChallengeIfNeeded, isCloudflareChallengePage, take_screenshot, classify.
      rewrite Hmode. cbv zeta. silent. }
    assert (Hattempt : forall rb, calls_at_most is_idle_goto 0 (remote_attempt env monitor server rb)).
    { intros rb. unfold remote_attempt.
      apply silent_bind; [| intros; apply Hrun].
      apply getRemoteBrowser_silent. intros []; simpl; congruence. }
    unfold check. rewrite Hmode. destruct (remote_of monitor) as [rb|].
    + apply silent_try_catch; [apply Hattempt | intros error].
      destruct (negb (isBrowserClosedError error)); [apply calls_throw |].
      apply silent_bind; [| intros; apply Hattempt].
      apply clearRemoteBrowserConnection_silent. intros []; simpl; congruence.
    + apply silent_bind; [| intros; apply Hrun].
      apply getCloudflareBrowser_silent. intros []; simpl; congruence.
  - assert (Hrun : forall b, calls_at_most is_challenge_event 0 (runCheck env monitor server b)).
    { intros b. unfold runCheck, contextOptions. rewrite Hmode.
      apply silent_bind; [apply calls_call_other; reflexivity | intros _].
      apply silent_bind; [apply calls_new_object | intros c].
      apply (calls_try_finally _ 0 0); [| silent].
      unfold runCheck_body, open_page, check_protocol, navigate, navigate_plain, goto,
        take_screenshot, classify.
      rewrite Hmode. cbv zeta. silent. }
    assert (Hattempt : forall rb,
              calls_at_most is_challenge_event 0 (remote_attempt env monitor server rb)).
    { intros rb. unfold remote_attempt.
      apply silent_bind; [| intros; apply Hrun].
      apply getRemoteBrowser_silent. intros []; simpl; congruence. }
    unfold check. rewrite Hmode. destruct (remote_of monitor) as [rb|].
    + apply silent_try_catch; [apply Hattempt | intros error].
      destruct (negb (isBrowserClosedError error)); [apply calls_throw |].
      apply silent_bind; [| intros; apply Hattempt].
      apply clearRemoteBrowserConnection_silent. intros []; simpl; congruence.
    + apply silent_bind; [| intros; apply Hrun].
      unfold getBrowser, connected, launch.
      apply silent_bind; [silent | intros cached].
      apply silent_bind; [silent | intros live].
      assert (Hmiss : calls_at_most is_challenge_event 0
                (executablePath ← call (EvSettingsGet "chromeExecutable") (Settings_get env);
                 executablePath ← prepareChromeExecutable env executablePath;
                 b ← (call (EvLaunch (mkLaunch executablePath None [])) (chromium_launch env);;
                      new_object);
                 modify (set_localBrowser (Some b));;
                 mret b)).
      { apply silent_bind; [apply calls_call_other; reflexivity | intros path].
        apply silent_bind; [| silent].
        apply prepareChromeExecutable_makes_no.
        intros ev [H | [H | [c ->]]]; [destruct ev; try discriminate; reflexivity .. | reflexivity]. }
      destruct cached as [b|], live; try exact Hmiss. apply calls_ret.
Qed.

(** ** Evicting a remote connection *)

(** X22. [clearRemoteBrowserConnection] never throws and a second call does
    nothing.  It closes the cached browser of the id, if there is one, with
    at most one [close] call whose error is swallowed; afterwards the id has
    no entry and every other entry is as before.  The listeners registered
    on the evicted browser stay registered.  Another call on the same id
    makes no call and changes nothing. *)
Theorem clear_never_throws env remoteBrowserID w :
  let w1 := snd (clearRemoteBrowserConnection env remoteBrowserID w) in
  fst (clearRemoteBrowserConnection env remoteBrowserID w) = Ok tt
  /\ remoteBrowserConnections w1 = delete remoteBrowserID (remoteBrowserConnections w)
  /\ observers w1 = observers w
  /\ trace w1
     = match remoteBrowserConnections w !! remoteBrowserID with
       | Some c => EvBrowserClose (conn_browser c) :: trace w
       | None => trace w
       end
  /\ clearRemoteBrowserConnection env remoteBrowserID w1 = (Ok tt, w1).
Proof.
  unfold clearRemoteBrowserConnection, cache_delete, close_browser. run.
  destruct (remoteBrowserConnections w !! remoteBrowserID) as [c|] eqn:Hcached.
  - destruct (browser_close env _) as [[]|e]; tidy; repeat split;
      now rewrite lookup_delete_eq.
  - tidy. rewrite Hcached. repeat split. symmetry. now apply delete_id.
Qed.

(** * Properties of the Minecraft monitor *)

Lemma string_app_nil_r s : (s ++ "")%string = s.
Proof.
  induction s as [|c s IH]; [reflexivity |].
  change (String c (s ++ "")%string = String c s). now f_equal.
Qed.

Lemma string_app_assoc a b c : ((a ++ b) ++ c)%string = (a ++ (b ++ c))%string.
Proof.
  induction a as [|x a IH]; [reflexivity |].
  change (String x ((a ++ b) ++ c)%string = String x (a ++ (b ++ c))%string). now f_equal.
Qed.

Lemma join_prefix sep part rest :
  exists tail, Js.join sep (part :: rest) = (part ++ tail)%string.
Proof.
  destruct rest as [|next rest].
  - exists "". simpl. now rewrite string_app_nil_r.
  - exists (sep ++ Js.join sep (next :: rest))%string. reflexivity.
Qed.

(** X23. A failed Minecraft check is one of two errors and leaves the
    heartbeat alone.  The edition is Bedrock only when the subtype is exactly
    [bedrock]; anything else, a missing subtype included, is probed as Java
    with the query option.  The port is the monitor's when it is truthy, and
    19132 for Bedrock or 25565 for Java otherwise.  If the probe throws, the
    check throws "Minecraft check failed: " followed by the message of that
    error; if the answer has no truthy [online] field, it throws "Minecraft
    server is offline"; in both cases the heartbeat is as it was.  In every
    other case the check returns. *)
Theorem minecraft_failures env monitor heartbeat :
  let bedrock := Js.is_string (Minecraft.subtype monitor) "bedrock" in
  let port :=
    if Js.truthy (Minecraft.port monitor) then Minecraft.port monitor
    else Js.JNum (Num.of_Z (if bedrock then 19132 else 25565)) in
  let probe :=
    if bedrock then Minecraft.StatusBedrock (Minecraft.hostname monitor) port
    else Minecraft.StatusJava (Minecraft.hostname monitor) port true in
  match Minecraft.mcs env probe with
  | Err error =>
      Minecraft.check env monitor heartbeat
      = (Err (Error ("Minecraft check failed: " ++ err_message error)%string), heartbeat)
  | Ok result =>
      if Js.truthy (Js.get result "online")
      then fst (Minecraft.check env monitor heartbeat) = Ok tt
      else Minecraft.check env monitor heartbeat
           = (Err (Error "Minecraft server is offline"), heartbeat)
  end.
Proof.
  intros bedrock port probe. subst bedrock port probe.
  unfold Minecraft.check, Minecraft.probe, Js.or.
  destruct (Js.is_string (Minecraft.subtype monitor) "bedrock");
    destruct (Minecraft.mcs env _) as [result|error]; try reflexivity;
    destruct (Js.truthy (Js.get result "online")); reflexivity.
Qed.

(** X24. A Minecraft check that returns reports "up" with a message that is
    never empty.  When the probe answers and the answer is online, the check
    returns and sets the status to "up".  The message is "Online" when the
    answer yields no part; otherwise it begins with the first part, so it
    begins with "Version: ", "Players: " or "MOTD: ".  The ping becomes the
    latency of the answer when that is a finite number; otherwise the ping
    the heartbeat already had is kept. *)
Theorem minecraft_success env monitor heartbeat result :
  Minecraft.mcs env (Minecraft.probe monitor) = Ok result ->
  Js.truthy (Js.get result "online") = true ->
  let heartbeat' := snd (Minecraft.check env monitor heartbeat) in
  fst (Minecraft.check env monitor heartbeat) = Ok tt
  /\ Minecraft.status heartbeat' = Some UP
  /\ (exists message,
        Minecraft.msg heartbeat' = Some message
        /\ message <> ""
        /\ match Minecraft.messageParts env result with
           | [] => message = "Online"
           | part :: _ => String.prefix part message = true
           end
        /\ (message = "Online"
            \/ String.prefix "Version: " message = true
            \/ String.prefix "Players: " message = true
            \/ String.prefix "MOTD: " message = true))
  /\ (forall latency,
        Js.get result "latency" = Js.JNum latency ->
        Js.isFinite (Js.JNum latency) = true ->
        Minecraft.ping heartbeat' = Some latency)
  /\ (Js.isFinite (Js.get result "latency") = false ->
      Minecraft.ping heartbeat' = Minecraft.ping heartbeat).
Proof.
  intros Hanswer Honline heartbeat'. subst heartbeat'.
  unfold Minecraft.check. rewrite Hanswer, Honline.
  cbv zeta. cbn [negb fst snd Minecraft.status Minecraft.msg Minecraft.ping].
  split; [reflexivity |]. split; [reflexivity |]. split; [| split].
  - eexists. split; [reflexivity |].
    assert (Hparts : forall part, In part (Minecraft.messageParts env result) ->
              String.prefix "Version: " part = true
              \/ String.prefix "Players: " part = true
              \/ String.prefix "MOTD: " part = true).
    { intros part. unfold Minecraft.messageParts. cbv zeta. rewrite !in_app_iff.
      intros [Hin | [Hin | Hin]]; revert Hin.
      - destruct (Js.truthy (Js.or _ _)); cbn [In]; intros Hin; [| contradiction].
        destruct Hin as [<- | []]. left. apply prefix_iff. eexists. reflexivity.
      - destruct (_ && _); cbn [In]; intros Hin; [| contradiction].
        destruct Hin as [<- | []]. right. left. apply prefix_iff. eexists. reflexivity.
      - destruct (negb _); cbn [In]; intros Hin; [| contradiction].
        destruct Hin as [<- | []]. right. right. apply prefix_iff. eexists. reflexivity. }
    destruct (Minecraft.messageParts env result) as [|part rest] eqn:Hlist.
    + cbn. split; [discriminate |]. split; [reflexivity | now left].
    + destruct (join_prefix " | " part rest) as (tail & Hjoin). rewrite Hjoin.
      assert (Hfirst : String.prefix "Version: " part = true
                       \/ String.prefix "Players: " part = true
                       \/ String.prefix "MOTD: " part = true) by (apply Hparts; now left).
      assert (Hlift : forall marker, String.prefix marker part = true ->
                String.prefix marker (part ++ tail)%string = true).
      { intros marker Hmarker. apply prefix_iff in Hmarker. destruct Hmarker as (post & ->).
        apply prefix_iff. exists (post ++ tail)%string. apply string_app_assoc. }
      assert (Hfull : (part ++ tail)%string <> "").
      { destruct Hfirst as [H | [H | H]]; apply prefix_iff in H; destruct H as (post & ->);
          discriminate. }
      destruct (String.eqb_spec (part ++ tail)%string "") as [Hempty | _]; [contradiction |].
      split; [exact Hfull |]. split; [apply prefix_iff; now exists tail |].
      right. destruct Hfirst as [H | [H | H]]; auto.
  - intros latency -> Hfinite. now rewrite Hfinite.
  - intros Hfinite. destruct (Js.get result "latency"); try reflexivity.
    now rewrite Hfinite.
Qed.

Lemma minecraft_success_witness :
  Minecraft.msg (snd (Minecraft.check (Minecraft.answering (Ok Minecraft.java_status))
                        Minecraft.java_monitor Minecraft.stale))
  <> Some ""
  /\ Minecraft.ping (snd (Minecraft.check (Minecraft.answering (Ok Minecraft.java_status))
                            Minecraft.java_monitor Minecraft.stale))
     = Some (Num.of_Z 42).
Proof.
  destruct (minecraft_success (Minecraft.answering (Ok Minecraft.java_status))
              Minecraft.java_monitor Minecraft.stale Minecraft.java_status eq_refl eq_refl)
    as (_ & _ & (message & Hmsg & Hfull & _) & Hping & _).
  split.
  - rewrite Hmsg. intros [= Hempty]. now apply Hfull.
  - apply Hping; reflexivity.
Defined.

Example minecraft_check_runs :
  Minecraft.check (Minecraft.answering (Ok Minecraft.java_status))
    Minecraft.java_monitor Minecraft.stale
  = (Ok tt,
     Minecraft.mkHeartbeat (Some UP)
       (Some "Version: 1.20.4 | Players: 3/20 | MOTD: A server") (Some (Num.of_Z 42)))
  /\ Minecraft.check (Minecraft.answering (Ok (Js.JObj [ ("online", Js.JBool true) ])))
       Minecraft.java_monitor Minecraft.stale
     = (Ok tt, Minecraft.mkHeartbeat (Some UP) (Some "Online") (Some (Num.of_Z 7)))
  /\ Minecraft.check (Minecraft.answering (Err (mkError "TypeError" "fetch failed")))
       Minecraft.java_monitor Minecraft.stale
     = (Err (Error "Minecraft check failed: fetch failed"), Minecraft.stale).
Proof. vm_compute. repeat split. Qed.

(** * Properties of the entry page *)

Lemma strip_prefix_app needle rest : Entry.strip_prefix needle (needle ++ rest)%string = Some rest.
Proof.
  induction needle as [|c needle IH]; [now destruct rest |].
  change (Entry.strip_prefix (String c needle) (String c (needle ++ rest)%string) = Some rest).
  cbn [Entry.strip_prefix]. now rewrite Ascii.eqb_refl.
Qed.

Lemma remove_first_prefix needle rest :
  Entry.remove_first needle (needle ++ rest)%string = rest.
Proof.
  pose proof (strip_prefix_app needle rest) as Hstrip.
  destruct (needle ++ rest)%string; cbn [Entry.remove_first]; now rewrite Hstrip.
Qed.

(** X25. The entry page routes to a status page by removing the
    [statusPage-] prefix.  On the root path (an empty path name counts as the
    root), when the backend answers type [entryPage] with an entry
    [statusPage-<slug>], [mounted] pushes [/status/<slug>] and does nothing
    else; only this leading prefix is removed, whatever the slug holds. *)
Theorem entry_status_page location axios_get res slug :
  location = "" \/ location = "/" ->
  axios_get "/" = Ok res ->
  Js.get res "type" = Js.JStr "entryPage" ->
  Js.get res "entryPage" = Js.JStr ("statusPage-" ++ slug)%string ->
  Entry.mounted location axios_get = [Entry.RouterPush ("/status/" ++ slug)%string].
Proof.
  intros Hroot Hanswer Htype Hentry. unfold Entry.mounted.
  assert (Hpath : (if String.eqb location "" then "/" else location) = "/")
    by (destruct Hroot as [-> | ->]; reflexivity).
  rewrite Hpath, Hanswer. unfold Entry.route. rewrite Htype, Hentry.
  assert (Hstarts : String.prefix "statusPage-" ("statusPage-" ++ slug)%string = true)
    by (apply prefix_iff; now exists slug).
  destruct res; try discriminate; cbn [Js.is_string String.eqb Ascii.eqb Bool.eqb negb];
    rewrite Hstarts, remove_first_prefix; reflexivity.
Qed.

Lemma entry_status_page_witness :
  Entry.mounted ""
    (fun _ => Ok (Js.JObj [ ("type", Js.JStr "entryPage");
                            ("entryPage", Js.JStr "statusPage-statusPage-main") ]))
  = [Entry.RouterPush "/status/statusPage-main"].
Proof.
  apply (entry_status_page "" _
           (Js.JObj [ ("type", Js.JStr "entryPage");
                      ("entryPage", Js.JStr "statusPage-statusPage-main") ])
           "statusPage-main"); [now left | reflexivity ..].
Defined.

(** X26. What the entry page can do.  [mounted] does exactly one thing: it
    shows a status page (slug and theme), or makes one router call, or
    alerts that the backend cannot be reached.  The only target of
    [router.replace] is [/page-not-found], and it is never used on the root
    path.  Off the root path the only push is to [/setup-database]: neither
    the dashboard nor a status page is pushed.  A failed request, an answer
    that is [null] or missing, alerts. *)
Theorem entry_outcomes location axios_get :
  let actions := Entry.mounted location axios_get in
  let root := String.eqb location "" || String.eqb location "/" in
  ((exists slug, actions = [Entry.SetStatusPageSlug slug; Entry.ForceStatusPageTheme])
   \/ (exists path, actions = [Entry.RouterPush path])
   \/ actions = [Entry.RouterReplace "/page-not-found"]
   \/ actions = [Entry.Alert Entry.backend_down])
  /\ (forall path, In (Entry.RouterReplace path) actions ->
                   path = "/page-not-found" /\ root = false)
  /\ (forall path, In (Entry.RouterPush path) actions ->
                   root = true \/ path = "/setup-database")
  /\ (match axios_get (if String.eqb location "" then "/" else location) with
      | Err _ | Ok Js.JUndefined | Ok Js.JNull => actions = [Entry.Alert Entry.backend_down]
      | _ => True
      end).
Proof.
  intros actions root. subst actions root. unfold Entry.mounted, Entry.route.
  destruct (String.eqb_spec location "") as [-> | Hnonempty].
  - cbn [String.eqb orb].
    destruct (axios_get "/") as [res|error]; [| cbn; intuition (eauto; discriminate)].
    destruct res; try (cbn; intuition (eauto; discriminate));
      destruct (Js.is_string _ "statusPageMatchedDomain");
      try (cbn; intuition (eauto; discriminate));
      destruct (Js.is_string _ "entryPage");
      try (destruct (Js.is_string _ "setup-database"); cbn; intuition (eauto; discriminate));
      cbn [String.eqb Ascii.eqb Bool.eqb negb];
      destruct (Js.get _ "entryPage"); try (cbn; intuition (eauto; discriminate));
      destruct (String.prefix _ _); cbn; intuition (eauto; discriminate).
  - cbn [orb].
    destruct (axios_get location) as [res|error]; [| cbn; intuition (eauto; discriminate)].
    destruct (String.eqb_spec location "/") as [-> | Hoff].
    + destruct res; try (cbn; intuition (eauto; discriminate));
        destruct (Js.is_string _ "statusPageMatchedDomain");
        try (cbn; intuition (eauto; discriminate));
        destruct (Js.is_string _ "entryPage");
        try (destruct (Js.is_string _ "setup-database"); cbn; intuition (eauto; discriminate));
        cbn [String.eqb Ascii.eqb Bool.eqb negb];
        destruct (Js.get _ "entryPage"); try (cbn; intuition (eauto; discriminate));
        destruct (String.prefix _ _); cbn; intuition (eauto; discriminate).
    + destruct res; try (cbn; intuition (eauto; discriminate));
        destruct (Js.is_string _ "statusPageMatchedDomain");
        try (cbn; intuition (eauto; discriminate));
        destruct (Js.is_string _ "entryPage");
        try (cbn; intuition (eauto; try discriminate; congruence));
        destruct (Js.is_string _ "setup-database");
        cbn; intuition (eauto; try discriminate; congruence).
Qed.

Lemma entry_outcomes_witness :
  String.eqb "/missing" "" || String.eqb "/missing" "/" = false.
Proof.
  destruct (entry_outcomes "/missing" (fun _ => Ok (Js.JObj []))) as (_ & Hreplace & _).
  apply (Hreplace "/page-not-found"). left. reflexivity.
Defined.
